(** * Expense tracker and budget analyzer

    A shallow embedding of [project.py]: the CSV parser
    ([parse_transactions]), the keyword categorizer
    ([categorize_transactions]), the monthly aggregator
    ([monthly_summary]) and the advisor ([recommend_budget]).

    Python values are modelled as the program has them: amounts are
    binary64 floats (Rocq's primitive [float]), text is [string] (the
    UTF-8 bytes), a [dict] is an association list in insertion order, an
    exception is an [outcome] that is not [Return], and the file handle
    [parse_transactions] opens lives in an explicit [world].  The input
    of the parser is the list of rows [csv.DictReader] yields.

    The functions of Python's library that read and write text
    ([datetime.strptime], [datetime.fromisoformat], [float],
    [str.strip], [str.lower], [repr]) are the fields of a class [PyLib];
    the theorems hold for every such library, and a reference library
    for ASCII text runs the program on concrete inputs.  [sorted] is
    modelled as CPython sorts a list of fewer than 64 elements, so that
    the program can be run also where [<] is no order: on a subtotal
    that is NaN. *)

From Stdlib Require Import ZArith NArith List String Ascii Bool Lia.
From Stdlib Require Import Permutation Sorted.
From Stdlib Require Import Floats.
Import ListNotations.

Local Open Scope string_scope.
Local Open Scope list_scope.

(* ================================================================== *)
(** * Part 1: the model *)
(* ================================================================== *)

(** ** Exceptions and outcomes of a call *)

Inductive exn : Type :=
| ValueError (msg : string)
| AttributeError (msg : string)
| FileNotFoundError (path : string)
| KeyError (key : string)
| IndexError (msg : string).

Inductive outcome (A : Type) : Type :=
| Return (a : A)
| Raise (e : exn).

Arguments Return {A} a.
Arguments Raise {A} e.

Definition bind {A B : Type} (c : outcome A) (k : A -> outcome B) : outcome B :=
  match c with
  | Return a => k a
  | Raise e => Raise e
  end.

Notation "x <- c ;; k" := (bind c (fun x => k))
  (at level 61, c at next level, right associativity).

(** [try: c except Exception: h]. *)
Definition try_except {A : Type} (c : outcome A) (h : outcome A) : outcome A :=
  match c with
  | Return a => Return a
  | Raise _ => h
  end.

Definition returns {A : Type} (c : outcome A) : bool :=
  match c with
  | Return _ => true
  | Raise _ => false
  end.

(** ** Dates *)

Record date : Type := mkdate { year : Z; month : Z; day : Z }.

(** ** Text *)

Module Text.

Definition comma : ascii := ","%char.

(** [s.replace(",", "")]. *)
Fixpoint replace_comma (s : string) : string :=
  match s with
  | EmptyString => EmptyString
  | String c s' =>
      if Ascii.eqb c comma then replace_comma s' else String c (replace_comma s')
  end.

Fixpoint has_comma (s : string) : bool :=
  match s with
  | EmptyString => false
  | String c s' => Ascii.eqb c comma || has_comma s'
  end.

(** [kw in s]: [kw] occurs in [s] as a run of consecutive characters. *)
Fixpoint contains (kw s : string) : bool :=
  String.prefix kw s ||
  match s with
  | EmptyString => false
  | String _ s' => contains kw s'
  end.

(** The ASCII whitespace [str.strip] removes. *)
Definition is_space (c : ascii) : bool :=
  let n := nat_of_ascii c in
  (n =? 32)%nat || ((9 <=? n)%nat && (n <=? 13)%nat) || ((28 <=? n)%nat && (n <=? 31)%nat).

Fixpoint lstrip (s : string) : string :=
  match s with
  | EmptyString => EmptyString
  | String c s' => if is_space c then lstrip s' else s
  end.

Fixpoint rstrip (s : string) : string :=
  match s with
  | EmptyString => EmptyString
  | String c s' =>
      match rstrip s' with
      | EmptyString => if is_space c then EmptyString else String c EmptyString
      | r => String c r
      end
  end.

Definition strip (s : string) : string := rstrip (lstrip s).

Definition lower_char (c : ascii) : ascii :=
  let n := nat_of_ascii c in
  if (65 <=? n)%nat && (n <=? 90)%nat then ascii_of_nat (n + 32) else c.

Fixpoint lower (s : string) : string :=
  match s with
  | EmptyString => EmptyString
  | String c s' => String (lower_char c) (lower s')
  end.

Definition is_digit (c : ascii) : bool :=
  let n := nat_of_ascii c in (48 <=? n)%nat && (n <=? 57)%nat.

Definition digit_val (c : ascii) : Z := Z.of_nat (nat_of_ascii c) - 48.

Definition digit_char (d : Z) : ascii := ascii_of_nat (Z.to_nat d + 48).

(** The decimal digits of [n], most significant first; [fuel] bounds their
    number. *)
Fixpoint digits_fuel (fuel : nat) (n : Z) (acc : string) : string :=
  match fuel with
  | O => acc
  | S fuel' =>
      let acc' := String (digit_char (n mod 10)) acc in
      if (n / 10 =? 0)%Z then acc' else digits_fuel fuel' (n / 10) acc'
  end.

(** [str(n)] for [0 <= n]. *)
Definition of_Z (n : Z) : string :=
  digits_fuel (S (Z.to_nat (Z.log2 n))) n EmptyString.

(** Zero padding on the left up to [width] characters, as [:0{width}d]
    pads a number that is not negative. *)
Fixpoint zeros (k : nat) : string :=
  match k with
  | O => EmptyString
  | S k' => String "0"%char (zeros k')
  end.

Definition pad (width : nat) (n : Z) : string :=
  let s := of_Z n in zeros (width - String.length s) ++ s.

End Text.

(** ** The text-reading functions of Python's library

    [None] stands for the exception the library function raises
    ([ValueError] for all of them). *)

Class PyLib : Type := {
  (** [datetime.strptime(s, fmt).date()] *)
  strptime : string -> string -> option date;
  (** [datetime.fromisoformat(s).date()] *)
  fromisoformat : string -> option date;
  (** [float(s)] on text *)
  float_of_str : string -> option float;
  (** [s.strip()] *)
  str_strip : string -> string;
  (** [s.lower()] *)
  str_lower : string -> string;
  (** [repr(s)] *)
  str_repr : string -> string;
}.

(** ** Rows and transactions *)

(** A row of [csv.DictReader]: the cells by column name; a cell is [None]
    when the line is shorter than the header. *)
Definition row : Type := list (string * option string).

(** [row.get(k)]: the cell, or [None] when there is no such column. *)
Fixpoint row_get (r : row) (k : string) : option string :=
  match r with
  | [] => None
  | (k', v) :: r' => if String.eqb k k' then v else row_get r' k
  end.

(** [a or b] on cells: [a] unless it is [None] or empty. *)
Definition cell_or (a b : option string) : option string :=
  match a with
  | Some s => if String.eqb s "" then b else a
  | None => b
  end.

(** [a or default]. *)
Definition cell_or_text (a : option string) (default : string) : string :=
  match a with
  | Some s => if String.eqb s "" then default else s
  | None => default
  end.

(** A transaction is a [dict]; a field is [None] when the key is absent
    (for ["date"] and ["description"], also when its value is [None]). *)
Record txn : Type := mktxn {
  t_date : option date;
  t_description : option string;
  t_amount : option float;
  t_category : option string;
}.

(** ** parse_transactions *)

Section Parser.

Context {L : PyLib}.

Definition date_formats : list string := ["%Y-%m-%d"; "%d-%m-%Y"; "%m-%d-%Y"].

(** [raw_date.strip()]: an [AttributeError] when the cell is [None]. *)
Definition strip_cell (raw : option string) : outcome string :=
  match raw with
  | Some s => Return (str_strip s)
  | None => Raise (AttributeError "'NoneType' object has no attribute 'strip'")
  end.

Definition of_lib {A : Type} (what : string) (r : option A) : outcome A :=
  match r with
  | Some a => Return a
  | None => Raise (ValueError what)
  end.

(** The loop over the three formats: the first that parses wins, any
    exception moves on to the next. *)
Fixpoint try_formats (raw : option string) (fmts : list string) : option date :=
  match fmts with
  | [] => None
  | fmt :: rest =>
      match (s <- strip_cell raw ;; of_lib "strptime" (strptime s fmt)) with
      | Return d => Some d
      | Raise _ => try_formats raw rest
      end
  end.

(** [f"{raw_date}"]. *)
Definition str_of_cell (raw : option string) : string :=
  match raw with
  | Some s => s
  | None => "None"
  end.

Definition parse_date (raw : option string) : outcome date :=
  match try_formats raw date_formats with
  | Some d => Return d
  | None =>
      try_except
        (s <- strip_cell raw ;; of_lib "fromisoformat" (fromisoformat s))
        (Raise (ValueError ("Unrecognized date format: " ++ str_of_cell raw)))
  end.

(** The exception of [float(s)]: its message ends with [repr(s)]. *)
Definition float_error (s : string) : exn :=
  ValueError ("could not convert string to float: " ++ str_repr s).

Definition parse_amount (amt_raw : string) : outcome float :=
  match float_of_str amt_raw with
  | Some v => Return v
  | None =>
      let s := Text.replace_comma amt_raw in
      match float_of_str s with
      | Some v => Return v
      | None => Raise (float_error s)
      end
  end.

Definition raw_date_of (r : row) : option string :=
  cell_or (row_get r "date") (row_get r "Date").

Definition desc_of (r : row) : string :=
  str_strip (cell_or_text (cell_or (row_get r "description") (row_get r "Description")) "").

Definition amt_raw_of (r : row) : string :=
  cell_or_text (cell_or (row_get r "amount") (row_get r "Amount")) "0".

(** The body of the loop for one row that is not empty. *)
Definition parse_row (r : row) : outcome txn :=
  d <- parse_date (raw_date_of r) ;;
  a <- parse_amount (amt_raw_of r) ;;
  Return (mktxn (Some d) (Some (desc_of r)) (Some a) None).

(** The loop over the rows, [out] being the list built so far. *)
Fixpoint parse_rows (rows : list row) (out : list txn) : outcome (list txn) :=
  match rows with
  | [] => Return out
  | [] :: rest => parse_rows rest out
  | r :: rest =>
      match parse_row r with
      | Return t => parse_rows rest (out ++ [t])
      | Raise e => Raise e
      end
  end.

(** *** Files

    The world holds the files, each as the rows [csv.DictReader] reads
    from it, and the handles opened so far: handle [h] is entry [h] of
    [handles], [true] while it is open. *)
Record world : Type := mkworld {
  files : list (string * list row);
  handles : list bool;
}.

Fixpoint lookup_file (fs : list (string * list row)) (p : string) : option (list row) :=
  match fs with
  | [] => None
  | (p', rows) :: fs' => if String.eqb p p' then Some rows else lookup_file fs' p
  end.

(** [open(path)]: a new open handle and the rows behind it. *)
Definition open (p : string) (w : world) : outcome (nat * list row) * world :=
  match lookup_file (files w) p with
  | Some rows =>
      (Return (List.length (handles w), rows),
       mkworld (files w) (handles w ++ [true]))
  | None => (Raise (FileNotFoundError p), w)
  end.

Fixpoint set_closed (h : nat) (hs : list bool) : list bool :=
  match hs, h with
  | [], _ => []
  | _ :: hs', O => false :: hs'
  | b :: hs', S h' => b :: set_closed h' hs'
  end.

(** [f.close()]. *)
Definition close (h : nat) (w : world) : world :=
  mkworld (files w) (set_closed h (handles w)).

Definition is_open (h : nat) (w : world) : bool := nth h (handles w) false.

(** What [parse_transactions] is given: a path, or a stream the caller
    has opened (its rows). *)
Inductive csv_source : Type :=
| Path (p : string)
| Stream (rows : list row).

Definition parse_transactions (csv_source : csv_source) (w : world)
  : outcome (list txn) * world :=
  match csv_source with
  | Path p =>
      match open p w with
      | (Return (h, rows), w1) =>
          match parse_rows rows [] with
          | Return out => (Return out, close h w1)
          | Raise e => (Raise e, w1)
          end
      | (Raise e, w1) => (Raise e, w1)
      end
  | Stream rows => (parse_rows rows [], w)
  end.

End Parser.

(** ** Dictionaries

    A [dict] keyed by text: its items in insertion order.  Keys are
    unique in every dictionary the program builds ([dict_update] keeps
    them so). *)
Definition dict (V : Type) : Type := list (string * V).

Definition keys {V : Type} (d : dict V) : list string := map fst d.

Fixpoint dict_get {V : Type} (d : dict V) (k : string) : option V :=
  match d with
  | [] => None
  | (k', v) :: d' => if String.eqb k k' then Some v else dict_get d' k
  end.

(** [d[k] = f(d[k])] on a [defaultdict] whose missing entries are
    [default]: an entry that is new goes last. *)
Fixpoint dict_update {V : Type} (k : string) (f : V -> V) (default : V) (d : dict V)
  : dict V :=
  match d with
  | [] => [(k, f default)]
  | (k', v) :: d' =>
      if String.eqb k k' then (k', f v) :: d' else (k', v) :: dict_update k f default d'
  end.

(** ** categorize_transactions *)

Definition default_rules : dict string :=
  [ ("starbucks", "Coffee");
    ("coffee", "Coffee");
    ("uber", "Transport");
    ("lyft", "Transport");
    ("walmart", "Groceries");
    ("supermarket", "Groceries");
    ("salary", "Income");
    ("payroll", "Income");
    ("rent", "Housing");
    ("mortgage", "Housing");
    ("subscriptions", "Subscriptions");
    ("netflix", "Subscriptions");
    ("amazon", "Shopping");
    ("grocery", "Groceries") ].

(** The loop over [rules.items()]: the category of the first keyword
    found in [desc], if any. *)
Fixpoint first_match (rules : dict string) (desc : string) : option string :=
  match rules with
  | [] => None
  | (kw, c) :: rules' =>
      if Text.contains kw desc then Some c else first_match rules' desc
  end.

Section Categorizer.

Context {L : PyLib}.

(** [(t.get("description") or "").lower()]. *)
Definition lowered_description (t : txn) : string :=
  str_lower (cell_or_text (t_description t) "").

Definition category_for (rules : dict string) (t : txn) : string :=
  match first_match rules (lowered_description t) with
  | Some c => c
  | None => "Uncategorized"
  end.

(** [rules] is [None] when the caller leaves it out. *)
Definition categorize_transactions (transactions : list txn) (rules : option (dict string))
  : list txn :=
  let rules := match rules with Some r => r | None => default_rules end in
  map (fun t =>
         mktxn (t_date t) (t_description t) (t_amount t) (Some (category_for rules t)))
      transactions.

End Categorizer.

(** ** monthly_summary *)

Record summary : Type := mksummary {
  total : float;
  count : nat;
  by_category : dict float;
}.

(** The value the [defaultdict] makes for a month it has not seen. *)
Definition new_summary : summary := mksummary PrimFloat.zero 0 [].

(** [f"{date.year:04d}-{date.month:02d}"], or ["unknown"]. *)
Definition month_key (t : txn) : string :=
  match t_date t with
  | None => "unknown"
  | Some d => Text.pad 4 (year d) ++ "-" ++ Text.pad 2 (month d)
  end.

(** [float(t.get("amount", 0.0))]. *)
Definition amount_of (t : txn) : float :=
  match t_amount t with
  | Some a => a
  | None => PrimFloat.zero
  end.

(** [t.get("category", "Uncategorized")]. *)
Definition category_of (t : txn) : string :=
  match t_category t with
  | Some c => c
  | None => "Uncategorized"
  end.

(** The body of the loop: the three updates of [summary[key]]. *)
Definition add_txn (s : dict summary) (t : txn) : dict summary :=
  let amt := amount_of t in
  dict_update (month_key t)
    (fun v =>
       mksummary (PrimFloat.add (total v) amt)
                 (S (count v))
                 (dict_update (category_of t) (fun x => PrimFloat.add x amt)
                              PrimFloat.zero (by_category v)))
    new_summary s.

(** The last loop copies every entry, in order, into a plain [dict]. *)
Definition monthly_summary (transactions : list txn) : dict summary :=
  map (fun kv => (fst kv, mksummary (total (snd kv)) (count (snd kv)) (by_category (snd kv))))
      (fold_left add_txn transactions []).

(** ** Floats as text: [f"{x:.2f}"] *)

Module PyFloat.

(** [num / den] rounded to the nearest integer, ties to even. *)
Definition round_half_even (num den : Z) : Z :=
  let q := (num / den)%Z in
  match (2 * (num mod den) ?= den)%Z with
  | Lt => q
  | Gt => (q + 1)%Z
  | Eq => if Z.even q then q else (q + 1)%Z
  end.

(** [m * 2^e * 100], rounded to an integer: the hundredths of the float. *)
Definition hundredths (m : positive) (e : Z) : Z :=
  if (0 <=? e)%Z then (Zpos m * 2 ^ e * 100)%Z
  else round_half_even (Zpos m * 100) (2 ^ (- e)).

Definition fixed2 (n : Z) : string :=
  Text.of_Z (n / 100) ++ "." ++ Text.pad 2 (n mod 100).

Definition sign_text (s : bool) : string := if s then "-" else "".

(** The exact value of the float, correctly rounded to two decimals. *)
Definition format_2f (x : float) : string :=
  match Prim2SF x with
  | S754_nan => "nan"
  | S754_infinity s => sign_text s ++ "inf"
  | S754_zero s => sign_text s ++ "0.00"
  | S754_finite s m e => sign_text s ++ fixed2 (hundredths m e)
  end.

(** The literals of the program. *)
Definition minus_500 : float := (-500)%float.
Definition one_fifth : float := 0x1.999999999999ap-3%float.

(** [max(0.0, x)]: the first argument unless the second is greater. *)
Definition max_zero (x : float) : float :=
  if PrimFloat.ltb PrimFloat.zero x then x else PrimFloat.zero.

End PyFloat.

(** ** Sorting

    [sorted] only asks whether one element is less than another.  It is
    written as CPython's [list.sort] works on a list of fewer than 64
    elements: [count_run] finds the run the list starts with, ascending
    or strictly descending (and then reversed), and [binarysort] inserts
    the elements that follow one by one, each at the place a binary
    search finds for it.  A list of 64 elements or more is cut into such
    runs, which are merged; that gives the same list whenever [<] is a
    strict weak order on the elements (text; pairs of a float that is
    not NaN and a text), every stable sort giving the same list then.
    [sorted(..., reverse=True)] reverses the list, sorts it, and
    reverses the result. *)

Section Sorting.

Context {A : Type}.
Variable lt : A -> A -> bool.

(** The elements that go on an ascending run whose last element is
    [prev], and those that follow: the run ends before the first
    element that is less than the one before it. *)
Fixpoint ascending_run (prev : A) (l : list A) : list A * list A :=
  match l with
  | [] => ([], [])
  | x :: l' =>
      if lt x prev then ([], l)
      else let '(run, rest) := ascending_run x l' in (x :: run, rest)
  end.

(** The same for a strictly descending run: it ends before the first
    element that is not less than the one before it. *)
Fixpoint descending_run (prev : A) (l : list A) : list A * list A :=
  match l with
  | [] => ([], [])
  | x :: l' =>
      if lt x prev
      then let '(run, rest) := descending_run x l' in (x :: run, rest)
      else ([], l)
  end.

(** [count_run], with the reversal of a run that descends: the run the
    list starts with, in ascending order, and the elements after it. *)
Definition count_run (l : list A) : list A * list A :=
  match l with
  | x :: y :: l' =>
      if lt y x
      then let '(run, rest) := descending_run y l' in (rev (x :: y :: run), rest)
      else let '(run, rest) := ascending_run y l' in (x :: y :: run, rest)
  | _ => (l, [])
  end.

(** The binary search of [binarysort] for the place of [pivot] in
    [a[l:r]]: [p] is the middle, [l + ((r - l) >> 1)], and the search
    goes on in [a[l:p]] when [pivot < a[p]], in [a[p+1:r]] otherwise.
    [fuel] bounds the number of steps; [r - l] is enough. *)
Fixpoint bisect (fuel : nat) (pivot : A) (a : list A) (l r : nat) : nat :=
  match fuel with
  | O => l
  | S fuel' =>
      if (l <? r)%nat then
        let p := (l + (r - l) / 2)%nat in
        match nth_error a p with
        | Some y => if lt pivot y then bisect fuel' pivot a l p
                    else bisect fuel' pivot a (S p) r
        | None => l
        end
      else l
  end.

(** [x] goes where the binary search says. *)
Definition insert_sorted (x : A) (a : list A) : list A :=
  let l := bisect (List.length a) x a 0 (List.length a) in
  firstn l a ++ x :: skipn l a.

(** [binarysort]: the elements after the run are inserted into it, in
    their order. *)
Definition binarysort (run rest : list A) : list A :=
  fold_left (fun acc x => insert_sorted x acc) rest run.

Definition sorted (l : list A) : list A :=
  let '(run, rest) := count_run l in binarysort run rest.

Definition sorted_reverse (l : list A) : list A := rev (sorted (rev l)).

End Sorting.

(** [l[-1]]. *)
Fixpoint last_item {A : Type} (l : list A) : option A :=
  match l with
  | [] => None
  | [x] => Some x
  | _ :: l' => last_item l'
  end.

(** ** recommend_budget *)

Definition is_known (k : string) : bool := negb (String.eqb k "unknown").

(** The month the advice is about. *)
Definition latest_key (monthly : dict summary) : option string :=
  if existsb is_known (keys monthly)
  then last_item (sorted String.ltb (filter is_known (keys monthly)))
  else last_item (keys monthly).

(** [<] on the pairs [(abs(v), k)]: the first components decide unless
    they are equal. *)
Definition pair_lt (x y : float * string) : bool :=
  if PrimFloat.eqb (fst x) (fst y) then String.ltb (snd x) (snd y)
  else PrimFloat.ltb (fst x) (fst y).

Definition abs_items (by_cat : dict float) : list (float * string) :=
  map (fun kv => (PrimFloat.abs (snd kv), fst kv)) by_cat.

Definition top_spend (by_cat : dict float) : list (float * string) :=
  firstn 3 (sorted_reverse pair_lt (abs_items by_cat)).

Definition reduce_suggestion (x : float * string) : string :=
  "Consider reducing spending on " ++ snd x ++ " by about $"
    ++ PyFloat.format_2f (PrimFloat.mul (fst x) PyFloat.one_fifth) ++ " per month.".

Definition reasonable : string := "Spending looks reasonable this month.".

Definition spending_suggestions (data : summary) : list string :=
  if PrimFloat.ltb (total data) PyFloat.minus_500
  then map reduce_suggestion (top_spend (by_category data))
  else [reasonable].

Definition savings_suggestions (data : summary) (target_savings : float) : list string :=
  if PrimFloat.ltb PrimFloat.zero target_savings then
    let current_savings :=
      if PrimFloat.ltb PrimFloat.zero (total data) then total data else PrimFloat.zero in
    let need := PyFloat.max_zero (PrimFloat.sub target_savings current_savings) in
    if PrimFloat.ltb PrimFloat.zero need then
      [ ("To reach a target savings of $" ++ PyFloat.format_2f target_savings
           ++ ", increase monthly savings by $" ++ PyFloat.format_2f need ++ ".")%string ]
    else [ "You are meeting or exceeding your savings target." ]
  else [].

Definition recommend_budget (monthly : dict summary) (target_savings : float)
  : outcome (list string) :=
  match monthly with
  | [] => Return ["No data to produce recommendation."]
  | _ =>
      latest <- match latest_key monthly with
                | Some k => Return k
                | None => Raise (IndexError "list index out of range")
                end ;;
      data <- match dict_get monthly latest with
              | Some v => Return v
              | None => Raise (KeyError latest)
              end ;;
      Return (spending_suggestions data ++ savings_suggestions data target_savings)
  end.

(** ** A reference library for ASCII text

    What CPython's functions do on ASCII text, for running the program on
    concrete inputs: [strptime] for formats made of [%Y], [%m], [%d] and
    literal characters, [fromisoformat] for the calendar form
    [YYYY-MM-DD] without a time part, and [float] for decimal text
    (digits that may be grouped by single underscores, a fraction, an
    exponent, [inf], [infinity] and [nan]), and [repr] for text all of
    whose characters are ASCII. *)

Module Ref.

Import Text.

Inductive directive : Type :=
| DYear
| DMonth
| DDay
| DLit (c : ascii).

Fixpoint directives (fmt : string) : option (list directive) :=
  match fmt with
  | EmptyString => Some []
  | String "%"%char (String c rest) =>
      match (if Ascii.eqb c "Y"%char then Some DYear
             else if Ascii.eqb c "m"%char then Some DMonth
             else if Ascii.eqb c "d"%char then Some DDay
             else None), directives rest with
      | Some d, Some ds => Some (d :: ds)
      | _, _ => None
      end
  | String c rest =>
      match directives rest with
      | Some ds => Some (DLit c :: ds)
      | None => None
      end
  end.

Definition in_range (lo hi : nat) (c : ascii) : bool :=
  let n := nat_of_ascii c in (lo <=? n)%nat && (n <=? hi)%nat.

(** One alternative of a field's pattern: two characters, or one. *)
Definition two (p1 p2 : ascii -> bool) (s : string) : list (Z * string) :=
  match s with
  | String c1 (String c2 rest) =>
      if p1 c1 && p2 c2
      then [((if is_digit c1 then 10 * digit_val c1 else 0) + digit_val c2, rest)%Z]
      else []
  | _ => []
  end.

Definition one (p : ascii -> bool) (s : string) : list (Z * string) :=
  match s with
  | String c rest => if p c then [(digit_val c, rest)] else []
  | _ => []
  end.

Definition four_digits (s : string) : list (Z * string) :=
  match s with
  | String c1 (String c2 (String c3 (String c4 rest))) =>
      if is_digit c1 && is_digit c2 && is_digit c3 && is_digit c4
      then [(1000 * digit_val c1 + 100 * digit_val c2 + 10 * digit_val c3 + digit_val c4,
             rest)%Z]
      else []
  | _ => []
  end.

(** The ways a field can be read at the head of [s], in the order the
    pattern of the field lists them. *)
Definition alternatives (d : directive) (s : string) : list (Z * string) :=
  match d with
  | DYear => four_digits s
  | DMonth =>
      two (in_range 49 49) (in_range 48 50) s
      ++ two (in_range 48 48) (in_range 49 57) s
      ++ one (in_range 49 57) s
  | DDay =>
      two (in_range 51 51) (in_range 48 49) s
      ++ two (in_range 49 50) is_digit s
      ++ two (in_range 48 48) (in_range 49 57) s
      ++ one (in_range 49 57) s
      ++ two (in_range 32 32) (in_range 49 57) s
  | DLit _ => []
  end.

Definition set_field (d : directive) (v : Z) (acc : date) : date :=
  match d with
  | DYear => mkdate v (month acc) (day acc)
  | DMonth => mkdate (year acc) v (day acc)
  | DDay => mkdate (year acc) (month acc) v
  | DLit _ => acc
  end.

(** The first way, backtracking over the alternatives, to read all the
    fields at the head of [s]; what is left of [s] comes with it. *)
Fixpoint match_fields (ds : list directive) (s : string) (acc : date)
  : option (date * string) :=
  match ds with
  | [] => Some (acc, s)
  | DLit c :: ds' =>
      match s with
      | String c' s' => if Ascii.eqb c c' then match_fields ds' s' acc else None
      | EmptyString => None
      end
  | d :: ds' =>
      fold_right
        (fun alt later =>
           match match_fields ds' (snd alt) (set_field d (fst alt) acc) with
           | Some r => Some r
           | None => later
           end)
        None (alternatives d s)
  end.

Definition is_leap (y : Z) : bool :=
  ((y mod 4 =? 0) && (negb (y mod 100 =? 0) || (y mod 400 =? 0)))%Z.

Definition days_in_month (y m : Z) : Z :=
  if (m =? 2)%Z then (if is_leap y then 29 else 28)%Z
  else if ((m =? 4) || (m =? 6) || (m =? 9) || (m =? 11))%Z then 30%Z
  else 31%Z.

(** [date(y, m, d)] raises unless the date exists. *)
Definition valid_date (d : date) : bool :=
  ((1 <=? year d) && (year d <=? 9999) && (1 <=? month d) && (month d <=? 12)
   && (1 <=? day d) && (day d <=? days_in_month (year d) (month d)))%Z.

Definition checked (d : date) : option date :=
  if valid_date d then Some d else None.

Definition strptime (s fmt : string) : option date :=
  match directives fmt with
  | Some ds =>
      match match_fields ds s (mkdate 1900 1 1) with
      | Some (d, EmptyString) => checked d
      | _ => None
      end
  | None => None
  end.

Definition fromisoformat (s : string) : option date :=
  match s with
  | String y1 (String y2 (String y3 (String y4 (String "-"%char
      (String m1 (String m2 (String "-"%char (String d1 (String d2 EmptyString))))))))) =>
      if forallb is_digit [y1; y2; y3; y4; m1; m2; d1; d2] then
        checked (mkdate (1000 * digit_val y1 + 100 * digit_val y2
                         + 10 * digit_val y3 + digit_val y4)
                        (10 * digit_val m1 + digit_val m2)
                        (10 * digit_val d1 + digit_val d2))
      else None
  | _ => None
  end.

(** *** [float] *)

(** A run of digits, each two of which a single underscore may
    separate: its value after [acc], how many digits were read, and the
    rest of the text. *)
Fixpoint take_digits (s : string) (acc : Z) (n : nat) : Z * nat * string :=
  match s with
  | EmptyString => (acc, n, s)
  | String c s' =>
      if is_digit c then take_digits s' (10 * acc + digit_val c)%Z (S n)
      else if Ascii.eqb c "_"%char && negb (n =? 0)%nat then
        match s' with
        | String c' _ => if is_digit c' then take_digits s' acc n else (acc, n, s)
        | EmptyString => (acc, n, s)
        end
      else (acc, n, s)
  end.

Definition take_sign (s : string) : bool * string :=
  match s with
  | String "-"%char s' => (true, s')
  | String "+"%char s' => (false, s')
  | _ => (false, s)
  end.

(** The exponent part, when there is one with a digit in it. *)
Definition take_exponent (s : string) : Z * string :=
  match s with
  | String c s' =>
      if Ascii.eqb c "e"%char || Ascii.eqb c "E"%char then
        let '(neg, s1) := take_sign s' in
        let '(x, n, s2) := take_digits s1 0 0 in
        if (n =? 0)%nat then (0%Z, s) else ((if neg then - x else x)%Z, s2)
      else (0%Z, s)
  | EmptyString => (0%Z, s)
  end.

(** The float nearest to [(-1)^neg * n * 10^e], ties to even. *)
Definition nearest_float (neg : bool) (n : Z) (e : Z) : float :=
  match n with
  | Zpos p =>
      if (0 <=? e)%Z
      then SF2Prim (binary_normalize prec emax
                      (if neg then Zneg p * 10 ^ e else Zpos p * 10 ^ e)%Z 0 false)
      else SF2Prim (SFdiv prec emax (S754_finite neg p 0)
                          (S754_finite false (Z.to_pos (10 ^ (- e))) 0))
  | _ => if neg then neg_zero else PrimFloat.zero
  end.

Definition float_of_str (text : string) : option float :=
  let '(neg, s) := take_sign (strip text) in
  let word := lower s in
  if String.eqb word "inf" || String.eqb word "infinity"
  then Some (if neg then neg_infinity else infinity)
  else if String.eqb word "nan" then Some nan
  else
    let '(i, ni, s1) := take_digits s 0 0 in
    let '(f, nf, s2) :=
      match s1 with
      | String "."%char s1' =>
          let '(f, n, s2) := take_digits s1' i 0 in (f, n, s2)
      | _ => (i, O, s1)
      end in
    if (ni + nf =? 0)%nat then None
    else
      let '(x, s3) := take_exponent s2 in
      match s3 with
      | EmptyString => Some (nearest_float neg f (x - Z.of_nat nf))
      | _ => None
      end.

(** *** [repr] *)

Definition quote : ascii := "039"%char.
Definition double_quote : ascii := "034"%char.
Definition backslash : ascii := "092"%char.

Fixpoint has_char (c : ascii) (s : string) : bool :=
  match s with
  | EmptyString => false
  | String c' s' => Ascii.eqb c c' || has_char c s'
  end.

Definition hex_digit (n : nat) : ascii :=
  if (n <? 10)%nat then ascii_of_nat (48 + n) else ascii_of_nat (87 + n).

(** How [repr] writes the character [c] between the quotes [q]: the
    quote and the backslash after a backslash, tab, newline and return
    as [\t], [\n] and [\r], any other control character as [\x] and
    two hexadecimal digits, and any other character as it is. *)
Definition escaped (q c : ascii) : string :=
  let n := nat_of_ascii c in
  if Ascii.eqb c q || Ascii.eqb c backslash then String backslash (String c EmptyString)
  else if (n =? 9)%nat then String backslash "t"
  else if (n =? 10)%nat then String backslash "n"
  else if (n =? 13)%nat then String backslash "r"
  else if (n <? 32)%nat || (n =? 127)%nat
  then String backslash
         (String "x"%char
            (String (hex_digit (n / 16)) (String (hex_digit (n mod 16)) EmptyString)))
  else String c EmptyString.

Fixpoint escape (q : ascii) (s : string) : string :=
  match s with
  | EmptyString => EmptyString
  | String c s' => escaped q c ++ escape q s'
  end.

(** The text between single quotes, or between double quotes when it
    has a single quote and no double quote. *)
Definition repr (s : string) : string :=
  let q := if has_char quote s && negb (has_char double_quote s)
           then double_quote else quote in
  String q (escape q s ++ String q EmptyString).

#[export] Instance lib : PyLib := {
  strptime := strptime;
  fromisoformat := fromisoformat;
  float_of_str := float_of_str;
  str_strip := strip;
  str_lower := lower;
  str_repr := repr;
}.

End Ref.

(** ** main

    What [main] prints is the list of the texts its [print] calls write,
    in order, each without the newline that ends it.  [sys.argv] is the
    list [argv], the name of the script first. *)

Definition usage : list string :=
  [ "Usage: python project.py transactions.csv";
    "Example CSV headers: date,description,amount" ].

(** The text of the one [print] that writes an empty line and the
    heading of the summary. *)
Definition summary_heading : string :=
  String "010"%char "Monthly summary (month: total, count):".

(** [f"{month}: {data['total']:.2f}, {data['count']} transactions"]. *)
Definition summary_line (item : string * summary) : string :=
  fst item ++ ": " ++ PyFloat.format_2f (total (snd item)) ++ ", "
    ++ Text.of_Z (Z.of_nat (count (snd item))) ++ " transactions".

(** [<] on the items of a [dict]: the keys decide, no two being equal. *)
Definition item_lt {V : Type} (x y : string * V) : bool := String.ltb (fst x) (fst y).

Section Main.

Context {L : PyLib}.

(** [str(e)]. *)
Definition str_of_exn (e : exn) : string :=
  match e with
  | ValueError msg => msg
  | AttributeError msg => msg
  | FileNotFoundError path => "[Errno 2] No such file or directory: " ++ str_repr path
  | KeyError key => str_repr key
  | IndexError msg => msg
  end.

(** [print("Error:", e)]. *)
Definition error_line (e : exn) : string := "Error: " ++ str_of_exn e.

(** The lines of a run that raised nothing: the suggestions, the
    heading, and the months in the order of their keys. *)
Definition report (suggestions : list string) (summary : dict summary) : list string :=
  suggestions ++ [summary_heading] ++ map summary_line (sorted item_lt summary).

(** The end of [except Exception as e]: [e] is deleted, and nothing
    else holds the exception.  With it go its traceback, the frame of
    [parse_transactions] the traceback holds, and the file object of
    that frame, which CPython closes when it frees it: the handle opened
    since the world [w], if there is one, is closed. *)
Definition release (w w1 : world) : world := close (List.length (handles w)) w1.

(** [main()]: the path on the command line is read into [path] and not
    used; the file parsed is ["sample.csv"], and the target of savings
    is [2000]. *)
Definition main (argv : list string) (w : world) : list string * world :=
  if (List.length argv <? 2)%nat then (usage, w)
  else
    match parse_transactions (Path "sample.csv") w with
    | (Return tx, w1) =>
        let cat := categorize_transactions tx None in
        let summary := monthly_summary cat in
        match recommend_budget summary 2000%float with
        | Return suggestions => (report suggestions summary, w1)
        | Raise e => ([error_line e], release w w1)
        end
    | (Raise e, w1) => ([error_line e], release w w1)
    end.

End Main.

(* ================================================================== *)
(** * Part 2: the vocabulary of the claims *)
(* ================================================================== *)

(** ** Rows read, dates the library does not read *)

(** The rows a call reads. *)
Definition source_rows (src : csv_source) (w : world) : option (list row) :=
  match src with
  | Path p => lookup_file (files w) p
  | Stream rows => Some rows
  end.

(** No format and no ISO reading gives a date for the cell. *)
Definition unreadable {L : PyLib} (raw : option string) : Prop :=
  match raw with
  | None => True
  | Some s =>
      (forall fmt, In fmt date_formats -> strptime (str_strip s) fmt = None)
      /\ fromisoformat (str_strip s) = None
  end.

(** The text starts with a digit. *)
Definition head_is_digit (s : string) : bool :=
  match s with
  | String c _ => Text.is_digit c
  | EmptyString => false
  end.

(** ** Keywords in a description *)

(** [kw] occurs in [s]: some text, then [kw], then some text. *)
Definition occurs_in (kw s : string) : Prop :=
  exists a b : string, s = (a ++ kw ++ b)%string.

(** What the loop over the rules assigns: the category of a rule whose
    keyword occurs in [desc] while no keyword before it does, or
    ["Uncategorized"] when no keyword occurs. *)
Definition first_rule_category (rules : dict string) (desc c : string) : Prop :=
  (exists pre kw post,
      rules = pre ++ (kw, c) :: post
      /\ occurs_in kw desc
      /\ forall kw' c', In (kw', c') pre -> ~ occurs_in kw' desc)
  \/ (c = "Uncategorized"
      /\ forall kw' c', In (kw', c') rules -> ~ occurs_in kw' desc).

(** The rules in force: the default ones when the caller gives none. *)
Definition rules_in_force (rules : option (dict string)) : dict string :=
  match rules with
  | Some r => r
  | None => default_rules
  end.

(** ** Dictionaries built by a loop of updates *)

(** One turn of the loop: [d[key t] = step t (d[key t])]. *)
Definition dict_add {T V : Type} (key : T -> string) (step : T -> V -> V) (default : V)
  (d : dict V) (t : T) : dict V :=
  dict_update (key t) (step t) default d.

(** The entry read, or the value of a missing entry. *)
Definition or_default {V : Type} (default : V) (o : option V) : V :=
  match o with
  | Some v => v
  | None => default
  end.

(** The turns of the loop that update the entry of [k]. *)
Definition with_key {T : Type} (key : T -> string) (k : string) (ts : list T) : list T :=
  filter (fun t => String.eqb (key t) k) ts.

(** ** Sums and groups of transactions *)

(** The float sum of a list, left to right from [0.0], as [sum] and the
    loop's [+=] compute it. *)
Definition fsum (l : list float) : float := fold_left PrimFloat.add l PrimFloat.zero.

(** The transactions of a month, in the order of the input. *)
Definition in_month (k : string) (ts : list txn) : list txn := with_key month_key k ts.

(** Those of a category among them. *)
Definition in_category (c : string) (ts : list txn) : list txn := with_key category_of c ts.

(** The update of a month's summary by one transaction. *)
Definition summary_step (t : txn) (v : summary) : summary :=
  mksummary (PrimFloat.add (total v) (amount_of t))
            (S (count v))
            (dict_add category_of (fun t x => PrimFloat.add x (amount_of t))
                      PrimFloat.zero (by_category v) t).

(** ** Orders *)

(** The float is a number. *)
Definition not_nan (x : float) : Prop := PrimFloat.is_nan x = false.

(** Case analysis on every comparison of exponents and mantissas. *)
Ltac compare_cases :=
  repeat match goal with
  | |- context [Z.compare ?a ?b] => destruct (Z.compare_spec a b)
  | |- context [Pos.compare_cont Eq ?a ?b] =>
      change (Pos.compare_cont Eq a b) with (Pos.compare a b);
      destruct (Pos.compare_spec a b)
  | H : context [Z.compare ?a ?b] |- _ => destruct (Z.compare_spec a b)
  | H : context [Pos.compare_cont Eq ?a ?b] |- _ =>
      change (Pos.compare_cont Eq a b) with (Pos.compare a b) in H;
      destruct (Pos.compare_spec a b)
  end.

(** Case analysis on the spec floats named, then on the comparisons. *)
Ltac by_cases :=
  unfold SFltb, SFeqb, SFleb, SFcompare;
  repeat match goal with
  | x : spec_float |- _ => destruct x as [[|]|[|]| |[|] ? ?]
  end;
  simpl; intros;
  try discriminate; try reflexivity; try contradiction;
  compare_cases; subst; simpl in *;
  try discriminate; try reflexivity; try contradiction; try lia.

(** No later element is less than an earlier one. *)
Definition ascending {A : Type} (lt : A -> A -> bool) : list A -> Prop :=
  StronglySorted (fun x y => lt y x = false).

(** No earlier element is less than a later one. *)
Definition descending {A : Type} (lt : A -> A -> bool) : list A -> Prop :=
  StronglySorted (fun x y => lt x y = false).

(** Text is ordered everywhere. *)
Definition all_text (_ : string) : Prop := True.

(** No subtotal of the month is NaN. *)
Definition no_nan (by_cat : dict float) : bool :=
  forallb (fun kv => negb (PrimFloat.is_nan (snd kv))) by_cat.

(** [x] is at least as large as [y]. *)
Definition at_least (x y : float * string) : Prop :=
  PrimFloat.leb (fst y) (fst x) = true.

(** The whole ranking [sorted(..., reverse=True)] makes of the items. *)
Definition ranking (by_cat : dict float) : list (float * string) :=
  sorted_reverse pair_lt (abs_items by_cat).

(** ** Comma grouping *)

(** Modelled from the spec: the serialization of an amount "to text with
    comma grouping" (the repository has no serializer).  The digits
    before the fraction are grouped by three from the right, as
    [format(x, ",")] does; the sign and what follows the digits stay. *)
Fixpoint group_digits (s : string) : string :=
  match s with
  | EmptyString => EmptyString
  | String c s' =>
      let n := String.length s' in
      if (n mod 3 =? 0)%nat && negb (n =? 0)%nat
      then String c (String Text.comma (group_digits s'))
      else String c (group_digits s')
  end.

(** The leading digits of [s] and the rest. *)
Fixpoint split_digits (s : string) : string * string :=
  match s with
  | EmptyString => (EmptyString, EmptyString)
  | String c s' =>
      if Text.is_digit c
      then let '(ds, rest) := split_digits s' in (String c ds, rest)
      else (EmptyString, s)
  end.

(** Modelled from the spec: the comma-grouped text of a plain decimal
    text, as [format(x, ",")] writes [repr(x)]. *)
Definition group_thousands (plain : string) : string :=
  let '(sign, body) :=
    match plain with
    | String "-"%char s' => ("-", s')
    | _ => ("", plain)
    end in
  let '(ds, rest) := split_digits body in
  (sign ++ group_digits ds ++ rest)%string.

(** ** Inputs of the examples *)

(** A file whose only row has a date no format reads. *)
Definition bad_date_rows : list row :=
  [ [ ("date", Some "not-a-date"); ("description", Some "Lunch"); ("amount", Some "12.50") ] ].

(** The world in which that file is [bad.csv] and no handle is open. *)
Definition bad_date_world : world := mkworld [("bad.csv", bad_date_rows)] [].

(** A row that is read, and one whose date is written with slashes. *)
Definition good_row : row :=
  [ ("date", Some "2025-01-05"); ("description", Some "Coffee Shop"); ("amount", Some "-3.50") ].

Definition bad_row : row :=
  [ ("date", Some "05/01/2025"); ("description", Some "Salary"); ("amount", Some "2000") ].

(** A row that has no date column. *)
Definition undated_row : row :=
  [ ("description", Some "Lunch"); ("amount", Some "12.50") ].

(** Rows whose date cell is the empty text, under either spelling of
    the column. *)
Definition empty_date_row : row :=
  [ ("date", Some ""); ("description", Some "Lunch"); ("amount", Some "12.50") ].

Definition empty_capital_date_row : row :=
  [ ("Date", Some ""); ("Description", Some "Lunch"); ("Amount", Some "12.50") ].

(** The transactions of the repository's categorization test. *)
Definition test_transactions : list txn :=
  [ mktxn None (Some "Starbucks downtown") (Some (-4.25)%float) None;
    mktxn None (Some "Unknown Merchant") (Some (-12)%float) None ].

(** The transactions of the repository's aggregation test. *)
Definition test_summary_input : list txn :=
  [ mktxn (Some (mkdate 2025 1 1)) (Some "A") (Some (-10)%float) (Some "X");
    mktxn (Some (mkdate 2025 1 5)) (Some "B") (Some (-5)%float) (Some "Y");
    mktxn (Some (mkdate 2025 2 1)) (Some "C") (Some 100%float) (Some "Income") ].

(** Three purchases of January: two of coffee, one of groceries. *)
Definition rounding_rows : list row :=
  [ [ ("date", Some "2025-01-05"); ("description", Some "Coffee Shop"); ("amount", Some "-3.50") ];
    [ ("date", Some "2025-01-06"); ("description", Some "Walmart"); ("amount", Some "-19.99") ];
    [ ("date", Some "2025-01-07"); ("description", Some "Starbucks"); ("amount", Some "-1.10") ] ].

(** What the parser and the categorizer make of them. *)
Definition rounding_transactions : list txn :=
  match parse_rows (L := Ref.lib) rounding_rows [] with
  | Return out => categorize_transactions (L := Ref.lib) out None
  | Raise _ => []
  end.

(** Summaries whose latest month is not the last entry. *)
Definition three_months : dict summary :=
  [ ("2025-01", mksummary (-500)%float 2 [("Fun", (-500)%float)]);
    ("unknown", mksummary (-900)%float 1 [("Fun", (-900)%float)]);
    ("2024-12", mksummary (-900)%float 1 [("Rent", (-900)%float)]) ].

(** The summaries of the specification's Scenario 5. *)
Definition overspent_month : dict summary :=
  [ ("2025-03",
     mksummary (-600)%float 2 [("Dining", (-400)%float); ("Fun", (-200)%float)]) ].

(** A month in which three categories have the same absolute subtotal. *)
Definition tied_subtotals : dict float :=
  [ ("Fun", (-200)%float); ("Dining", (-400)%float);
    ("Books", (-200)%float); ("Travel", (-200)%float) ].

Definition tied_month : dict summary :=
  [ ("2025-04", mksummary (-1000)%float 4 tied_subtotals) ].

(** Overspent months with a subtotal that is NaN, given by hand. *)
Definition nan_subtotals : dict float :=
  [ ("C", (-10)%float); ("B", (-20)%float); ("A", nan); ("D", (-30)%float) ].

Definition nan_month : dict summary :=
  [ ("2025-05", mksummary (-600)%float 4 nan_subtotals) ].

Definition nan_tied_subtotals : dict float :=
  [ ("X", (-10)%float); ("A", nan); ("Y", (-10)%float) ].

Definition nan_tied_month : dict summary :=
  [ ("2025-05", mksummary (-600)%float 3 nan_tied_subtotals) ].

(** ** The vocabulary of the further properties *)

(** A cell that is missing or empty. *)
Definition blank (cell : option string) : Prop := cell = None \/ cell = Some "".

(** An ASCII capital letter, and text that has one. *)
Definition is_upper (c : ascii) : bool :=
  let n := nat_of_ascii c in (65 <=? n)%nat && (n <=? 90)%nat.

Fixpoint has_upper (s : string) : bool :=
  match s with
  | EmptyString => false
  | String c s' => is_upper c || has_upper s'
  end.

(** The elements of a list, each at its first occurrence. *)
Fixpoint first_occurrences (l : list string) : list string :=
  match l with
  | [] => []
  | k :: l' => k :: filter (fun k' => negb (String.eqb k k')) (first_occurrences l')
  end.

(** The transactions all the entries of a summary count. *)
Definition counted (d : dict summary) : nat := list_sum (map (fun kv => count (snd kv)) d).

(** The key of the month [m] of the year [y]. *)
Definition key_of (y m : Z) : string := (Text.pad 4 y ++ "-" ++ Text.pad 2 m)%string.

(** A date as [datetime.date] has it: a year of four digits at most and
    a month of the calendar. *)
Definition calendar_date (d : date) : Prop :=
  (1 <= year d <= 9999)%Z /\ (1 <= month d <= 12)%Z.

(** [pad 4 y] is four digits that read [y]; [pad 2 m] two that read [m]. *)
Definition reads4 (y : Z) : bool :=
  match Text.pad 4 y with
  | String c1 (String c2 (String c3 (String c4 EmptyString))) =>
      (1000 * Text.digit_val c1 + 100 * Text.digit_val c2
       + 10 * Text.digit_val c3 + Text.digit_val c4 =? y)%Z
  | _ => false
  end.

Definition reads2 (m : Z) : bool :=
  match Text.pad 2 m with
  | String c1 (String c2 EmptyString) =>
      (10 * Text.digit_val c1 + Text.digit_val c2 =? m)%Z
  | _ => false
  end.

(** The integers from [0] up to [n], [n] left out. *)
Definition below (n : nat) : list Z := map Z.of_nat (seq 0 n).

(** The subtotals with their signs changed. *)
Definition negated (by_cat : dict float) : dict float :=
  map (fun kv => (fst kv, PrimFloat.opp (snd kv))) by_cat.

(** The keys of the items grow strictly. *)
Definition strictly_ascending {V : Type} (items : list (string * V)) : Prop :=
  StronglySorted (fun x y => String.ltb (fst x) (fst y) = true) items.

(** The world in which [sample.csv] holds [rows] and no handle is open. *)
Definition sample_world (rows : list row) : world := mkworld [("sample.csv", rows)] [].

(** Two rows of January 2025 and, after them, one of December 2024. *)
Definition sample_rows : list row :=
  [ [ ("date", Some "2025-01-05"); ("description", Some "Coffee Shop"); ("amount", Some "-3.50") ];
    [ ("date", Some "2025-01-06"); ("description", Some "Salary"); ("amount", Some "2000") ];
    [ ("date", Some "2024-12-30"); ("description", Some "Uber"); ("amount", Some "-12.00") ] ].

(** A row whose amount is no number. *)
Definition bad_amount_row : row :=
  [ ("date", Some "2025-01-07"); ("description", Some "Lunch"); ("amount", Some "12,5o") ].

(** A row whose amount is no number and has a single quote in it. *)
Definition quoted_amount_row : row :=
  [ ("date", Some "2025-01-07"); ("description", Some "Lunch"); ("amount", Some "12'5") ].

(** The total and the count of an entry, when there is one. *)
Definition total_and_count (o : option summary) : option (float * nat) :=
  match o with
  | Some v => Some (total v, count v)
  | None => None
  end.

(** The rows the loop of the parser does not skip. *)
Definition processed (rows : list row) : list row :=
  filter (fun r => match r with [] => false | _ :: _ => true end) rows.

(** A row with a date and nothing else. *)
Definition date_only_row : row := [ ("date", Some "2025-01-05") ].

(* ================================================================== *)
(** * Part 3: properties of the parser *)
(* ================================================================== *)

Section ParserFacts.

Context {L : PyLib}.

Lemma try_formats_unreadable (raw : option string) (fmts : list string) :
  (forall fmt, In fmt fmts -> In fmt date_formats) ->
  unreadable raw -> try_formats raw fmts = None.
Proof.
  intros Hsub Hbad. induction fmts as [|fmt fmts IH]; simpl; [reflexivity|].
  destruct raw as [s|]; simpl.
  - destruct Hbad as [Hfmt _]. rewrite (Hfmt fmt) by (apply Hsub; left; reflexivity).
    simpl. apply IH. intros f Hf. apply Hsub. right. exact Hf.
  - apply IH. intros f Hf. apply Hsub. right. exact Hf.
Qed.

Lemma parse_date_unreadable (raw : option string) :
  unreadable raw ->
  parse_date raw = Raise (ValueError ("Unrecognized date format: " ++ str_of_cell raw)).
Proof.
  intros Hbad. unfold parse_date.
  rewrite (try_formats_unreadable raw date_formats) by auto.
  destruct raw as [s|]; simpl; [|reflexivity].
  destruct Hbad as [_ Hiso]. rewrite Hiso. reflexivity.
Qed.

Lemma parse_row_unreadable (r : row) :
  unreadable (raw_date_of r) ->
  parse_row r
  = Raise (ValueError ("Unrecognized date format: " ++ str_of_cell (raw_date_of r))).
Proof.
  intros Hbad. unfold parse_row. rewrite (parse_date_unreadable _ Hbad). reflexivity.
Qed.

Lemma parse_rows_app (pre rest : list row) (out : list txn) :
  parse_rows (pre ++ rest) out
  = match parse_rows pre out with
    | Return o => parse_rows rest o
    | Raise e => Raise e
    end.
Proof.
  revert out. induction pre as [|r pre IH]; intros out; simpl.
  - reflexivity.
  - destruct r as [|c r'].
    + apply IH.
    + destruct (parse_row (c :: r')); [apply IH | reflexivity].
Qed.

Lemma parse_rows_failing_row (r : row) (rest : list row) (out : list txn) (e : exn) :
  r <> [] -> parse_row r = Raise e -> parse_rows (r :: rest) out = Raise e.
Proof.
  intros Hne Hrow. destruct r as [|c r']; [contradiction|].
  simpl. rewrite Hrow. reflexivity.
Qed.

(** A row that raises makes the whole loop raise, and raise its own
    exception when the rows before it were read. *)
Lemma parse_rows_abort (pre post : list row) (r : row) (e : exn) :
  r <> [] -> parse_row r = Raise e ->
  returns (parse_rows (pre ++ r :: post) []) = false
  /\ (forall out, parse_rows pre [] = Return out ->
                  parse_rows (pre ++ r :: post) [] = Raise e).
Proof.
  intros Hne Hrow. rewrite parse_rows_app. split.
  - destruct (parse_rows pre []) as [o|e']; [|reflexivity].
    rewrite (parse_rows_failing_row r post o e Hne Hrow). reflexivity.
  - intros out Hpre. rewrite Hpre. apply parse_rows_failing_row; assumption.
Qed.

(** The outcome of a call is the outcome of the loop over its rows. *)
Lemma parse_transactions_outcome (src : csv_source) (w : world) (rows : list row) :
  source_rows src w = Some rows ->
  fst (parse_transactions src w) = parse_rows rows [].
Proof.
  destruct src as [p|rs]; simpl; intros H.
  - unfold open. rewrite H. destruct (parse_rows rows []); reflexivity.
  - injection H as ->. reflexivity.
Qed.

Lemma set_closed_last (hs : list bool) (b : bool) :
  set_closed (List.length hs) (hs ++ [b]) = hs ++ [false].
Proof.
  induction hs as [|h hs IH]; simpl; [reflexivity|]. rewrite IH. reflexivity.
Qed.

(** The handle a call opens for a path is the one handle it adds to the
    world, and it leaves it open exactly when the loop over the rows
    raised; a stream leaves the world as it was. *)
Lemma parse_transactions_handles (src : csv_source) (w : world) :
  handles (snd (parse_transactions src w))
  = match src with
    | Path p =>
        match lookup_file (files w) p with
        | Some rows => handles w ++ [negb (returns (parse_rows rows []))]
        | None => handles w
        end
    | Stream _ => handles w
    end.
Proof.
  destruct src as [p|rows]; simpl; [|reflexivity].
  unfold open. destruct (lookup_file (files w) p) as [rows|]; [|reflexivity].
  destruct (parse_rows rows []); simpl; [apply set_closed_last | reflexivity].
Qed.

(** Rows that are all read are all kept, in their order. *)
Lemma parse_rows_all_read (rows : list row) (acc : list txn) :
  Forall (fun r => r <> [] /\ returns (parse_row r) = true) rows ->
  exists out,
    parse_rows rows acc = Return (acc ++ out)
    /\ Forall2 (fun r t => parse_row r = Return t) rows out.
Proof.
  intros Hall. revert acc. induction Hall as [|r rows [Hne Hr] Hall IH]; intros acc.
  - exists []. rewrite app_nil_r. split; [reflexivity | constructor].
  - destruct r as [|c r']; [contradiction|].
    destruct (parse_row (c :: r')) as [t|e] eqn:Hrow; [|discriminate Hr].
    destruct (IH (acc ++ [t])) as [out [Hout Hf]].
    exists (t :: out). split.
    + cbn [parse_rows]. rewrite Hrow, Hout, <- app_assoc. reflexivity.
    + constructor; assumption.
Qed.

Lemma raw_date_row_not_empty (r : row) (s : string) :
  raw_date_of r = Some s -> r <> [].
Proof. intros H ->. discriminate H. Qed.

(** Every transaction the loop appends has a date. *)
Lemma parse_row_dated (r : row) (t : txn) :
  parse_row r = Return t -> exists d, t_date t = Some d.
Proof.
  unfold parse_row. destruct (parse_date (raw_date_of r)) as [d|]; simpl; [|discriminate].
  destruct (parse_amount (amt_raw_of r)) as [a|]; simpl; [|discriminate].
  intros H. injection H as <-. exists d. reflexivity.
Qed.

Lemma parse_rows_dated (rows : list row) (out res : list txn) :
  Forall (fun t => exists d, t_date t = Some d) out ->
  parse_rows rows out = Return res ->
  Forall (fun t => exists d, t_date t = Some d) res.
Proof.
  revert out. induction rows as [|r rows IH]; intros out Hout; simpl.
  - intros H. injection H as <-. exact Hout.
  - destruct r as [|c r'].
    + apply IH. exact Hout.
    + destruct (parse_row (c :: r')) as [t|] eqn:Hrow; [|discriminate].
      apply IH. apply Forall_app. split; [exact Hout|].
      constructor; [|constructor]. eapply parse_row_dated. exact Hrow.
Qed.

End ParserFacts.

(** ** The key of a dated transaction is not ["unknown"] *)

Lemma digit_char_is_digit (d : Z) :
  (0 <= d < 10)%Z -> Text.is_digit (Text.digit_char d) = true.
Proof.
  intros Hd. unfold Text.is_digit, Text.digit_char.
  rewrite nat_ascii_embedding by lia.
  apply andb_true_iff. split; apply Nat.leb_le; lia.
Qed.

Lemma digits_fuel_head (fuel : nat) (n : Z) (acc : string) :
  head_is_digit acc = true \/ (0 < fuel)%nat ->
  head_is_digit (Text.digits_fuel fuel n acc) = true.
Proof.
  revert n acc. induction fuel as [|fuel IH]; intros n acc H; simpl.
  - destruct H as [H|H]; [exact H | lia].
  - assert (Hd : head_is_digit (String (Text.digit_char (n mod 10)) acc) = true).
    { simpl. apply digit_char_is_digit. apply Z.mod_pos_bound. lia. }
    destruct (n / 10 =? 0)%Z; [exact Hd|].
    apply IH. left. exact Hd.
Qed.

Lemma pad_head (width : nat) (n : Z) : head_is_digit (Text.pad width n) = true.
Proof.
  unfold Text.pad.
  assert (H : head_is_digit (Text.of_Z n) = true).
  { unfold Text.of_Z. apply digits_fuel_head. right. lia. }
  destruct (width - String.length (Text.of_Z n))%nat; simpl; [exact H | reflexivity].
Qed.

Lemma head_is_digit_app (s1 s2 : string) :
  head_is_digit s1 = true -> head_is_digit (s1 ++ s2) = true.
Proof. destruct s1; simpl; [discriminate | trivial]. Qed.

Lemma month_key_dated (t : txn) (d : date) :
  t_date t = Some d -> month_key t <> "unknown".
Proof.
  intros Hd Hk. unfold month_key in Hk. rewrite Hd in Hk.
  assert (H : head_is_digit (Text.pad 4 (year d) ++ "-" ++ Text.pad 2 (month d)) = true)
    by (apply head_is_digit_app, pad_head).
  rewrite Hk in H. discriminate H.
Qed.

(** ** The claims about the parser *)

(** C1 (the code leaves the file open when parsing fails): given the path
    of a file whose row has an unreadable date, [parse_transactions]
    raises the date-format error and the handle it opened, handle 0, is
    still open in the world it leaves; [f.close()] only runs when the
    loop ends without an exception. *)
Theorem parse_failure_leaves_file_open :
  parse_transactions (L := Ref.lib) (Path "bad.csv") bad_date_world
  = (Raise (ValueError "Unrecognized date format: not-a-date"),
     mkworld (files bad_date_world) [true])
  /\ is_open 0 (snd (parse_transactions (L := Ref.lib) (Path "bad.csv") bad_date_world))
     = true.
Proof. split; vm_compute; reflexivity. Qed.

(** C2: a row whose date text no fixed format and no ISO reading accepts
    makes the call raise: it never returns a list, whatever the rows
    before and after are, and when the rows before it were read without
    an exception the call raises the date-format error that carries the
    raw date text of the row. *)
Theorem unreadable_date_aborts_parse
  {L : PyLib} (src : csv_source) (w : world) (pre post : list row) (r : row) (s : string) :
  source_rows src w = Some (pre ++ r :: post) ->
  raw_date_of r = Some s ->
  (forall fmt, In fmt date_formats -> strptime (str_strip s) fmt = None) ->
  fromisoformat (str_strip s) = None ->
  returns (fst (parse_transactions src w)) = false
  /\ (forall out, parse_rows pre [] = Return out ->
        fst (parse_transactions src w)
        = Raise (ValueError ("Unrecognized date format: " ++ s))).
Proof.
  intros Hrows Hraw Hfmt Hiso.
  rewrite (parse_transactions_outcome src w _ Hrows).
  assert (Hbad : unreadable (raw_date_of r)) by (rewrite Hraw; split; assumption).
  pose proof (parse_row_unreadable r Hbad) as Hrow.
  rewrite Hraw in Hrow. simpl in Hrow.
  apply parse_rows_abort; [eapply raw_date_row_not_empty; eassumption | exact Hrow].
Qed.

Lemma unreadable_date_aborts_parse_witness :
  fst (parse_transactions (L := Ref.lib)
         (Stream ([good_row] ++ bad_row :: [good_row])) (mkworld [] []))
  = Raise (ValueError "Unrecognized date format: 05/01/2025").
Proof.
  refine (proj2 (unreadable_date_aborts_parse (L := Ref.lib)
                   (Stream ([good_row] ++ bad_row :: [good_row])) (mkworld [] [])
                   [good_row] [good_row] bad_row "05/01/2025" _ _ _ _)
                [mktxn (Some (mkdate 2025 1 5)) (Some "Coffee Shop") (Some (-3.5)%float) None]
                _).
  - reflexivity.
  - reflexivity.
  - intros fmt [<-|[<-|[<-|[]]]]; vm_compute; reflexivity.
  - vm_compute. reflexivity.
  - vm_compute. reflexivity.
Defined.

(** C8, as stated, fails: the missing date cell does not fail before the
    date-format error path.  The [AttributeError] of [None.strip()] is
    caught by the [except Exception] of each attempt, and the call ends
    in the date-format error itself, carrying the text [None]. *)
Lemma missing_date_raises_format_error :
  fst (parse_transactions (L := Ref.lib) (Stream [undated_row]) (mkworld [] []))
  = Raise (ValueError "Unrecognized date format: None").
Proof. vm_compute. reflexivity. Qed.

(** C8, amended: every transaction a call returns has a date, so its
    month key is not ["unknown"].  A row that is processed and whose
    [date] cell is missing or empty makes the call raise when its
    [Date] cell is missing too, and when its [Date] cell is the empty
    text and the library reads no date from the empty text; the error,
    when the rows before it were read, is the date-format error itself:
    with the text [None] when the [Date] cell is missing, with the
    empty text when the [Date] cell is the empty text. *)
Theorem parsed_transactions_have_dates
  {L : PyLib} (src : csv_source) (w : world) (rows : list row) :
  source_rows src w = Some rows ->
  (forall out, fst (parse_transactions src w) = Return out ->
     Forall (fun t => (exists d, t_date t = Some d) /\ month_key t <> "unknown") out)
  /\ (forall pre r post,
        rows = pre ++ r :: post -> r <> [] ->
        row_get r "date" = None \/ row_get r "date" = Some "" ->
        (row_get r "Date" = None ->
           returns (fst (parse_transactions src w)) = false
           /\ (forall out, parse_rows pre [] = Return out ->
                 fst (parse_transactions src w)
                 = Raise (ValueError "Unrecognized date format: None")))
        /\ (row_get r "Date" = Some "" ->
            (forall fmt, In fmt date_formats -> strptime (str_strip "") fmt = None) ->
            fromisoformat (str_strip "") = None ->
            returns (fst (parse_transactions src w)) = false
            /\ (forall out, parse_rows pre [] = Return out ->
                  fst (parse_transactions src w)
                  = Raise (ValueError "Unrecognized date format: ")))).
Proof.
  intros Hrows. rewrite (parse_transactions_outcome src w rows Hrows). split.
  - intros out Hout.
    pose proof (parse_rows_dated rows [] out (Forall_nil _) Hout) as Hd.
    eapply Forall_impl; [|exact Hd]. intros t [d Ht]. split.
    + exists d. exact Ht.
    + eapply month_key_dated. exact Ht.
  - intros pre r post -> Hne Hdate.
    assert (Hraw : raw_date_of r = row_get r "Date")
      by (unfold raw_date_of; destruct Hdate as [-> | ->]; reflexivity).
    split.
    + intros Hcap. rewrite Hcap in Hraw.
      apply parse_rows_abort; [exact Hne|].
      rewrite (parse_row_unreadable r) by (rewrite Hraw; exact I).
      rewrite Hraw. reflexivity.
    + intros Hcap Hfmt Hiso. rewrite Hcap in Hraw.
      apply parse_rows_abort; [exact Hne|].
      rewrite (parse_row_unreadable r) by (rewrite Hraw; split; assumption).
      rewrite Hraw. reflexivity.
Qed.

(** A row that is read has a date; a row without a date column, and a
    row whose [date] cell is empty, raise the error with the text
    [None]; a row whose [Date] cell is empty raises it with the empty
    text. *)
Lemma parsed_transactions_have_dates_witness :
  Forall (fun t => (exists d, t_date t = Some d) /\ month_key t <> "unknown")
         [mktxn (Some (mkdate 2025 1 5)) (Some "Coffee Shop") (Some (-3.5)%float) None]
  /\ fst (parse_transactions (L := Ref.lib) (Stream [good_row; undated_row]) (mkworld [] []))
     = Raise (ValueError "Unrecognized date format: None")
  /\ fst (parse_transactions (L := Ref.lib) (Stream [good_row; empty_date_row])
            (mkworld [] []))
     = Raise (ValueError "Unrecognized date format: None")
  /\ fst (parse_transactions (L := Ref.lib) (Stream [good_row; empty_capital_date_row])
            (mkworld [] []))
     = Raise (ValueError "Unrecognized date format: ").
Proof.
  assert (Hgood : parse_rows (L := Ref.lib) [good_row] []
                  = Return [mktxn (Some (mkdate 2025 1 5)) (Some "Coffee Shop")
                                  (Some (-3.5)%float) None])
    by (vm_compute; reflexivity).
  split; [|split; [|split]].
  - refine (proj1 (parsed_transactions_have_dates (L := Ref.lib)
                     (Stream [good_row]) (mkworld [] []) [good_row] _) _ _).
    + reflexivity.
    + exact Hgood.
  - refine (proj2 (proj1 (proj2 (parsed_transactions_have_dates (L := Ref.lib)
                                   (Stream [good_row; undated_row]) (mkworld [] [])
                                   [good_row; undated_row] eq_refl)
                                [good_row] undated_row [] eq_refl _ _) _) _ Hgood).
    + discriminate.
    + left. reflexivity.
    + reflexivity.
  - refine (proj2 (proj1 (proj2 (parsed_transactions_have_dates (L := Ref.lib)
                                   (Stream [good_row; empty_date_row]) (mkworld [] [])
                                   [good_row; empty_date_row] eq_refl)
                                [good_row] empty_date_row [] eq_refl _ _) _) _ Hgood).
    + discriminate.
    + right. reflexivity.
    + reflexivity.
  - refine (proj2 (proj2 (proj2 (parsed_transactions_have_dates (L := Ref.lib)
                                   (Stream [good_row; empty_capital_date_row])
                                   (mkworld [] [])
                                   [good_row; empty_capital_date_row] eq_refl)
                                [good_row] empty_capital_date_row [] eq_refl _ _) _ _ _)
                  _ Hgood).
    + discriminate.
    + left. reflexivity.
    + reflexivity.
    + intros fmt [<-|[<-|[<-|[]]]]; vm_compute; reflexivity.
    + vm_compute. reflexivity.
Defined.

(** X1: the handle opened for a path is the last handle of the world the
    call leaves, and it is open exactly when the call raised: it is
    closed on the normal path only. *)
Theorem path_handle_open_iff_parse_raised
  {L : PyLib} (p : string) (w : world) (rows : list row) :
  lookup_file (files w) p = Some rows ->
  handles (snd (parse_transactions (Path p) w))
  = handles w ++ [negb (returns (fst (parse_transactions (Path p) w)))].
Proof.
  intros Hrows. rewrite parse_transactions_handles, Hrows.
  rewrite (parse_transactions_outcome (Path p) w rows Hrows). reflexivity.
Qed.

Lemma path_handle_open_iff_parse_raised_witness :
  handles (snd (parse_transactions (L := Ref.lib) (Path "bad.csv") bad_date_world))
  = [] ++ [negb (returns (fst (parse_transactions (L := Ref.lib)
                                 (Path "bad.csv") bad_date_world)))].
Proof.
  apply (path_handle_open_iff_parse_raised (L := Ref.lib) "bad.csv" bad_date_world
           bad_date_rows).
  reflexivity.
Defined.

(** X2: when every row is processed and read, the call returns one
    transaction per row, in the order of the rows. *)
Theorem parse_keeps_rows_in_order
  {L : PyLib} (src : csv_source) (w : world) (rows : list row) :
  source_rows src w = Some rows ->
  Forall (fun r => r <> [] /\ returns (parse_row r) = true) rows ->
  exists out,
    fst (parse_transactions src w) = Return out
    /\ List.length out = List.length rows
    /\ Forall2 (fun r t => parse_row r = Return t) rows out.
Proof.
  intros Hrows Hall. rewrite (parse_transactions_outcome src w rows Hrows).
  destruct (parse_rows_all_read rows [] Hall) as [out [Hout Hf]].
  exists out. split; [exact Hout|]. split; [|exact Hf].
  symmetry. eapply Forall2_length. exact Hf.
Qed.

Lemma parse_keeps_rows_in_order_witness :
  exists out,
    fst (parse_transactions (L := Ref.lib) (Stream [good_row; good_row]) (mkworld [] []))
    = Return out
    /\ List.length out = 2
    /\ Forall2 (fun r t => parse_row (L := Ref.lib) r = Return t) [good_row; good_row] out.
Proof.
  apply (parse_keeps_rows_in_order (L := Ref.lib) (Stream [good_row; good_row])
           (mkworld [] []) [good_row; good_row]).
  - reflexivity.
  - repeat constructor; try discriminate; vm_compute; reflexivity.
Defined.

(* ================================================================== *)
(** * Part 4: properties of the categorizer *)
(* ================================================================== *)

Lemma prefix_true_iff (kw s : string) :
  String.prefix kw s = true <-> exists b : string, s = (kw ++ b)%string.
Proof.
  revert s. induction kw as [|c kw IH]; intros s.
  - split; [intros _; exists s; reflexivity | intros _; destruct s; reflexivity].
  - destruct s as [|c' s]; simpl.
    + split; [discriminate | intros [b Hb]; discriminate Hb].
    + destruct (Ascii.ascii_dec c c') as [->|Hne].
      * rewrite IH. split; intros [b Hb]; exists b; congruence.
      * split; [discriminate | intros [b Hb]; congruence].
Qed.

Lemma contains_true_iff (kw s : string) :
  Text.contains kw s = true <-> occurs_in kw s.
Proof.
  induction s as [|c s IH].
  - cbn [Text.contains]. rewrite orb_false_r, prefix_true_iff. split.
    + intros [b Hb]. exists EmptyString, b. exact Hb.
    + intros [a [b Hab]]. destruct a as [|x a]; [exists b; exact Hab | discriminate Hab].
  - cbn [Text.contains]. rewrite orb_true_iff, prefix_true_iff, IH. split.
    + intros [[b Hb] | [a [b Hab]]].
      * exists EmptyString, b. exact Hb.
      * exists (String c a), b. simpl. rewrite Hab. reflexivity.
    + intros [a [b Hab]]. destruct a as [|x a].
      * left. exists b. exact Hab.
      * right. exists a, b. simpl in Hab. congruence.
Qed.

Lemma contains_false_iff (kw s : string) :
  Text.contains kw s = false <-> ~ occurs_in kw s.
Proof.
  rewrite <- contains_true_iff. destruct (Text.contains kw s); split; intros H.
  - discriminate.
  - exfalso. apply H. reflexivity.
  - discriminate.
  - reflexivity.
Qed.

Lemma first_match_some (rules : dict string) (desc c : string) :
  first_match rules desc = Some c ->
  exists pre kw post,
    rules = pre ++ (kw, c) :: post
    /\ occurs_in kw desc
    /\ forall kw' c', In (kw', c') pre -> ~ occurs_in kw' desc.
Proof.
  induction rules as [|[kw0 c0] rules IH]; simpl; [discriminate|].
  destruct (Text.contains kw0 desc) eqn:Hc.
  - intros H. injection H as <-. exists [], kw0, rules. split; [reflexivity|]. split.
    + apply contains_true_iff. exact Hc.
    + intros kw' c' [].
  - intros H. destruct (IH H) as (pre & kw & post & -> & Hocc & Hpre).
    exists ((kw0, c0) :: pre), kw, post. split; [reflexivity|]. split; [exact Hocc|].
    intros kw' c' [Heq|Hin].
    + injection Heq as <- <-. apply contains_false_iff. exact Hc.
    + eapply Hpre. exact Hin.
Qed.

Lemma first_match_none (rules : dict string) (desc : string) :
  first_match rules desc = None ->
  forall kw' c', In (kw', c') rules -> ~ occurs_in kw' desc.
Proof.
  induction rules as [|[kw0 c0] rules IH]; simpl; [intros _ kw' c' []|].
  destruct (Text.contains kw0 desc) eqn:Hc; [discriminate|].
  intros H kw' c' [Heq|Hin].
  - injection Heq as <- <-. apply contains_false_iff. exact Hc.
  - eapply IH; eassumption.
Qed.

Lemma category_for_first_rule {L : PyLib} (rules : dict string) (t : txn) :
  first_rule_category rules (lowered_description t) (category_for rules t).
Proof.
  unfold category_for. destruct (first_match rules (lowered_description t)) as [c|] eqn:Hm.
  - left. apply first_match_some. exact Hm.
  - right. split; [reflexivity|]. apply first_match_none. exact Hm.
Qed.

(** C4: every transaction comes back, in order, with its fields
    unchanged and with the category of the first rule, in the order of
    the rules, whose keyword occurs in the lowercased description, or
    ["Uncategorized"] when no keyword occurs; a transaction without a
    description is categorized as one whose description is empty, and,
    lowercasing leaving empty text empty, the default rules give it
    ["Uncategorized"]. *)
Theorem categorize_assigns_first_matching_rule
  {L : PyLib} (transactions : list txn) (rules : option (dict string)) :
  Forall2
    (fun t t' =>
       t_date t' = t_date t /\ t_description t' = t_description t
       /\ t_amount t' = t_amount t
       /\ exists c, t_category t' = Some c
                    /\ first_rule_category (rules_in_force rules) (lowered_description t) c)
    transactions (categorize_transactions transactions rules)
  /\ (forall t, t_description t = None ->
        category_for (rules_in_force rules) t
        = category_for (rules_in_force rules)
            (mktxn (t_date t) (Some "") (t_amount t) (t_category t)))
  /\ (str_lower "" = "" ->
      forall t, t_description t = None ->
        categorize_transactions [t] None
        = [mktxn (t_date t) None (t_amount t) (Some "Uncategorized")]).
Proof.
  split; [|split].
  - unfold categorize_transactions. fold (rules_in_force rules).
    induction transactions as [|t ts IH]; simpl; constructor; [|exact IH].
    repeat split. eexists. split; [reflexivity|]. apply category_for_first_rule.
  - intros t Ht. unfold category_for, lowered_description. rewrite Ht. reflexivity.
  - intros Hlow t Ht. unfold categorize_transactions. simpl.
    unfold category_for, lowered_description. rewrite Ht. simpl. rewrite Hlow.
    reflexivity.
Qed.

Lemma categorize_assigns_first_matching_rule_witness :
  map t_category (categorize_transactions (L := Ref.lib) test_transactions None)
  = [Some "Coffee"; Some "Uncategorized"]
  /\ Forall2
       (fun t t' =>
          t_date t' = t_date t /\ t_description t' = t_description t
          /\ t_amount t' = t_amount t
          /\ exists c, t_category t' = Some c
                       /\ first_rule_category default_rules
                            (lowered_description (L := Ref.lib) t) c)
       test_transactions (categorize_transactions (L := Ref.lib) test_transactions None)
  /\ categorize_transactions (L := Ref.lib) [mktxn None None (Some (-12)%float) None] None
     = [mktxn None None (Some (-12)%float) (Some "Uncategorized")].
Proof.
  split; [reflexivity|]. split.
  - exact (proj1 (categorize_assigns_first_matching_rule (L := Ref.lib)
                    test_transactions None)).
  - exact (proj2 (proj2 (categorize_assigns_first_matching_rule (L := Ref.lib)
                           test_transactions None))
                 eq_refl (mktxn None None (Some (-12)%float) None) eq_refl).
Defined.

(** X3: categorizing again, with the same rules, what was categorized
    changes nothing: the category depends on the description and the
    rules only. *)
Theorem categorize_is_idempotent
  {L : PyLib} (transactions : list txn) (rules : option (dict string)) :
  categorize_transactions (categorize_transactions transactions rules) rules
  = categorize_transactions transactions rules.
Proof.
  unfold categorize_transactions. rewrite map_map. apply map_ext.
  intros t. reflexivity.
Qed.

(* ================================================================== *)
(** * Part 5: properties of the aggregator *)
(* ================================================================== *)

(** ** Dictionaries built by a loop of updates *)

Lemma dict_get_in_keys {V : Type} (d : dict V) (k : string) :
  In k (keys d) <-> exists v, dict_get d k = Some v.
Proof.
  induction d as [|[k' v'] d IH]; simpl.
  - split; [intros [] | intros [v Hv]; discriminate Hv].
  - destruct (String.eqb_spec k k') as [->|Hne].
    + split; [intros _; exists v'; reflexivity | intros _; left; reflexivity].
    + rewrite <- IH. split; [intros [Heq|Hin]; [congruence | exact Hin] | intros Hin; right; exact Hin].
Qed.

Section DictLoop.

Context {T V : Type}.
Variable key : T -> string.
Variable step : T -> V -> V.
Variable default : V.

Lemma dict_get_update (d : dict V) (k k' : string) (f : V -> V) :
  dict_get (dict_update k f default d) k'
  = if String.eqb k k' then Some (f (or_default default (dict_get d k))) else dict_get d k'.
Proof.
  induction d as [|[k0 v0] d IH]; simpl.
  - rewrite (String.eqb_sym k' k). destruct (String.eqb k k'); reflexivity.
  - destruct (String.eqb_spec k k0) as [->|Hne]; simpl.
    + rewrite (String.eqb_sym k' k0). destruct (String.eqb k0 k'); reflexivity.
    + rewrite IH. destruct (String.eqb_spec k' k0) as [->|Hne'].
      * destruct (String.eqb_spec k k0) as [->|_]; [contradiction | reflexivity].
      * reflexivity.
Qed.

Lemma keys_update (d : dict V) (k : string) (f : V -> V) :
  keys (dict_update k f default d)
  = if existsb (String.eqb k) (keys d) then keys d else keys d ++ [k].
Proof.
  unfold keys. induction d as [|[k0 v0] d IH]; simpl; [reflexivity|].
  destruct (String.eqb k k0); simpl; [reflexivity|].
  rewrite IH. destruct (existsb (String.eqb k) (map fst d)); reflexivity.
Qed.

Lemma existsb_eqb_in (k : string) (l : list string) :
  existsb (String.eqb k) l = true <-> In k l.
Proof.
  rewrite existsb_exists. split.
  - intros [x [Hin Heq]]. apply String.eqb_eq in Heq. subst. exact Hin.
  - intros Hin. exists k. split; [exact Hin | apply String.eqb_refl].
Qed.

Lemma keys_update_in (d : dict V) (k k' : string) (f : V -> V) :
  In k' (keys (dict_update k f default d)) <-> In k' (keys d) \/ k' = k.
Proof.
  rewrite keys_update. destruct (existsb (String.eqb k) (keys d)) eqn:He.
  - apply existsb_eqb_in in He. split; [intros H; left; exact H|].
    intros [H| ->]; assumption.
  - rewrite in_app_iff. simpl. intuition auto.
Qed.

Lemma keys_update_nodup (d : dict V) (k : string) (f : V -> V) :
  NoDup (keys d) -> NoDup (keys (dict_update k f default d)).
Proof.
  intros Hnd. rewrite keys_update. destruct (existsb (String.eqb k) (keys d)) eqn:He.
  - exact Hnd.
  - apply NoDup_app; [exact Hnd | repeat constructor; intros [] |].
    intros x Hx [<-|[]].
    apply existsb_eqb_in in Hx. congruence.
Qed.

(** The entry of [k] after the loop: what the turns for [k], in order,
    make of the entry it had before. *)
Lemma dict_get_loop (ts : list T) (d : dict V) (k : string) :
  dict_get (fold_left (dict_add key step default) ts d) k
  = match with_key key k ts with
    | [] => dict_get d k
    | _ :: _ =>
        Some (fold_left (fun v t => step t v) (with_key key k ts) (or_default default (dict_get d k)))
    end.
Proof.
  revert d. induction ts as [|t ts IH]; intros d; simpl; [reflexivity|].
  rewrite IH. unfold dict_add. rewrite !dict_get_update.
  destruct (String.eqb_spec (key t) k) as [Hk|Hk]; simpl.
  - rewrite Hk. destruct (with_key key k ts); reflexivity.
  - reflexivity.
Qed.

Lemma keys_loop_in (ts : list T) (d : dict V) (k : string) :
  In k (keys (fold_left (dict_add key step default) ts d)) <-> In k (keys d) \/ In k (map key ts).
Proof.
  revert d. induction ts as [|t ts IH]; intros d; simpl.
  - split; [intros H; left; exact H | intros [H|[]]; exact H].
  - rewrite IH. unfold dict_add. rewrite keys_update_in.
    split; intros H; intuition auto.
Qed.

Lemma keys_loop_nodup (ts : list T) (d : dict V) :
  NoDup (keys d) -> NoDup (keys (fold_left (dict_add key step default) ts d)).
Proof.
  revert d. induction ts as [|t ts IH]; intros d Hnd; simpl; [exact Hnd|].
  apply IH. apply keys_update_nodup. exact Hnd.
Qed.

Lemma with_key_in (k : string) (ts : list T) (t : T) :
  In t (with_key key k ts) <-> In t ts /\ key t = k.
Proof.
  unfold with_key. rewrite filter_In, String.eqb_eq. reflexivity.
Qed.

End DictLoop.

(** ** The monthly summaries *)

Lemma monthly_summary_loop (ts : list txn) :
  monthly_summary ts = fold_left (dict_add month_key summary_step new_summary) ts [].
Proof.
  unfold monthly_summary.
  change (fold_left add_txn ts [])
    with (fold_left (dict_add month_key summary_step new_summary) ts []).
  generalize (fold_left (dict_add month_key summary_step new_summary) ts []).
  intros d. induction d as [|[k [tot n cats]] d IH]; simpl; [reflexivity|].
  rewrite IH. reflexivity.
Qed.

(** A month's summary after its transactions [ts], from the summary [v]. *)
Lemma summary_steps (ts : list txn) (v : summary) :
  fold_left (fun v t => summary_step t v) ts v
  = mksummary
      (fold_left PrimFloat.add (map amount_of ts) (total v))
      (count v + List.length ts)
      (fold_left (dict_add category_of (fun t x => PrimFloat.add x (amount_of t))
                           PrimFloat.zero) ts (by_category v)).
Proof.
  revert v. induction ts as [|t ts IH]; intros v; simpl.
  - rewrite Nat.add_0_r. destruct v; reflexivity.
  - rewrite IH. simpl. rewrite Nat.add_succ_r. reflexivity.
Qed.

Lemma fold_add_amounts (ts : list txn) (x : float) :
  fold_left (fun v t => PrimFloat.add v (amount_of t)) ts x
  = fold_left PrimFloat.add (map amount_of ts) x.
Proof.
  revert x. induction ts as [|t ts IH]; intros x; simpl; [reflexivity | apply IH].
Qed.

(** The entry of a month: the loop's summary of its transactions. *)
Lemma monthly_summary_entry (ts : list txn) (k : string) (v : summary) :
  dict_get (monthly_summary ts) k = Some v ->
  in_month k ts <> []
  /\ v = mksummary
           (fsum (map amount_of (in_month k ts)))
           (List.length (in_month k ts))
           (fold_left (dict_add category_of (fun t x => PrimFloat.add x (amount_of t))
                                PrimFloat.zero) (in_month k ts) []).
Proof.
  rewrite monthly_summary_loop, dict_get_loop. fold (in_month k ts).
  destruct (in_month k ts) as [|t m] eqn:Hm; simpl; [discriminate|].
  intros H. injection H as <-. split; [discriminate|].
  rewrite summary_steps. reflexivity.
Qed.

(** ** The order of the keys *)

Lemma filter_filter_implied {A : Type} (p q : A -> bool) (l : list A) :
  (forall x, p x = true -> q x = true) -> filter p (filter q l) = filter p l.
Proof.
  intros Hpq. induction l as [|x l IH]; simpl; [reflexivity|].
  destruct (q x) eqn:Hq; simpl.
  - rewrite IH. reflexivity.
  - destruct (p x) eqn:Hp; [|exact IH]. rewrite (Hpq x Hp) in Hq. discriminate Hq.
Qed.

Lemma filter_filter_both {A : Type} (p q : A -> bool) (l : list A) :
  filter p (filter q l) = filter (fun x => q x && p x) l.
Proof.
  induction l as [|x l IH]; simpl; [reflexivity|].
  destruct (q x); simpl; [destruct (p x); rewrite IH; reflexivity | exact IH].
Qed.

(** The keys after a loop of updates: the keys there were, then the new
    ones in the order the loop first meets them. *)
Lemma keys_loop_first {T V : Type} (key : T -> string) (step : T -> V -> V) (default : V)
  (ts : list T) (d : dict V) :
  keys (fold_left (dict_add key step default) ts d)
  = keys d ++ filter (fun k => negb (existsb (String.eqb k) (keys d)))
                     (first_occurrences (map key ts)).
Proof.
  revert d. induction ts as [|t ts IH]; intros d; simpl.
  - rewrite app_nil_r. reflexivity.
  - assert (Hk : keys (dict_add key step default d t)
                 = if existsb (String.eqb (key t)) (keys d) then keys d
                   else keys d ++ [key t])
      by (unfold dict_add; apply keys_update).
    rewrite IH, Hk.
    destruct (existsb (String.eqb (key t)) (keys d)) eqn:He; simpl.
    + f_equal. symmetry. apply filter_filter_implied. intros x Hx.
      apply negb_true_iff. apply String.eqb_neq. intros <-.
      rewrite He in Hx. discriminate Hx.
    + rewrite <- app_assoc. simpl. f_equal. f_equal.
      rewrite filter_filter_both. apply filter_ext. intros x.
      rewrite existsb_app. simpl. rewrite orb_false_r, negb_orb.
      rewrite (String.eqb_sym x (key t)). apply andb_comm.
Qed.

Lemma first_occurrences_in (l : list string) (k : string) :
  In k (first_occurrences l) <-> In k l.
Proof.
  induction l as [|x l IH]; simpl; [reflexivity|].
  rewrite filter_In, IH, negb_true_iff, String.eqb_neq.
  destruct (String.eqb_spec x k) as [->|Hne]; [tauto|]. tauto.
Qed.

Lemma first_occurrences_nodup (l : list string) : NoDup (first_occurrences l).
Proof.
  induction l as [|x l IH]; simpl; constructor.
  - rewrite filter_In, negb_true_iff, String.eqb_neq. intros [_ H]. apply H. reflexivity.
  - apply NoDup_filter. exact IH.
Qed.

Lemma first_occurrences_one {T : Type} (f : T -> string) (l : list T) (c : string) :
  l <> [] -> (forall t, In t l -> f t = c) -> first_occurrences (map f l) = [c].
Proof.
  induction l as [|t l IH]; [contradiction|]. intros _ Hall. simpl.
  rewrite (Hall t) by (left; reflexivity).
  destruct l as [|t' l']; [reflexivity|].
  rewrite IH; [|discriminate | intros u Hu; apply Hall; right; exact Hu].
  simpl. rewrite String.eqb_refl. reflexivity.
Qed.

Lemma filter_all {A : Type} (p : A -> bool) (l : list A) :
  (forall x, p x = true) -> filter p l = l.
Proof.
  intros Hp. induction l as [|x l IH]; simpl; [reflexivity|].
  rewrite Hp, IH. reflexivity.
Qed.

Lemma filter_all_in {A : Type} (p : A -> bool) (l : list A) :
  (forall x, In x l -> p x = true) -> filter p l = l.
Proof.
  induction l as [|x l IH]; simpl; intros Hp; [reflexivity|].
  rewrite (Hp x) by (left; reflexivity). f_equal. apply IH.
  intros y Hy. apply Hp. right. exact Hy.
Qed.

Lemma monthly_summary_keys_nodup (ts : list txn) : NoDup (keys (monthly_summary ts)).
Proof. rewrite monthly_summary_loop. apply keys_loop_nodup. constructor. Qed.

Lemma monthly_summary_keys_first (ts : list txn) :
  keys (monthly_summary ts) = first_occurrences (map month_key ts).
Proof.
  rewrite monthly_summary_loop, keys_loop_first. simpl. apply filter_all. reflexivity.
Qed.

Lemma entry_category_keys (ts : list txn) (k : string) (v : summary) :
  dict_get (monthly_summary ts) k = Some v ->
  keys (by_category v) = first_occurrences (map category_of (in_month k ts)).
Proof.
  intros Hv. apply monthly_summary_entry in Hv. destruct Hv as [_ ->]. simpl.
  rewrite keys_loop_first. simpl. apply filter_all. reflexivity.
Qed.

(** ** The claims about the aggregator *)

(** C3: the months of the summary are the distinct month keys of the
    input, each once and no other key; and the entry of a month holds
    the float sum, in input order from [0.0], of the amounts of exactly
    the transactions of that month ([0.0] for one that has no amount),
    and their number. *)
Theorem monthly_summary_groups_by_month (transactions : list txn) :
  NoDup (keys (monthly_summary transactions))
  /\ (forall k, In k (keys (monthly_summary transactions))
                <-> In k (map month_key transactions))
  /\ (forall k v, dict_get (monthly_summary transactions) k = Some v ->
        total v
        = fsum (map (fun t => match t_amount t with
                              | Some a => a
                              | None => 0%float
                              end)
                    (filter (fun t => String.eqb (month_key t) k) transactions))
        /\ count v
           = List.length (filter (fun t => String.eqb (month_key t) k) transactions)).
Proof.
  split; [|split].
  - apply monthly_summary_keys_nodup.
  - intros k. rewrite monthly_summary_loop, keys_loop_in. simpl. tauto.
  - intros k v Hv. apply monthly_summary_entry in Hv. destruct Hv as [_ ->].
    split; reflexivity.
Qed.

(** The repository's aggregation test, read off the theorem: the months
    are 2025-01 and 2025-02 and no other, January has the total [-15.0]
    and the count 2, February the total [100.0] and the count 1. *)
Lemma monthly_summary_groups_by_month_witness :
  (exists v, dict_get (monthly_summary test_summary_input) "2025-01" = Some v
             /\ total v = (-15)%float /\ count v = 2)
  /\ (exists v, dict_get (monthly_summary test_summary_input) "2025-02" = Some v
                /\ total v = 100%float /\ count v = 1)
  /\ (In "2025-03" (keys (monthly_summary test_summary_input))
      <-> In "2025-03" ["2025-01"; "2025-01"; "2025-02"]).
Proof.
  destruct (monthly_summary_groups_by_month test_summary_input) as (_ & Hkeys & Hentry).
  split; [|split].
  - assert (H : exists v, dict_get (monthly_summary test_summary_input) "2025-01" = Some v)
      by (eexists; vm_compute; reflexivity).
    destruct H as [v Hv]. exists v. split; [exact Hv|].
    destruct (Hentry "2025-01" v Hv) as [-> ->]. split; vm_compute; reflexivity.
  - assert (H : exists v, dict_get (monthly_summary test_summary_input) "2025-02" = Some v)
      by (eexists; vm_compute; reflexivity).
    destruct H as [v Hv]. exists v. split; [exact Hv|].
    destruct (Hentry "2025-02" v Hv) as [-> ->]. split; vm_compute; reflexivity.
  - exact (Hkeys "2025-03").
Defined.

Example monthly_summary_test :
  monthly_summary test_summary_input
  = [ ("2025-01", mksummary (-15)%float 2 [("X", (-10)%float); ("Y", (-5)%float)]);
      ("2025-02", mksummary 100%float 1 [("Income", 100%float)]) ].
Proof. vm_compute. reflexivity. Qed.

(** The entry of a category within a month. *)
Lemma by_category_entry (ts : list txn) (c : string) (x : float) :
  dict_get (fold_left (dict_add category_of (fun t x => PrimFloat.add x (amount_of t))
                                PrimFloat.zero) ts []) c = Some x ->
  in_category c ts <> []
  /\ x = fsum (map amount_of (in_category c ts)).
Proof.
  rewrite dict_get_loop. fold (in_category c ts).
  destruct (in_category c ts) as [|t m] eqn:Hm; simpl; [discriminate|].
  intros H. injection H as <-. split; [discriminate|].
  unfold fsum. simpl. rewrite fold_add_amounts. reflexivity.
Qed.

(** A dictionary is the list of its keys, each with its value. *)
Lemma dict_items {V : Type} (d : dict V) (f : string -> V) :
  NoDup (keys d) -> (forall c x, dict_get d c = Some x -> x = f c) ->
  d = map (fun c => (c, f c)) (keys d).
Proof.
  induction d as [|[k x] d IH]; simpl; intros Hnd Hget; [reflexivity|].
  inversion Hnd as [|? ? Hnotin Hnd']; subst.
  rewrite <- (Hget k x) by (rewrite String.eqb_refl; reflexivity).
  f_equal. apply IH; [exact Hnd'|].
  intros c y Hy. apply Hget.
  destruct (String.eqb_spec c k) as [->|_]; [|exact Hy].
  exfalso. apply Hnotin. apply dict_get_in_keys. exists y. exact Hy.
Qed.

(** The groups of a list by key, one after the other, are the list
    rearranged, when each key of the list is listed once. *)
Lemma flat_map_groups_cons {T : Type} (key : T -> string) (t : T) (ts : list T)
  (ks : list string) :
  NoDup ks ->
  (In (key t) ks ->
     Permutation (flat_map (fun c => with_key key c (t :: ts)) ks)
                 (t :: flat_map (fun c => with_key key c ts) ks))
  /\ (~ In (key t) ks ->
        flat_map (fun c => with_key key c (t :: ts)) ks
        = flat_map (fun c => with_key key c ts) ks).
Proof.
  assert (Hcons : forall c, with_key key c (t :: ts)
                            = if String.eqb (key t) c then t :: with_key key c ts
                              else with_key key c ts) by reflexivity.
  induction ks as [|c ks IH]; intros Hnd; cbn [flat_map].
  - split; [intros [] | reflexivity].
  - inversion Hnd as [|? ? Hnotin Hnd']; subst. destruct (IH Hnd') as [IHin IHout].
    rewrite Hcons.
    destruct (String.eqb_spec (key t) c) as [Heq|Hne].
    + assert (Hout : ~ In (key t) ks) by (rewrite Heq; exact Hnotin).
      split.
      * intros _. rewrite (IHout Hout). reflexivity.
      * intros H. exfalso. apply H. left. symmetry. exact Heq.
    + split.
      * intros [Heq|Hin]; [symmetry in Heq; contradiction|].
        rewrite (IHin Hin). symmetry. apply Permutation_middle.
      * intros H. rewrite IHout; [reflexivity|]. intros Hin. apply H. right. exact Hin.
Qed.

Lemma flat_map_groups {T : Type} (key : T -> string) (ts : list T) (ks : list string) :
  NoDup ks -> (forall t, In t ts -> In (key t) ks) ->
  Permutation ts (flat_map (fun c => with_key key c ts) ks).
Proof.
  intros Hnd. induction ts as [|t ts IH]; intros Hall.
  - replace (flat_map (fun c => with_key key c []) ks) with (@nil T); [reflexivity|].
    clear. induction ks as [|c ks IH]; simpl; [reflexivity | exact IH].
  - destruct (flat_map_groups_cons key t ts ks Hnd) as [Hin _].
    apply perm_trans with (t :: flat_map (fun c => with_key key c ts) ks).
    + apply perm_skip. apply IH. intros u Hu. apply Hall. right. exact Hu.
    + symmetry. apply Hin. apply Hall. left. reflexivity.
Qed.

Lemma map_flat_map {A B C : Type} (f : B -> C) (g : A -> list B) (l : list A) :
  map f (flat_map g l) = flat_map (fun a => map f (g a)) l.
Proof.
  induction l as [|a l IH]; simpl; [reflexivity|]. rewrite map_app, IH. reflexivity.
Qed.

(** C9, as stated, fails: float addition rounds, so the total of a month,
    summed in input order, need not be the sum of its per-category
    subtotals.  For the three purchases above the total is
    [-24.59] while the subtotals [-4.6] and [-19.99] add up to
    [-24.589999999999996]. *)
Lemma total_differs_from_category_sum :
  exists v,
    dict_get (monthly_summary rounding_transactions) "2025-01" = Some v
    /\ map fst (by_category v) = ["Coffee"; "Groceries"]
    /\ total v = (-0x1.8970a3d70a3d7p+4)%float
    /\ fsum (map snd (by_category v)) = (-0x1.8970a3d70a3d6p+4)%float
    /\ PrimFloat.eqb (total v) (fsum (map snd (by_category v))) = false.
Proof. eexists. vm_compute. repeat split. Qed.

(** C9, amended: in every entry of the summary the count is at least 1;
    the total is the float sum, in input order from [0.0], of the
    amounts of the month's transactions; the labels of [by_category]
    are distinct, and they are the categories of the month's
    transactions and no other label (["Uncategorized"] standing for a
    transaction that has none); and each subtotal is the float sum, in
    input order from [0.0], of the amounts of the month's transactions
    of its category.  So the total and the subtotals add up the same
    amounts: the amounts under the subtotals, taken together, are those
    under the total, rearranged.  The two sums are the same float when
    the month has one category, which then has the total as its
    subtotal; otherwise they may differ by the rounding of the
    additions. *)
Theorem monthly_summary_entry_invariant
  (transactions : list txn) (k : string) (v : summary) :
  dict_get (monthly_summary transactions) k = Some v ->
  1 <= count v
  /\ total v
     = fsum (map (fun t => match t_amount t with Some a => a | None => 0%float end)
                 (in_month k transactions))
  /\ NoDup (keys (by_category v))
  /\ (forall c, In c (keys (by_category v))
                <-> exists t, In t transactions /\ month_key t = k /\ category_of t = c)
  /\ by_category v
     = map (fun c =>
              (c, fsum (map (fun t => match t_amount t with Some a => a | None => 0%float end)
                            (in_category c (in_month k transactions)))))
           (keys (by_category v))
  /\ Permutation
       (map (fun t => match t_amount t with Some a => a | None => 0%float end)
            (in_month k transactions))
       (flat_map
          (fun c => map (fun t => match t_amount t with Some a => a | None => 0%float end)
                        (in_category c (in_month k transactions)))
          (keys (by_category v)))
  /\ (forall c, (forall t, In t transactions -> month_key t = k -> category_of t = c) ->
                by_category v = [(c, total v)]).
Proof.
  intros Hv. pose proof (entry_category_keys transactions k v Hv) as Hkeys.
  apply monthly_summary_entry in Hv. destruct Hv as [Hne Hv].
  assert (Hnd : NoDup (keys (by_category v)))
    by (rewrite Hkeys; apply first_occurrences_nodup).
  assert (Hlabels : forall c, In c (keys (by_category v))
                              <-> exists t, In t transactions /\ month_key t = k
                                            /\ category_of t = c).
  { intros c. rewrite Hkeys, first_occurrences_in, in_map_iff. split.
    - intros [t [Hc Hin]]. apply with_key_in in Hin. destruct Hin as [Hin Hk].
      exists t. auto.
    - intros [t (Hin & Hk & Hc)]. exists t. split; [exact Hc|].
      apply with_key_in. split; assumption. }
  assert (Hitems : by_category v
                   = map (fun c => (c, fsum (map amount_of
                                               (in_category c (in_month k transactions)))))
                         (keys (by_category v))).
  { apply dict_items; [exact Hnd|]. intros c x Hx. rewrite Hv in Hx. simpl in Hx.
    apply by_category_entry in Hx. apply Hx. }
  split; [|split; [|split; [|split; [|split; [|split]]]]].
  - rewrite Hv. simpl. destruct (in_month k transactions); [contradiction | simpl; lia].
  - rewrite Hv. reflexivity.
  - exact Hnd.
  - exact Hlabels.
  - exact Hitems.
  - change (fun t : txn => match t_amount t with Some a => a | None => 0%float end)
      with amount_of.
    rewrite <- map_flat_map. apply Permutation_map.
    apply (flat_map_groups category_of); [exact Hnd|].
    intros t Ht. apply with_key_in in Ht. destruct Ht as [Hin Hk].
    apply Hlabels. exists t. auto.
  - intros c Hall.
    assert (Hone : keys (by_category v) = [c]).
    { rewrite Hkeys. apply first_occurrences_one; [exact Hne|].
      intros t Ht. apply with_key_in in Ht. destruct Ht as [Hin Hk]. apply Hall; assumption. }
    rewrite Hitems, Hone. simpl. f_equal. f_equal.
    rewrite Hv. simpl. f_equal. f_equal.
    unfold in_category, with_key. apply filter_all_in.
    intros t Ht. apply String.eqb_eq.
    apply with_key_in in Ht. destruct Ht as [Hin Hk]. apply Hall; assumption.
Qed.

(** The entry of January in the repository's aggregation test. *)
Lemma monthly_summary_entry_invariant_witness :
  1 <= 2
  /\ (-15)%float = fsum [(-10)%float; (-5)%float]
  /\ NoDup ["X"; "Y"]
  /\ (forall c, In c ["X"; "Y"]
                <-> exists t, In t test_summary_input /\ month_key t = "2025-01"
                              /\ category_of t = c)
  /\ [("X", (-10)%float); ("Y", (-5)%float)]
     = [("X", fsum [(-10)%float]); ("Y", fsum [(-5)%float])]
  /\ Permutation [(-10)%float; (-5)%float] ([(-10)%float] ++ [(-5)%float] ++ [])
  /\ (forall c, (forall t, In t test_summary_input -> month_key t = "2025-01" ->
                           category_of t = c) ->
                [("X", (-10)%float); ("Y", (-5)%float)] = [(c, (-15)%float)]).
Proof.
  exact (monthly_summary_entry_invariant test_summary_input "2025-01"
           (mksummary (-15)%float 2 [("X", (-10)%float); ("Y", (-5)%float)]) eq_refl).
Defined.

(* ================================================================== *)
(** * Part 6: properties of the advisor *)
(* ================================================================== *)

(** ** The order of floats

    [<] and [==] on floats that are not NaN form a total preorder; the
    facts are read off the specification of binary64 comparison. *)

Module FloatOrder.

Lemma SFltb_trans (x y z : spec_float) :
  SFltb x y = true -> SFltb y z = true -> SFltb x z = true.
Proof. by_cases. Qed.

Lemma SFltb_asym (x y : spec_float) : SFltb x y = true -> SFltb y x = false.
Proof. by_cases. Qed.

Lemma SFeqb_refl (x : spec_float) : x <> S754_nan -> SFeqb x x = true.
Proof. by_cases. Qed.

Lemma SFeqb_nan (x : spec_float) : SFeqb x x = true -> x <> S754_nan.
Proof. intros H ->. discriminate H. Qed.

Lemma SFeqb_sym (x y : spec_float) : SFeqb x y = true -> SFeqb y x = true.
Proof. by_cases. Qed.

Lemma SFeqb_trans (x y z : spec_float) :
  SFeqb x y = true -> SFeqb y z = true -> SFeqb x z = true.
Proof. by_cases. Qed.

Lemma SFeqb_ltb_l (x y z : spec_float) :
  SFeqb x y = true -> SFltb x z = SFltb y z.
Proof. by_cases. Qed.

Lemma SFeqb_ltb_r (x y z : spec_float) :
  SFeqb x y = true -> SFltb z x = SFltb z y.
Proof. by_cases. Qed.

Lemma SFeqb_not_ltb (x y : spec_float) : SFeqb x y = true -> SFltb x y = false.
Proof. by_cases. Qed.

Lemma SF_total (x y : spec_float) :
  x <> S754_nan -> y <> S754_nan ->
  SFltb x y = false -> SFeqb x y = false -> SFltb y x = true.
Proof. by_cases. Qed.

Lemma SFleb_of_ltb (x y : spec_float) : SFltb x y = true -> SFleb x y = true.
Proof. by_cases. Qed.

Lemma SFleb_of_eqb (x y : spec_float) : SFeqb x y = true -> SFleb y x = true.
Proof. by_cases. Qed.

Lemma SFabs_nan (x : spec_float) : SFabs x = S754_nan <-> x = S754_nan.
Proof. destruct x; simpl; split; intros H; try discriminate H; reflexivity. Qed.

(** The same facts on the floats of the program. *)

Lemma not_nan_spec (x : float) : not_nan x <-> Prim2SF x <> S754_nan.
Proof.
  unfold not_nan, PrimFloat.is_nan. rewrite eqb_spec, negb_false_iff. split.
  - apply SFeqb_nan.
  - apply SFeqb_refl.
Qed.

Lemma ltb_trans (x y z : float) :
  PrimFloat.ltb x y = true -> PrimFloat.ltb y z = true -> PrimFloat.ltb x z = true.
Proof. rewrite !ltb_spec. apply SFltb_trans. Qed.

Lemma ltb_asym (x y : float) : PrimFloat.ltb x y = true -> PrimFloat.ltb y x = false.
Proof. rewrite !ltb_spec. apply SFltb_asym. Qed.

Lemma eqb_sym (x y : float) : PrimFloat.eqb x y = true -> PrimFloat.eqb y x = true.
Proof. rewrite !eqb_spec. apply SFeqb_sym. Qed.

Lemma eqb_trans (x y z : float) :
  PrimFloat.eqb x y = true -> PrimFloat.eqb y z = true -> PrimFloat.eqb x z = true.
Proof. rewrite !eqb_spec. apply SFeqb_trans. Qed.

Lemma eqb_ltb_l (x y z : float) :
  PrimFloat.eqb x y = true -> PrimFloat.ltb x z = PrimFloat.ltb y z.
Proof. rewrite eqb_spec, !ltb_spec. apply SFeqb_ltb_l. Qed.

Lemma eqb_ltb_r (x y z : float) :
  PrimFloat.eqb x y = true -> PrimFloat.ltb z x = PrimFloat.ltb z y.
Proof. rewrite eqb_spec, !ltb_spec. apply SFeqb_ltb_r. Qed.

Lemma eqb_not_ltb (x y : float) : PrimFloat.eqb x y = true -> PrimFloat.ltb x y = false.
Proof. rewrite eqb_spec, ltb_spec. apply SFeqb_not_ltb. Qed.

Lemma total (x y : float) :
  not_nan x -> not_nan y ->
  PrimFloat.ltb x y = false -> PrimFloat.eqb x y = false -> PrimFloat.ltb y x = true.
Proof. rewrite !not_nan_spec, !ltb_spec, eqb_spec. apply SF_total. Qed.

Lemma leb_of_ltb (x y : float) : PrimFloat.ltb x y = true -> PrimFloat.leb x y = true.
Proof. rewrite ltb_spec, leb_spec. apply SFleb_of_ltb. Qed.

Lemma leb_of_eqb (x y : float) : PrimFloat.eqb x y = true -> PrimFloat.leb y x = true.
Proof. rewrite eqb_spec, leb_spec. apply SFleb_of_eqb. Qed.

Lemma abs_not_nan (x : float) : not_nan x -> not_nan (PrimFloat.abs x).
Proof.
  rewrite !not_nan_spec, abs_spec. intros H Ha. apply H. apply SFabs_nan. exact Ha.
Qed.

End FloatOrder.

(** ** The order of text *)

Lemma ascii_compare_refl (c : ascii) : Ascii.compare c c = Eq.
Proof. unfold Ascii.compare. apply N.compare_refl. Qed.

Lemma ascii_compare_lt_trans (a b c : ascii) :
  Ascii.compare a b = Lt -> Ascii.compare b c = Lt -> Ascii.compare a c = Lt.
Proof. unfold Ascii.compare. rewrite !N.compare_lt_iff. lia. Qed.

Lemma string_compare_refl (s : string) : String.compare s s = Eq.
Proof.
  induction s as [|c s IH]; simpl; [reflexivity|].
  rewrite ascii_compare_refl. exact IH.
Qed.

Lemma string_compare_lt_trans (a b c : string) :
  String.compare a b = Lt -> String.compare b c = Lt -> String.compare a c = Lt.
Proof.
  revert b c. induction a as [|x a IH]; intros [|y b] [|z c]; simpl;
    try discriminate; try reflexivity.
  destruct (Ascii.compare x y) eqn:Hxy; try discriminate;
    destruct (Ascii.compare y z) eqn:Hyz; try discriminate; intros H1 H2.
  - apply Ascii.compare_eq_iff in Hxy, Hyz. subst.
    rewrite ascii_compare_refl. eapply IH; eassumption.
  - apply Ascii.compare_eq_iff in Hxy. subst. rewrite Hyz. reflexivity.
  - apply Ascii.compare_eq_iff in Hyz. subst. rewrite Hxy. reflexivity.
  - rewrite (ascii_compare_lt_trans x y z Hxy Hyz). reflexivity.
Qed.

Lemma string_ltb_lt (a b : string) : String.ltb a b = true <-> String.compare a b = Lt.
Proof. unfold String.ltb. destruct (String.compare a b); split; congruence. Qed.

Lemma string_ltb_trans (a b c : string) :
  String.ltb a b = true -> String.ltb b c = true -> String.ltb a c = true.
Proof. rewrite !string_ltb_lt. apply string_compare_lt_trans. Qed.

Lemma string_ltb_asym (a b : string) : String.ltb a b = true -> String.ltb b a = false.
Proof.
  unfold String.ltb. rewrite (String.compare_antisym a b).
  destruct (String.compare b a); simpl; congruence.
Qed.

Lemma string_ltb_total (a b : string) :
  String.ltb a b = false -> a <> b -> String.ltb b a = true.
Proof.
  unfold String.ltb. rewrite (String.compare_antisym b a).
  destruct (String.compare a b) eqn:H; simpl; try congruence.
  intros _ Hne. apply String.compare_eq_iff in H. contradiction.
Qed.

(** Of two texts of which one is less than the other, any text is
    greater than the one or less than the other. *)
Lemma string_ltb_cotrans (a b c : string) :
  String.ltb a b = true -> String.ltb a c = true \/ String.ltb c b = true.
Proof.
  intros Hab. destruct (String.ltb a c) eqn:Hac; [left; reflexivity | right].
  destruct (String.eqb_spec a c) as [<-|Hne]; [exact Hab|].
  apply (string_ltb_trans c a b); [|exact Hab].
  apply string_ltb_total; assumption.
Qed.

Lemma string_leb_of_not_ltb (a b : string) :
  String.ltb a b = false -> String.leb b a = true.
Proof.
  unfold String.ltb, String.leb. rewrite (String.compare_antisym a b).
  destruct (String.compare b a); simpl; congruence.
Qed.

(** ** Sorting *)

Lemma StronglySorted_snoc {A : Type} (R : A -> A -> Prop) (l : list A) (x : A) :
  StronglySorted R l -> Forall (fun y => R y x) l -> StronglySorted R (l ++ [x]).
Proof.
  intros Hs. induction Hs as [|y l Hs IH Hy]; simpl; intros Hx.
  - repeat constructor.
  - inversion Hx as [|? ? Hyx Hlx]; subst. constructor; [apply IH; exact Hlx|].
    apply Forall_app. split; [exact Hy | repeat constructor; exact Hyx].
Qed.

Lemma StronglySorted_rev {A : Type} (R : A -> A -> Prop) (l : list A) :
  StronglySorted R l -> StronglySorted (fun x y => R y x) (rev l).
Proof.
  intros Hs. induction Hs as [|x l Hs IH Hx]; simpl; [constructor|].
  apply StronglySorted_snoc; [exact IH|].
  rewrite Forall_forall in Hx |- *. intros y Hy. apply Hx. apply in_rev. exact Hy.
Qed.

Lemma StronglySorted_impl {A : Type} (R S : A -> A -> Prop) (l : list A) :
  (forall x y, In x l -> In y l -> R x y -> S x y) ->
  StronglySorted R l -> StronglySorted S l.
Proof.
  intros HRS Hs. induction Hs as [|x l Hs IH Hx]; [constructor|].
  constructor.
  - apply IH. intros a b Ha Hb. apply HRS; right; assumption.
  - rewrite Forall_forall in Hx |- *. intros y Hy.
    apply HRS; [left; reflexivity | right; exact Hy | apply Hx; exact Hy].
Qed.

(** In a strongly sorted list an element is related to those after it. *)
Lemma StronglySorted_before {A : Type} (R : A -> A -> Prop) (l1 l2 l3 : list A) (x y : A) :
  StronglySorted R (l1 ++ x :: l2 ++ y :: l3) -> R x y.
Proof.
  induction l1 as [|z l1 IH]; simpl; intros Hs.
  - inversion Hs as [|? ? _ Hx]; subst.
    rewrite Forall_forall in Hx. apply Hx. apply in_or_app. right. left. reflexivity.
  - inversion Hs; subst. apply IH. assumption.
Qed.

(** An element goes into a strongly sorted list between the elements
    related to it and those it is related to. *)
Lemma StronglySorted_insert {A : Type} (R : A -> A -> Prop) (l1 l2 : list A) (x : A) :
  StronglySorted R (l1 ++ l2) -> Forall (fun y => R y x) l1 -> Forall (R x) l2 ->
  StronglySorted R (l1 ++ x :: l2).
Proof.
  induction l1 as [|y l1 IH]; simpl; intros Hs H1 H2.
  - constructor; assumption.
  - inversion Hs as [|? ? Hs' Hy]; subst. inversion H1 as [|? ? Hyx H1']; subst.
    constructor; [apply IH; assumption|].
    apply Forall_app in Hy. destruct Hy as [Hy1 Hy2].
    apply Forall_app. split; [exact Hy1 | constructor; assumption].
Qed.

Lemma in_firstn_nth {A : Type} (n : nat) (l : list A) (y : A) :
  In y (firstn n l) -> exists i, i < n /\ nth_error l i = Some y.
Proof.
  intros Hin. apply In_nth_error in Hin. destruct Hin as [i Hi].
  rewrite nth_error_firstn in Hi. destruct (Nat.ltb_spec i n) as [Hlt|_]; [|discriminate Hi].
  exists i. split; assumption.
Qed.

Lemma in_skipn_nth {A : Type} (n : nat) (l : list A) (y : A) :
  In y (skipn n l) -> exists i, n <= i /\ nth_error l i = Some y.
Proof.
  intros Hin. apply In_nth_error in Hin. destruct Hin as [i Hi].
  rewrite nth_error_skipn in Hi. exists (n + i). split; [lia | exact Hi].
Qed.

Section SortingFacts.

Context {A : Type}.
Variable lt : A -> A -> bool.

(** The sorted list has the elements of the list, each as often. *)

Lemma ascending_run_app (prev : A) (l : list A) :
  fst (ascending_run lt prev l) ++ snd (ascending_run lt prev l) = l.
Proof.
  revert prev. induction l as [|x l IH]; intros prev; simpl; [reflexivity|].
  destruct (lt x prev); [reflexivity|].
  specialize (IH x). destruct (ascending_run lt x l) as [run rest]. simpl in *.
  rewrite IH. reflexivity.
Qed.

Lemma descending_run_app (prev : A) (l : list A) :
  fst (descending_run lt prev l) ++ snd (descending_run lt prev l) = l.
Proof.
  revert prev. induction l as [|x l IH]; intros prev; simpl; [reflexivity|].
  destruct (lt x prev); [|reflexivity].
  specialize (IH x). destruct (descending_run lt x l) as [run rest]. simpl in *.
  rewrite IH. reflexivity.
Qed.

Lemma count_run_perm (l : list A) :
  Permutation (fst (count_run lt l) ++ snd (count_run lt l)) l.
Proof.
  destruct l as [|x [|y l]]; simpl; [reflexivity | reflexivity |].
  destruct (lt y x).
  - pose proof (descending_run_app y l) as H.
    destruct (descending_run lt y l) as [run rest]. simpl in *.
    rewrite <- H.
    change (x :: y :: run ++ rest) with ((x :: y :: run) ++ rest).
    apply Permutation_app_tail. symmetry.
    apply (Permutation_rev (x :: y :: run)).
  - pose proof (ascending_run_app y l) as H.
    destruct (ascending_run lt y l) as [run rest]. simpl in *.
    rewrite H. reflexivity.
Qed.

Lemma insert_sorted_perm (x : A) (l : list A) : Permutation (insert_sorted lt x l) (x :: l).
Proof.
  unfold insert_sorted. symmetry.
  rewrite <- (firstn_skipn (bisect lt (List.length l) x l 0 (List.length l)) l) at 1.
  apply Permutation_middle.
Qed.

Lemma binarysort_perm (run rest : list A) :
  Permutation (binarysort lt run rest) (run ++ rest).
Proof.
  unfold binarysort. revert run. induction rest as [|x rest IH]; intros run; simpl.
  - rewrite app_nil_r. reflexivity.
  - rewrite IH, insert_sorted_perm. apply Permutation_middle.
Qed.

Lemma sorted_perm (l : list A) : Permutation (sorted lt l) l.
Proof.
  unfold sorted. pose proof (count_run_perm l) as H.
  destruct (count_run lt l) as [run rest]. simpl in H.
  rewrite binarysort_perm. exact H.
Qed.

Lemma sorted_reverse_perm (l : list A) : Permutation (sorted_reverse lt l) l.
Proof.
  unfold sorted_reverse. rewrite <- Permutation_rev, sorted_perm, <- Permutation_rev.
  reflexivity.
Qed.

(** Where [<] is a strict weak order: the elements the program sorts. *)
Variable dom : A -> Prop.
Hypothesis lt_asym : forall x y, dom x -> dom y -> lt x y = true -> lt y x = false.
Hypothesis lt_cotrans :
  forall x y z, dom x -> dom y -> dom z ->
                lt x y = true -> lt x z = true \/ lt z y = true.

Lemma lt_trans (x y z : A) :
  dom x -> dom y -> dom z -> lt x y = true -> lt y z = true -> lt x z = true.
Proof.
  intros Hx Hy Hz Hxy Hyz.
  destruct (lt_cotrans x y z Hx Hy Hz Hxy) as [H|H]; [exact H|].
  rewrite (lt_asym y z Hy Hz Hyz) in H. discriminate H.
Qed.

Lemma not_lt_trans (x y z : A) :
  dom x -> dom y -> dom z -> lt y x = false -> lt z y = false -> lt z x = false.
Proof.
  intros Hx Hy Hz Hyx Hzy. destruct (lt z x) eqn:Hzx; [|reflexivity].
  destruct (lt_cotrans z x y Hz Hx Hy Hzx) as [H|H]; congruence.
Qed.

Lemma ascending_cons (p x : A) (l : list A) :
  dom p -> dom x -> Forall dom l ->
  lt x p = false -> ascending lt (x :: l) -> ascending lt (p :: x :: l).
Proof.
  intros Hp Hx Hl Hxp Hs. constructor; [exact Hs|].
  inversion Hs as [|? ? _ Hall]; subst.
  constructor; [exact Hxp|].
  rewrite Forall_forall in Hall, Hl |- *. intros y Hy.
  apply (not_lt_trans p x y); auto.
Qed.

Lemma ascending_run_ascending (prev : A) (l : list A) :
  dom prev -> Forall dom l ->
  ascending lt (prev :: fst (ascending_run lt prev l))
  /\ Forall dom (fst (ascending_run lt prev l)).
Proof.
  revert prev. induction l as [|x l IH]; intros prev Hp Hl; simpl.
  - split; repeat constructor.
  - inversion Hl as [|? ? Hx Hl']; subst.
    destruct (lt x prev) eqn:Hxp; simpl.
    + split; repeat constructor.
    + destruct (IH x Hx Hl') as [Hs Hd].
      destruct (ascending_run lt x l) as [run rest]. simpl in *.
      split; [|constructor; assumption].
      apply ascending_cons; assumption.
Qed.

(** A strictly descending run: every element is less than those before
    it. *)
Lemma descending_run_descending (prev : A) (l : list A) :
  dom prev -> Forall dom l ->
  StronglySorted (fun a b => lt b a = true) (prev :: fst (descending_run lt prev l))
  /\ Forall dom (fst (descending_run lt prev l)).
Proof.
  revert prev. induction l as [|x l IH]; intros prev Hp Hl; simpl.
  - split; repeat constructor.
  - inversion Hl as [|? ? Hx Hl']; subst.
    destruct (lt x prev) eqn:Hxp; simpl.
    + destruct (IH x Hx Hl') as [Hs Hd].
      destruct (descending_run lt x l) as [run rest]. simpl in *.
      split; [|constructor; assumption].
      constructor; [exact Hs|].
      inversion Hs as [|? ? _ Hall]; subst.
      constructor; [exact Hxp|].
      rewrite Forall_forall in Hall, Hd |- *. intros y Hy.
      apply (lt_trans y x prev); auto.
    + split; repeat constructor.
Qed.

Lemma count_run_ascending (l : list A) :
  Forall dom l -> ascending lt (fst (count_run lt l)).
Proof.
  intros Hl. destruct l as [|x [|y l]]; simpl; try (repeat constructor).
  inversion Hl as [|? ? Hx Hl']; subst. inversion Hl' as [|? ? Hy Hl'']; subst.
  destruct (lt y x) eqn:Hyx.
  - destruct (descending_run_descending y l Hy Hl'') as [Hs Hd].
    destruct (descending_run lt y l) as [run rest]. simpl in *.
    assert (Hall : StronglySorted (fun a b => lt b a = true) (x :: y :: run)).
    { constructor; [exact Hs|].
      inversion Hs as [|? ? _ Hrun]; subst.
      constructor; [exact Hyx|].
      rewrite Forall_forall in Hrun, Hd |- *. intros z Hz.
      apply (lt_trans z y x); auto. }
    apply StronglySorted_rev in Hall.
    change (rev run ++ [y]) with (rev (y :: run)).
    change (rev (y :: run) ++ [x]) with (rev (x :: y :: run)).
    revert Hall. apply StronglySorted_impl.
    intros a b Ha Hb Hab. apply lt_asym; [| |exact Hab].
    + apply in_rev in Ha. rewrite Forall_forall in Hd.
      destruct Ha as [<-|[<-|Ha]]; auto.
    + apply in_rev in Hb. rewrite Forall_forall in Hd.
      destruct Hb as [<-|[<-|Hb]]; auto.
  - destruct (ascending_run_ascending y l Hy Hl'') as [Hs Hd].
    destruct (ascending_run lt y l) as [run rest]. simpl in *.
    apply ascending_cons; auto.
Qed.

Lemma ascending_nth (a : list A) (i j : nat) (x y : A) :
  ascending lt a -> i < j -> nth_error a i = Some x -> nth_error a j = Some y ->
  lt y x = false.
Proof.
  intros Hs. revert i j. induction Hs as [|z a Hs IH Hz]; intros i j Hij Hi Hj.
  - destruct i; discriminate Hi.
  - destruct j as [|j]; [lia|]. simpl in Hj. destruct i as [|i]; simpl in Hi.
    + injection Hi as <-. rewrite Forall_forall in Hz. apply Hz.
      eapply nth_error_In. exact Hj.
    + apply (IH i j); [lia | exact Hi | exact Hj].
Qed.

(** The place the binary search finds in an ascending list: [pivot] is
    less than no element before it, and less than every element from it
    on. *)
Lemma bisect_place (pivot : A) (a : list A) :
  dom pivot -> Forall dom a -> ascending lt a ->
  forall fuel l r,
    l <= r -> r <= List.length a -> r - l <= fuel ->
    (forall i y, i < l -> nth_error a i = Some y -> lt pivot y = false) ->
    (forall i y, r <= i -> nth_error a i = Some y -> lt pivot y = true) ->
    (forall i y, i < bisect lt fuel pivot a l r -> nth_error a i = Some y ->
                 lt pivot y = false)
    /\ (forall i y, bisect lt fuel pivot a l r <= i -> nth_error a i = Some y ->
                    lt pivot y = true).
Proof.
  intros Hp Ha Hs. rewrite Forall_forall in Ha.
  induction fuel as [|fuel IH]; intros l r Hlr Hr Hfuel Hlow Hhigh; cbn [bisect].
  - assert (l = r) by lia. subst. split; assumption.
  - destruct (Nat.ltb_spec l r) as [Hlt|Hge].
    + assert (Hhalf : (r - l) / 2 < r - l) by (apply Nat.div_lt; lia).
      set (p := l + (r - l) / 2) in *.
      assert (Hpr : p < r) by (unfold p; lia).
      assert (Hlp : l <= p) by (unfold p; lia).
      destruct (nth_error a p) as [y|] eqn:Hy.
      * assert (Hdy : dom y) by (apply Ha; eapply nth_error_In; exact Hy).
        destruct (lt pivot y) eqn:Hpy.
        -- apply IH; [lia | lia | lia | exact Hlow |].
           intros i z Hi Hz.
           destruct (Nat.eq_dec i p) as [->|Hne]; [congruence|].
           assert (Hdz : dom z) by (apply Ha; eapply nth_error_In; exact Hz).
           destruct (lt_cotrans pivot y z Hp Hdy Hdz Hpy) as [H|H]; [exact H|].
           rewrite (ascending_nth a p i y z Hs) in H; [discriminate H | lia | exact Hy | exact Hz].
        -- apply IH; [lia | lia | lia | | exact Hhigh].
           intros i z Hi Hz.
           destruct (Nat.eq_dec i p) as [->|Hne]; [congruence|].
           assert (Hdz : dom z) by (apply Ha; eapply nth_error_In; exact Hz).
           destruct (lt pivot z) eqn:Hpz; [|reflexivity].
           destruct (lt_cotrans pivot z y Hp Hdz Hdy Hpz) as [H|H]; [congruence|].
           rewrite (ascending_nth a i p z y Hs) in H; [discriminate H | lia | exact Hz | exact Hy].
      * exfalso. apply nth_error_None in Hy. lia.
    + assert (l = r) by lia. subst. split; assumption.
Qed.

Lemma insert_sorted_ascending (x : A) (l : list A) :
  dom x -> Forall dom l -> ascending lt l -> ascending lt (insert_sorted lt x l).
Proof.
  intros Hx Hl Hs. unfold insert_sorted.
  destruct (bisect_place x l Hx Hl Hs (List.length l) 0 (List.length l)) as [Hlow Hhigh];
    try lia.
  - intros i y Hi Hy. assert (Hn : nth_error l i <> None) by congruence.
    apply nth_error_Some in Hn. lia.
  - set (pos := bisect lt (List.length l) x l 0 (List.length l)) in *.
    apply StronglySorted_insert.
    + rewrite firstn_skipn. exact Hs.
    + rewrite Forall_forall. intros y Hy.
      apply in_firstn_nth in Hy. destruct Hy as (i & Hi & Hy). exact (Hlow i y Hi Hy).
    + rewrite Forall_forall. intros y Hy.
      apply in_skipn_nth in Hy. destruct Hy as (i & Hi & Hy).
      rewrite Forall_forall in Hl.
      apply lt_asym; [exact Hx | apply Hl; eapply nth_error_In; exact Hy | exact (Hhigh i y Hi Hy)].
Qed.

Lemma binarysort_ascending (run rest : list A) :
  Forall dom rest -> Forall dom run -> ascending lt run ->
  ascending lt (binarysort lt run rest).
Proof.
  unfold binarysort. revert run.
  induction rest as [|x rest IH]; intros run Hrest Hrun Hs; simpl; [exact Hs|].
  inversion Hrest as [|? ? Hx Hrest']; subst.
  apply IH; [exact Hrest' | | apply insert_sorted_ascending; assumption].
  apply (Permutation_Forall (Permutation_sym (insert_sorted_perm x run))).
  constructor; assumption.
Qed.

Lemma sorted_ascending (l : list A) : Forall dom l -> ascending lt (sorted lt l).
Proof.
  intros Hl. unfold sorted.
  pose proof (count_run_perm l) as Hperm. pose proof (count_run_ascending l Hl) as Hs.
  destruct (count_run lt l) as [run rest]. simpl in *.
  apply (Permutation_Forall (Permutation_sym Hperm)) in Hl.
  apply Forall_app in Hl. destruct Hl as [Hrun Hrest].
  apply binarysort_ascending; assumption.
Qed.

Lemma last_item_in (l : list A) (m : A) : last_item l = Some m -> In m l.
Proof.
  induction l as [|x l IH]; simpl; [discriminate|].
  destruct l as [|y l'].
  - intros H. injection H as <-. left. reflexivity.
  - intros H. right. apply IH. exact H.
Qed.

(** The last element of an ascending lt list is less than none of them. *)
Lemma ascending_last (l : list A) (m : A) :
  Forall dom l -> ascending lt l -> last_item l = Some m ->
  forall x, In x l -> lt m x = false.
Proof.
  intros Hd Hs. induction Hs as [|y l Hs IH Hy]; simpl; [discriminate|].
  inversion Hd as [|? ? Hdy Hdl]; subst.
  destruct l as [|z l'].
  - intros H x [<-|[]]. injection H as <-.
    destruct (lt y y) eqn:Hyy; [|reflexivity].
    rewrite (lt_asym y y Hdy Hdy Hyy) in Hyy. discriminate Hyy.
  - intros H x [<-|Hx].
    + rewrite Forall_forall in Hy. apply Hy. apply last_item_in. exact H.
    + apply IH; assumption.
Qed.

(** Two ascending lists with the same elements, no two of which are
    equivalent, are the same list: the sorted list does not depend on
    the order of the list sorted. *)
Lemma ascending_unique (l1 l2 : list A) :
  (forall x y, In x l1 -> In y l1 -> lt x y = false -> lt y x = false -> x = y) ->
  Permutation l1 l2 -> ascending lt l1 -> ascending lt l2 -> l1 = l2.
Proof.
  revert l2. induction l1 as [|x l1 IH]; intros l2 Hsep Hperm Hs1 Hs2.
  - apply Permutation_nil in Hperm. symmetry. exact Hperm.
  - destruct l2 as [|y l2]; [apply Permutation_sym, Permutation_nil in Hperm; discriminate|].
    inversion Hs1 as [|? ? Hs1' Hx]; subst. inversion Hs2 as [|? ? Hs2' Hy]; subst.
    rewrite Forall_forall in Hx, Hy.
    assert (Heq : x = y).
    { assert (Hyin : In y (x :: l1))
        by (apply (Permutation_in _ (Permutation_sym Hperm)); left; reflexivity).
      assert (Hxin : In x (y :: l2)) by (apply (Permutation_in _ Hperm); left; reflexivity).
      destruct Hyin as [Hyx|Hyin]; [exact Hyx|].
      destruct Hxin as [Hxy|Hxin]; [symmetry; exact Hxy|].
      apply Hsep; [left; reflexivity | right; exact Hyin | apply Hy; exact Hxin
                  | apply Hx; exact Hyin]. }
    subst y. f_equal. apply IH.
    + intros a b Ha Hb. apply Hsep; right; assumption.
    + eapply Permutation_cons_inv. exact Hperm.
    + exact Hs1'.
    + exact Hs2'.
Qed.

End SortingFacts.

(** [sorted(..., reverse=True)]: no earlier element is less than a later
    one. *)
Lemma sorted_reverse_descending {A : Type} (lt : A -> A -> bool) (dom : A -> Prop)
  (l : list A) :
  (forall x y, dom x -> dom y -> lt x y = true -> lt y x = false) ->
  (forall x y z, dom x -> dom y -> dom z ->
                 lt x y = true -> lt x z = true \/ lt z y = true) ->
  Forall dom l -> descending lt (sorted_reverse lt l).
Proof.
  intros Hasym Hcotrans Hl. unfold sorted_reverse, descending.
  apply (StronglySorted_rev (fun x y => lt y x = false)).
  apply (sorted_ascending lt dom Hasym Hcotrans).
  apply Forall_rev. exact Hl.
Qed.

(** ** The target month *)

Lemma last_item_some {A : Type} (l : list A) : l <> [] -> exists m, last_item l = Some m.
Proof.
  induction l as [|x l IH]; [contradiction|]. intros _.
  destruct l as [|y l'].
  - exists x. reflexivity.
  - destruct IH as [m Hm]; [discriminate|]. exists m. exact Hm.
Qed.

Lemma is_known_iff (k : string) : is_known k = true <-> k <> "unknown".
Proof. unfold is_known. rewrite negb_true_iff. apply String.eqb_neq. Qed.

Lemma some_known_iff (ks : list string) :
  existsb is_known ks = true <-> exists k, In k ks /\ k <> "unknown".
Proof.
  rewrite existsb_exists. split; intros [k [Hin Hk]]; exists k; split; auto;
    apply is_known_iff; exact Hk.
Qed.

(** The key [latest_key] picks when some key is not ["unknown"]: such a
    key, and the greatest of them. *)
Lemma latest_key_known (monthly : dict summary) :
  existsb is_known (keys monthly) = true ->
  exists k, latest_key monthly = Some k
            /\ In k (keys monthly) /\ k <> "unknown"
            /\ forall k', In k' (keys monthly) -> k' <> "unknown" -> String.leb k' k = true.
Proof.
  intros Hsome. unfold latest_key. rewrite Hsome.
  set (known := filter is_known (keys monthly)).
  assert (Hperm : Permutation (sorted String.ltb known) known) by apply sorted_perm.
  assert (Hne : sorted String.ltb known <> []).
  { intros Hnil. rewrite Hnil in Hperm. apply Permutation_nil in Hperm.
    apply some_known_iff in Hsome. destruct Hsome as [k [Hin Hk]].
    assert (Hk' : In k known) by (apply filter_In; split; [exact Hin | apply is_known_iff; exact Hk]).
    rewrite Hperm in Hk'. exact Hk'. }
  destruct (last_item_some _ Hne) as [k Hlast]. exists k. split; [exact Hlast|].
  assert (Hin : In k known).
  { apply (Permutation_in _ Hperm). apply last_item_in. exact Hlast. }
  apply filter_In in Hin. destruct Hin as [Hin Hk].
  split; [exact Hin|]. split; [apply is_known_iff; exact Hk|].
  intros k' Hin' Hk'. apply string_leb_of_not_ltb.
  assert (Hall : forall l : list string, Forall all_text l)
    by (intros l; rewrite Forall_forall; intros x _; exact I).
  apply (ascending_last String.ltb all_text
           (fun x y _ _ => string_ltb_asym x y) (sorted String.ltb known)).
  - apply Hall.
  - apply (sorted_ascending String.ltb all_text
             (fun x y _ _ => string_ltb_asym x y)
             (fun x y z _ _ _ => string_ltb_cotrans x y z)).
    apply Hall.
  - exact Hlast.
  - apply (Permutation_in _ (Permutation_sym Hperm)).
    apply filter_In. split; [exact Hin' | apply is_known_iff; exact Hk'].
Qed.

(** The key it picks when every key is ["unknown"]: the last key. *)
Lemma latest_key_unknown (monthly : dict summary) :
  monthly <> [] -> existsb is_known (keys monthly) = false ->
  exists k, latest_key monthly = Some k
            /\ last_item (keys monthly) = Some k /\ In k (keys monthly) /\ k = "unknown".
Proof.
  intros Hne Hnone. unfold latest_key. rewrite Hnone.
  assert (Hk : keys monthly <> []) by (destruct monthly; [contradiction | discriminate]).
  destruct (last_item_some _ Hk) as [k Hlast]. exists k.
  assert (Hin : In k (keys monthly)) by (apply last_item_in; exact Hlast).
  repeat split; try assumption.
  destruct (String.eqb_spec k "unknown") as [Heq|Hneq]; [exact Heq|].
  assert (Hex : existsb is_known (keys monthly) = true)
    by (apply some_known_iff; exists k; split; assumption).
  congruence.
Qed.

Lemma latest_key_in (monthly : dict summary) :
  monthly <> [] -> exists k, latest_key monthly = Some k /\ In k (keys monthly).
Proof.
  intros Hne. destruct (existsb is_known (keys monthly)) eqn:He.
  - destruct (latest_key_known monthly He) as (k & Hk & Hin & _). exists k. auto.
  - destruct (latest_key_unknown monthly Hne He) as (k & Hk & _ & Hin & _). exists k. auto.
Qed.

(** The advice is the advice on the entry of the target month. *)
Lemma recommend_budget_target (monthly : dict summary) (target_savings : float) :
  monthly <> [] ->
  exists k data,
    latest_key monthly = Some k /\ dict_get monthly k = Some data
    /\ recommend_budget monthly target_savings
       = Return (spending_suggestions data ++ savings_suggestions data target_savings).
Proof.
  intros Hne. destruct (latest_key_in monthly Hne) as (k & Hk & Hin).
  apply dict_get_in_keys in Hin. destruct Hin as [data Hdata].
  exists k, data. split; [exact Hk|]. split; [exact Hdata|].
  unfold recommend_budget. destruct monthly as [|kv m]; [contradiction|].
  rewrite Hk. cbv beta iota delta [bind]. rewrite Hdata. reflexivity.
Qed.

(** C6: on summaries that are not empty the advice is about one month,
    whose key is a key of the mapping: when some key is not ["unknown"],
    a key that is not ["unknown"] and that no such key exceeds in the
    order of text; when every key is ["unknown"], the last key, which
    is ["unknown"]; and the only key when there is one. *)
Theorem recommend_budget_targets_latest_month
  (monthly : dict summary) (target_savings : float) :
  monthly <> [] ->
  exists k data,
    latest_key monthly = Some k
    /\ In k (keys monthly)
    /\ dict_get monthly k = Some data
    /\ recommend_budget monthly target_savings
       = Return (spending_suggestions data ++ savings_suggestions data target_savings)
    /\ ((exists k', In k' (keys monthly) /\ k' <> "unknown") ->
          k <> "unknown"
          /\ forall k', In k' (keys monthly) -> k' <> "unknown" -> String.leb k' k = true)
    /\ ((forall k', In k' (keys monthly) -> k' = "unknown") ->
          last_item (keys monthly) = Some k /\ k = "unknown")
    /\ (forall k1 v1, monthly = [(k1, v1)] -> k = k1 /\ data = v1).
Proof.
  intros Hne.
  destruct (recommend_budget_target monthly target_savings Hne) as (k & data & Hk & Hd & Hr).
  exists k, data. split; [exact Hk|].
  split; [apply dict_get_in_keys; exists data; exact Hd|].
  split; [exact Hd|]. split; [exact Hr|]. split; [|split].
  - intros Hex. apply some_known_iff in Hex.
    destruct (latest_key_known monthly Hex) as (k0 & Hk0 & _ & Hknown & Hmax).
    assert (E : k0 = k) by congruence. rewrite E in *. split; assumption.
  - intros Hall.
    assert (He : existsb is_known (keys monthly) = false).
    { destruct (existsb is_known (keys monthly)) eqn:He; [|reflexivity].
      apply some_known_iff in He. destruct He as [k' [Hin Hk']].
      exfalso. apply Hk'. apply Hall. exact Hin. }
    destruct (latest_key_unknown monthly Hne He) as (k0 & Hk0 & Hlast & _ & Hu).
    assert (E : k0 = k) by congruence. rewrite E in *. split; assumption.
  - intros k1 v1 Hm. rewrite Hm in Hd. simpl in Hd.
    destruct (String.eqb_spec k k1) as [Heq|_]; [|discriminate Hd].
    split; [exact Heq | congruence].
Qed.

Lemma recommend_budget_targets_latest_month_witness :
  exists k data,
    latest_key three_months = Some k
    /\ In k (keys three_months)
    /\ dict_get three_months k = Some data
    /\ recommend_budget three_months 0%float
       = Return (spending_suggestions data ++ savings_suggestions data 0%float)
    /\ ((exists k', In k' (keys three_months) /\ k' <> "unknown") ->
          k <> "unknown"
          /\ forall k', In k' (keys three_months) -> k' <> "unknown" -> String.leb k' k = true)
    /\ ((forall k', In k' (keys three_months) -> k' = "unknown") ->
          last_item (keys three_months) = Some k /\ k = "unknown")
    /\ (forall k1 v1, three_months = [(k1, v1)] -> k = k1 /\ data = v1).
Proof.
  apply (recommend_budget_targets_latest_month three_months 0%float).
  discriminate.
Defined.

Example latest_key_three_months : latest_key three_months = Some "2025-01".
Proof. reflexivity. Qed.

(** ** The ranking of the categories *)

Lemma pair_lt_asym (x y : float * string) : pair_lt x y = true -> pair_lt y x = false.
Proof.
  unfold pair_lt. destruct (PrimFloat.eqb (fst x) (fst y)) eqn:Exy; intros Hxy.
  - rewrite (FloatOrder.eqb_sym _ _ Exy). apply string_ltb_asym. exact Hxy.
  - destruct (PrimFloat.eqb (fst y) (fst x)) eqn:Eyx.
    + rewrite (FloatOrder.eqb_sym _ _ Eyx) in Exy. discriminate Exy.
    + apply FloatOrder.ltb_asym. exact Hxy.
Qed.

Lemma eqb_congruent (x y z : float) :
  PrimFloat.eqb x y = true -> PrimFloat.eqb x z = PrimFloat.eqb y z.
Proof.
  intros Exy. destruct (PrimFloat.eqb y z) eqn:Eyz.
  - exact (FloatOrder.eqb_trans _ _ _ Exy Eyz).
  - destruct (PrimFloat.eqb x z) eqn:Exz; [|reflexivity].
    rewrite (FloatOrder.eqb_trans _ _ _ (FloatOrder.eqb_sym _ _ Exy) Exz) in Eyz.
    discriminate Eyz.
Qed.

(** On pairs whose floats are numbers [<] is a strict weak order: of two
    pairs of which one is less than the other, any pair is greater than
    the one or less than the other. *)
Lemma pair_lt_cotrans (x y z : float * string) :
  not_nan (fst x) -> not_nan (fst y) -> not_nan (fst z) ->
  pair_lt x y = true -> pair_lt x z = true \/ pair_lt z y = true.
Proof.
  intros Hx Hy Hz. unfold pair_lt.
  destruct (PrimFloat.eqb (fst x) (fst z)) eqn:Exz.
  - rewrite <- (eqb_congruent _ _ (fst y) Exz), <- (FloatOrder.eqb_ltb_l _ _ (fst y) Exz).
    destruct (PrimFloat.eqb (fst x) (fst y)).
    + apply string_ltb_cotrans.
    + intros H. right. exact H.
  - destruct (PrimFloat.ltb (fst x) (fst z)) eqn:Lxz; [intros _; left; reflexivity|].
    pose proof (FloatOrder.total _ _ Hx Hz Lxz Exz) as Lzx. intros Hxy. right.
    assert (Lzy : PrimFloat.ltb (fst z) (fst y) = true).
    { destruct (PrimFloat.eqb (fst x) (fst y)) eqn:Exy.
      - rewrite <- (FloatOrder.eqb_ltb_r _ _ (fst z) Exy). exact Lzx.
      - exact (FloatOrder.ltb_trans _ _ _ Lzx Hxy). }
    destruct (PrimFloat.eqb (fst z) (fst y)) eqn:Ezy; [|exact Lzy].
    rewrite (FloatOrder.eqb_not_ltb _ _ Ezy) in Lzy. discriminate Lzy.
Qed.

Lemma abs_items_not_nan (by_cat : dict float) :
  no_nan by_cat = true -> Forall (fun x => not_nan (fst x)) (abs_items by_cat).
Proof.
  unfold no_nan, abs_items. rewrite forallb_forall, Forall_forall.
  intros H x Hx. apply in_map_iff in Hx. destruct Hx as [kv [<- Hkv]]. simpl.
  apply FloatOrder.abs_not_nan. apply negb_true_iff. apply H. exact Hkv.
Qed.

Lemma not_less_at_least (x y : float * string) :
  not_nan (fst x) -> not_nan (fst y) ->
  pair_lt x y = false -> at_least x y.
Proof.
  unfold pair_lt, at_least. intros Hx Hy.
  destruct (PrimFloat.eqb (fst x) (fst y)) eqn:Exy; intros Hlt.
  - apply FloatOrder.leb_of_eqb. exact Exy.
  - apply FloatOrder.leb_of_ltb. apply FloatOrder.total; assumption.
Qed.

Lemma ranking_perm (by_cat : dict float) : Permutation (ranking by_cat) (abs_items by_cat).
Proof. apply sorted_reverse_perm. Qed.

Lemma ranking_descending (by_cat : dict float) :
  no_nan by_cat = true -> descending pair_lt (ranking by_cat).
Proof.
  intros Hnan. apply (sorted_reverse_descending pair_lt (fun x => not_nan (fst x))).
  - intros x y _ _. apply pair_lt_asym.
  - apply pair_lt_cotrans.
  - apply abs_items_not_nan. exact Hnan.
Qed.

Lemma ranking_at_least (by_cat : dict float) :
  no_nan by_cat = true -> StronglySorted at_least (ranking by_cat).
Proof.
  intros Hnan.
  assert (Hdom : forall x, In x (ranking by_cat) -> not_nan (fst x)).
  { intros x Hx. apply (Permutation_in _ (ranking_perm by_cat)) in Hx.
    pose proof (abs_items_not_nan by_cat Hnan) as H. rewrite Forall_forall in H.
    apply H. exact Hx. }
  apply (StronglySorted_impl (fun x y => pair_lt x y = false)).
  - intros x y Hx Hy. apply not_less_at_least; apply Hdom; assumption.
  - apply ranking_descending. exact Hnan.
Qed.

Lemma top_spend_ranking (by_cat : dict float) :
  ranking by_cat = top_spend by_cat ++ skipn 3 (ranking by_cat).
Proof. unfold top_spend. fold (ranking by_cat). symmetry. apply firstn_skipn. Qed.

Lemma top_spend_length (by_cat : dict float) :
  List.length (top_spend by_cat) = Nat.min 3 (List.length by_cat).
Proof.
  unfold top_spend. fold (ranking by_cat). rewrite length_firstn.
  rewrite (Permutation_length (ranking_perm by_cat)).
  unfold abs_items. rewrite length_map. reflexivity.
Qed.

Lemma abs_items_labels (by_cat : dict float) : map snd (abs_items by_cat) = keys by_cat.
Proof.
  unfold abs_items, keys. rewrite map_map. reflexivity.
Qed.

Lemma nodup_map_injective {A B : Type} (f : A -> B) (l : list A) (x y : A) :
  NoDup (map f l) -> In x l -> In y l -> f x = f y -> x = y.
Proof.
  induction l as [|a l IH]; simpl; intros Hnd Hx Hy Hf; [contradiction|].
  inversion Hnd as [|? ? Hnotin Hnd']; subst.
  destruct Hx as [<-|Hx], Hy as [<-|Hy]; auto.
  - exfalso. apply Hnotin. rewrite Hf. apply in_map. exact Hy.
  - exfalso. apply Hnotin. rewrite <- Hf. apply in_map. exact Hx.
Qed.

(** Two items of a month, no subtotal being NaN, neither of which is
    less than the other are the same item. *)
Lemma abs_items_separated (by_cat : dict float) (x y : float * string) :
  NoDup (keys by_cat) -> no_nan by_cat = true ->
  In x (abs_items by_cat) -> In y (abs_items by_cat) ->
  pair_lt x y = false -> pair_lt y x = false -> x = y.
Proof.
  intros Hnd Hnan Hx Hy Hxy Hyx.
  pose proof (abs_items_not_nan by_cat Hnan) as Hnum. rewrite Forall_forall in Hnum.
  apply (nodup_map_injective snd (abs_items by_cat)); try assumption.
  - rewrite abs_items_labels. exact Hnd.
  - unfold pair_lt in Hxy, Hyx.
    destruct (PrimFloat.eqb (fst x) (fst y)) eqn:Exy.
    + rewrite (FloatOrder.eqb_sym _ _ Exy) in Hyx.
      destruct (String.eqb_spec (snd x) (snd y)) as [E|E]; [exact E|].
      rewrite (string_ltb_total _ _ Hxy E) in Hyx. discriminate Hyx.
    + pose proof (FloatOrder.total _ _ (Hnum x Hx) (Hnum y Hy) Hxy Exy) as Lyx.
      destruct (PrimFloat.eqb (fst y) (fst x)) eqn:Eyx.
      * rewrite (FloatOrder.eqb_sym _ _ Eyx) in Exy. discriminate Exy.
      * congruence.
Qed.

Lemma no_nan_perm (d d' : dict float) :
  Permutation d' d -> no_nan d = true -> no_nan d' = true.
Proof.
  unfold no_nan. rewrite !forallb_forall. intros Hperm H x Hx.
  apply H. apply (Permutation_in _ Hperm). exact Hx.
Qed.

(** The ranking of a month, no subtotal being NaN, does not depend on
    the order in which the categories were met. *)
Lemma ranking_order_free (d d' : dict float) :
  NoDup (keys d) -> no_nan d = true -> Permutation d' d -> ranking d' = ranking d.
Proof.
  intros Hnd Hnan Hperm. unfold ranking, sorted_reverse. f_equal.
  assert (Hitems : Permutation (abs_items d') (abs_items d))
    by (unfold abs_items; apply Permutation_map; exact Hperm).
  assert (Hsorted : forall e, no_nan e = true ->
                      ascending pair_lt (sorted pair_lt (rev (abs_items e)))).
  { intros e He. apply (sorted_ascending pair_lt (fun x => not_nan (fst x))).
    - intros x y _ _. apply pair_lt_asym.
    - apply pair_lt_cotrans.
    - apply Forall_rev. apply abs_items_not_nan. exact He. }
  assert (Hin : forall e x, In x (sorted pair_lt (rev (abs_items e))) -> In x (abs_items e)).
  { intros e x Hx. apply (Permutation_in _ (sorted_perm pair_lt _)) in Hx.
    apply in_rev. exact Hx. }
  apply (ascending_unique pair_lt).
  - intros x y Hx Hy. apply (abs_items_separated d); try assumption.
    + apply (Permutation_in _ Hitems). apply Hin. exact Hx.
    + apply (Permutation_in _ Hitems). apply Hin. exact Hy.
  - rewrite !sorted_perm, <- !Permutation_rev. exact Hitems.
  - apply Hsorted. apply (no_nan_perm d); assumption.
  - apply Hsorted. exact Hnan.
Qed.

(** ** The claims about the advisor *)

Example recommend_budget_overspent_month :
  recommend_budget overspent_month 0%float
  = Return [ "Consider reducing spending on Dining by about $80.00 per month.";
             "Consider reducing spending on Fun by about $40.00 per month." ].
Proof. vm_compute. reflexivity. Qed.

(** Without summaries the advice is the one line that says so. *)
Example recommend_budget_no_data (target_savings : float) :
  recommend_budget [] target_savings = Return ["No data to produce recommendation."].
Proof. reflexivity. Qed.

(** C5, as stated, fails when a subtotal is NaN: [<] is no order then,
    and what [sorted] returns is no ranking by absolute subtotal.  For
    the subtotals [C: -10], [B: -20], [A: nan], [D: -30] of a month
    whose total is [-600] the suggestions name [B], [C] and [A], in this
    order, and leave out [D], whose absolute subtotal is the largest. *)
Lemma nan_subtotal_drops_largest_category :
  recommend_budget nan_month 0%float
  = Return [ "Consider reducing spending on B by about $4.00 per month.";
             "Consider reducing spending on C by about $2.00 per month.";
             "Consider reducing spending on A by about $nan per month." ]
  /\ abs_items nan_subtotals
     = [ (10%float, "C"); (20%float, "B"); (nan, "A"); (30%float, "D") ]
  /\ top_spend nan_subtotals = [ (20%float, "B"); (10%float, "C"); (nan, "A") ]
  /\ PrimFloat.ltb 20%float 30%float = true.
Proof. vm_compute. repeat split. Qed.

(** C5, amended: the advice starts with the suggestions about spending,
    then come those about savings (none unless [target_savings > 0]).
    When the total of the target month is less than [-500], the
    suggestions about spending are one for each of the first three (or
    fewer) entries of a ranking of all the month's categories, each
    naming the category and the float product of its absolute subtotal
    and [0.2], written with two decimals; when no subtotal is NaN, the
    ranking is by absolute subtotal, largest first.  Otherwise, and so
    at exactly [-500], there is the one suggestion that spending looks
    reasonable. *)
Theorem recommend_budget_overspend_branch
  (monthly : dict summary) (target_savings : float) (k : string) (data : summary) :
  latest_key monthly = Some k ->
  dict_get monthly k = Some data ->
  exists spending,
    recommend_budget monthly target_savings
    = Return (spending ++ savings_suggestions data target_savings)
    /\ (PrimFloat.ltb PrimFloat.zero target_savings = false ->
          savings_suggestions data target_savings = [])
    /\ (PrimFloat.ltb (total data) (-500)%float = true ->
          exists ranked,
            Permutation ranked
              (map (fun kv => (PrimFloat.abs (snd kv), fst kv)) (by_category data))
            /\ (no_nan (by_category data) = true -> StronglySorted at_least ranked)
            /\ spending
               = map (fun x =>
                        ("Consider reducing spending on " ++ snd x ++ " by about $"
                           ++ PyFloat.format_2f
                                (PrimFloat.mul (fst x) 0x1.999999999999ap-3%float)
                           ++ " per month.")%string)
                     (firstn 3 ranked))
    /\ (PrimFloat.ltb (total data) (-500)%float = false ->
          spending = ["Spending looks reasonable this month."])
    /\ (total data = (-500)%float ->
          spending = ["Spending looks reasonable this month."]).
Proof.
  intros Hk Hd. exists (spending_suggestions data).
  split; [|split; [|split; [|split]]].
  - unfold recommend_budget. destruct monthly as [|kv m]; [discriminate Hk|].
    rewrite Hk. cbv beta iota delta [bind]. rewrite Hd. reflexivity.
  - intros Hts. unfold savings_suggestions. rewrite Hts. reflexivity.
  - intros Hlt. unfold spending_suggestions.
    change PyFloat.minus_500 with (-500)%float. rewrite Hlt.
    exists (ranking (by_category data)).
    split; [apply ranking_perm|]. split; [apply ranking_at_least | reflexivity].
  - intros Hge. unfold spending_suggestions.
    change PyFloat.minus_500 with (-500)%float. rewrite Hge. reflexivity.
  - intros Heq. unfold spending_suggestions. rewrite Heq. reflexivity.
Qed.

(** The specification's Scenario 5, read off the theorem: the ranking of
    [Dining: -400] and [Fun: -200] has [Dining] first, and the
    suggestions name 80.00 and 40.00. *)
Lemma recommend_budget_overspend_branch_witness :
  recommend_budget overspent_month 0%float
  = Return [ "Consider reducing spending on Dining by about $80.00 per month.";
             "Consider reducing spending on Fun by about $40.00 per month." ].
Proof.
  destruct (recommend_budget_overspend_branch overspent_month 0%float "2025-03"
              (mksummary (-600)%float 2 [("Dining", (-400)%float); ("Fun", (-200)%float)])
              eq_refl eq_refl)
    as (spending & Hr & Hsave & Hover & _ & _).
  rewrite Hr, (Hsave eq_refl), app_nil_r. f_equal.
  destruct (Hover eq_refl) as (ranked & Hperm & Hsorted & ->).
  specialize (Hsorted eq_refl).
  apply Permutation_sym in Hperm. simpl in Hperm.
  apply Permutation_length_2_inv in Hperm.
  destruct Hperm as [-> | ->].
  - vm_compute. reflexivity.
  - exfalso. inversion Hsorted as [|? ? _ Hall]; subst.
    inversion Hall as [|? ? Hle _]; subst.
    vm_compute in Hle. discriminate Hle.
Defined.

Lemma nodup_apart {A : Type} (l1 l2 l3 : list A) (x y : A) :
  NoDup (l1 ++ x :: l2 ++ y :: l3) -> x <> y.
Proof.
  intros Hnd Heq. apply NoDup_remove_2 in Hnd. apply Hnd.
  apply in_or_app. right. apply in_or_app. right. left. symmetry. exact Heq.
Qed.

(** C10, as stated, fails when a subtotal is NaN: for the subtotals
    [X: -10], [A: nan], [Y: -10] of a month whose total is [-600] the
    suggestions name [X], [A] and [Y], in this order: [X] comes before
    [Y], which has the same absolute subtotal and the greater label. *)
Lemma nan_subtotal_keeps_tie_in_label_order :
  recommend_budget nan_tied_month 0%float
  = Return [ "Consider reducing spending on X by about $2.00 per month.";
             "Consider reducing spending on A by about $nan per month.";
             "Consider reducing spending on Y by about $2.00 per month." ]
  /\ top_spend nan_tied_subtotals = [ (10%float, "X"); (nan, "A"); (10%float, "Y") ]
  /\ String.ltb "X" "Y" = true.
Proof. vm_compute. repeat split. Qed.

(** C10, amended: when the labels of the target month's categories are
    distinct, as they are in a [dict], and no subtotal is NaN, then in
    the ranking of the suggestions, of two categories with equal
    absolute subtotals the one whose label is greater in the order of
    text comes first; and the suggestions about spending do not depend
    on the order in which [by_category] holds the categories. *)
Theorem recommend_budget_breaks_ties_by_label
  (monthly : dict summary) (target_savings : float) (k : string) (data : summary) :
  latest_key monthly = Some k ->
  dict_get monthly k = Some data ->
  NoDup (keys (by_category data)) ->
  no_nan (by_category data) = true ->
  (PrimFloat.ltb (total data) (-500)%float = true ->
     recommend_budget monthly target_savings
     = Return (map reduce_suggestion (top_spend (by_category data))
                 ++ savings_suggestions data target_savings))
  /\ (forall l1 x l2 y l3,
        top_spend (by_category data) = l1 ++ x :: l2 ++ y :: l3 ->
        PrimFloat.eqb (fst x) (fst y) = true ->
        String.ltb (snd y) (snd x) = true)
  /\ (forall by_cat',
        Permutation by_cat' (by_category data) ->
        top_spend by_cat' = top_spend (by_category data)
        /\ spending_suggestions (mksummary (total data) (count data) by_cat')
           = spending_suggestions data).
Proof.
  intros Hk Hd Hnd Hnan.
  assert (Hr : recommend_budget monthly target_savings
               = Return (spending_suggestions data ++ savings_suggestions data target_savings)).
  { unfold recommend_budget. destruct monthly as [|kv m]; [discriminate Hk|].
    rewrite Hk. cbv beta iota delta [bind]. rewrite Hd. reflexivity. }
  split; [|split].
  - intros Hlt. rewrite Hr. unfold spending_suggestions.
    change PyFloat.minus_500 with (-500)%float. rewrite Hlt. reflexivity.
  - intros l1 x l2 y l3 Htop Heq.
    pose proof (top_spend_ranking (by_category data)) as Hrank. rewrite Htop in Hrank.
    assert (Hshape : ranking (by_category data)
                     = l1 ++ x :: l2 ++ y :: (l3 ++ skipn 3 (ranking (by_category data)))).
    { rewrite Hrank at 1. rewrite <- !app_assoc. simpl. rewrite <- !app_assoc. reflexivity. }
    pose proof (ranking_descending (by_category data) Hnan) as Hdesc.
    unfold descending in Hdesc. rewrite Hshape in Hdesc.
    apply StronglySorted_before in Hdesc. unfold pair_lt in Hdesc. rewrite Heq in Hdesc.
    apply string_ltb_total; [exact Hdesc|].
    assert (Hlabels : NoDup (map snd (ranking (by_category data)))).
    { apply (Permutation_NoDup (l := map snd (abs_items (by_category data)))).
      - apply Permutation_map. apply Permutation_sym. apply ranking_perm.
      - rewrite abs_items_labels. exact Hnd. }
    rewrite Hshape in Hlabels. rewrite map_app in Hlabels. simpl in Hlabels.
    rewrite map_app in Hlabels. simpl in Hlabels.
    apply nodup_apart in Hlabels. exact Hlabels.
  - intros by_cat' Hperm.
    assert (Htop : top_spend by_cat' = top_spend (by_category data)).
    { unfold top_spend. fold (ranking by_cat'). fold (ranking (by_category data)).
      rewrite (ranking_order_free (by_category data) by_cat' Hnd Hnan Hperm). reflexivity. }
    split; [exact Htop|].
    unfold spending_suggestions. simpl. rewrite Htop. reflexivity.
Qed.

Example recommend_budget_tied_month :
  recommend_budget tied_month 0%float
  = Return [ "Consider reducing spending on Dining by about $80.00 per month.";
             "Consider reducing spending on Travel by about $40.00 per month.";
             "Consider reducing spending on Fun by about $40.00 per month." ].
Proof. vm_compute. reflexivity. Qed.

(** A month in which [Fun], [Books] and [Travel] are tied: [Travel]
    comes before [Fun], and [Books] is left out; and the suggestions are
    the same when [by_category] holds the categories in another order. *)
Lemma recommend_budget_breaks_ties_by_label_witness :
  recommend_budget tied_month 0%float
  = Return [ "Consider reducing spending on Dining by about $80.00 per month.";
             "Consider reducing spending on Travel by about $40.00 per month.";
             "Consider reducing spending on Fun by about $40.00 per month." ]
  /\ String.ltb "Fun" "Travel" = true
  /\ top_spend [ ("Travel", (-200)%float); ("Books", (-200)%float);
                 ("Dining", (-400)%float); ("Fun", (-200)%float) ]
     = [ (400%float, "Dining"); (200%float, "Travel"); (200%float, "Fun") ].
Proof.
  pose proof (recommend_budget_breaks_ties_by_label tied_month 0%float "2025-04"
                (mksummary (-1000)%float 4 tied_subtotals) eq_refl eq_refl) as H.
  destruct H as (Hout & Htie & Hfree).
  - repeat constructor; simpl; intuition discriminate.
  - reflexivity.
  - split; [|split].
    + rewrite (Hout eq_refl). vm_compute. reflexivity.
    + apply (Htie [(400%float, "Dining")] (200%float, "Travel") [] (200%float, "Fun") []).
      * vm_compute. reflexivity.
      * reflexivity.
    + assert (Hperm : Permutation
                        [ ("Travel", (-200)%float); ("Books", (-200)%float);
                          ("Dining", (-400)%float); ("Fun", (-200)%float) ]
                        tied_subtotals)
        by exact (Permutation_rev [ ("Travel", (-200)%float); ("Books", (-200)%float);
                                    ("Dining", (-400)%float); ("Fun", (-200)%float) ]).
      rewrite (proj1 (Hfree _ Hperm)). vm_compute. reflexivity.
Defined.

(* ================================================================== *)
(** * Part 7: amounts written with comma grouping *)
(* ================================================================== *)

Example group_thousands_examples :
  map group_thousands ["1234567.5"; "-1234.5"; "999"; "1000"; "1e+22"; "-0.25"; "nan"]
  = ["1,234,567.5"; "-1,234.5"; "999"; "1,000"; "1e+22"; "-0.25"; "nan"].
Proof. reflexivity. Qed.

Lemma replace_comma_app (a b : string) :
  Text.replace_comma (a ++ b)
  = (Text.replace_comma a ++ Text.replace_comma b)%string.
Proof.
  induction a as [|c a IH]; simpl; [reflexivity|].
  destruct (Ascii.eqb c Text.comma); simpl; rewrite IH; reflexivity.
Qed.

Lemma replace_comma_plain (s : string) :
  Text.has_comma s = false -> Text.replace_comma s = s.
Proof.
  induction s as [|c s IH]; simpl; [reflexivity|].
  destruct (Ascii.eqb c Text.comma); simpl; [discriminate|].
  intros H. rewrite IH by exact H. reflexivity.
Qed.

Lemma has_comma_app (a b : string) :
  Text.has_comma (a ++ b) = Text.has_comma a || Text.has_comma b.
Proof.
  induction a as [|c a IH]; simpl; [reflexivity|].
  rewrite IH. apply orb_assoc.
Qed.

Lemma replace_comma_group_digits (s : string) :
  Text.has_comma s = false -> Text.replace_comma (group_digits s) = s.
Proof.
  induction s as [|c s IH]; [reflexivity|].
  cbn [Text.has_comma group_digits].
  destruct (Ascii.eqb c Text.comma) eqn:Hc; [discriminate|].
  intros H. simpl in H.
  destruct ((String.length s mod 3 =? 0)%nat && negb (String.length s =? 0)%nat);
    cbn [Text.replace_comma]; rewrite Hc.
  - rewrite Ascii.eqb_refl. rewrite IH by exact H. reflexivity.
  - rewrite IH by exact H. reflexivity.
Qed.

Lemma split_digits_app (s : string) :
  s = (fst (split_digits s) ++ snd (split_digits s))%string.
Proof.
  induction s as [|c s IH]; simpl; [reflexivity|].
  destruct (Text.is_digit c); [|reflexivity].
  destruct (split_digits s) as [ds rest]. simpl in *. rewrite <- IH. reflexivity.
Qed.

(** Taking the commas out of the grouped text gives the plain text back. *)
Lemma replace_comma_group_thousands (plain : string) :
  Text.has_comma plain = false ->
  Text.replace_comma (group_thousands plain) = plain.
Proof.
  intros Hplain. unfold group_thousands.
  assert (Hbody : forall sign body,
             plain = (sign ++ body)%string ->
             Text.replace_comma (sign ++ group_digits (fst (split_digits body))
                                   ++ snd (split_digits body)) = plain).
  { intros sign body Heq. rewrite Heq in Hplain. rewrite has_comma_app in Hplain.
    apply orb_false_iff in Hplain. destruct Hplain as [Hs Hb].
    rewrite (split_digits_app body) in Hb. rewrite has_comma_app in Hb.
    apply orb_false_iff in Hb. destruct Hb as [Hd Hr].
    rewrite !replace_comma_app, replace_comma_group_digits by exact Hd.
    rewrite (replace_comma_plain sign Hs), (replace_comma_plain _ Hr).
    rewrite <- split_digits_app. symmetry. exact Heq. }
  destruct plain as [|c s].
  - reflexivity.
  - destruct (Ascii.ascii_dec c "-"%char) as [->|Hne].
    + specialize (Hbody "-" s eq_refl). destruct (split_digits s). exact Hbody.
    + specialize (Hbody "" (String c s) eq_refl).
      assert (Hsame : match String c s with
                      | String "-"%char s' => ("-", s')
                      | _ => ("", String c s)
                      end = ("", String c s)).
      { destruct c as [[] [] [] [] [] [] [] []]; try reflexivity. contradiction Hne. reflexivity. }
      rewrite Hsame. destruct (split_digits (String c s)). exact Hbody.
Qed.

(** ** The reference [float] reads no text with a comma *)

Lemma space_not_comma (c : ascii) : Text.is_space c = true -> Ascii.eqb c Text.comma = false.
Proof. destruct c as [[] [] [] [] [] [] [] []]; vm_compute; congruence. Qed.

Lemma digit_not_comma (c : ascii) : Text.is_digit c = true -> Ascii.eqb c Text.comma = false.
Proof. destruct c as [[] [] [] [] [] [] [] []]; vm_compute; congruence. Qed.

Lemma lower_char_comma (c : ascii) :
  Ascii.eqb (Text.lower_char c) Text.comma = Ascii.eqb c Text.comma.
Proof. destruct c as [[] [] [] [] [] [] [] []]; vm_compute; reflexivity. Qed.

Lemma has_comma_lstrip (s : string) : Text.has_comma (Text.lstrip s) = Text.has_comma s.
Proof.
  induction s as [|c s IH]; simpl; [reflexivity|].
  destruct (Text.is_space c) eqn:Hc; [|reflexivity].
  rewrite (space_not_comma c Hc). exact IH.
Qed.

Lemma has_comma_rstrip (s : string) : Text.has_comma (Text.rstrip s) = Text.has_comma s.
Proof.
  induction s as [|c s IH]; simpl; [reflexivity|].
  destruct (Text.rstrip s) as [|c' r]; rewrite <- IH.
  - destruct (Text.is_space c) eqn:Hc; simpl.
    + rewrite (space_not_comma c Hc). reflexivity.
    + reflexivity.
  - reflexivity.
Qed.

Lemma has_comma_strip (s : string) : Text.has_comma (Text.strip s) = Text.has_comma s.
Proof. unfold Text.strip. rewrite has_comma_rstrip. apply has_comma_lstrip. Qed.

Lemma has_comma_lower (s : string) : Text.has_comma (Text.lower s) = Text.has_comma s.
Proof.
  induction s as [|c s IH]; simpl; [reflexivity|].
  rewrite lower_char_comma, IH. reflexivity.
Qed.

Lemma has_comma_take_sign (s : string) :
  Text.has_comma (snd (Ref.take_sign s)) = Text.has_comma s.
Proof.
  destruct s as [|c s]; [reflexivity|].
  destruct c as [[] [] [] [] [] [] [] []]; reflexivity.
Qed.

Lemma has_comma_take_digits (s : string) (acc : Z) (n : nat) :
  Text.has_comma (snd (Ref.take_digits s acc n)) = Text.has_comma s.
Proof.
  revert acc n. induction s as [|c s IH]; intros acc n; [reflexivity|].
  cbn [Ref.take_digits]. destruct (Text.is_digit c) eqn:Hd.
  - rewrite IH. simpl. rewrite (digit_not_comma c Hd). reflexivity.
  - destruct (Ascii.eqb c "_"%char && negb (n =? 0)%nat) eqn:Hu; [|reflexivity].
    destruct s as [|c' s']; [reflexivity|].
    destruct (Text.is_digit c'); [|reflexivity].
    rewrite IH. apply andb_true_iff in Hu. destruct Hu as [Hu _].
    apply Ascii.eqb_eq in Hu. subst c. reflexivity.
Qed.

Lemma has_comma_take_exponent (s : string) :
  Text.has_comma (snd (Ref.take_exponent s)) = Text.has_comma s.
Proof.
  destruct s as [|c s]; [reflexivity|]. cbn [Ref.take_exponent].
  destruct (Ascii.eqb c "e"%char || Ascii.eqb c "E"%char) eqn:He; [|reflexivity].
  pose proof (has_comma_take_sign s) as Hs.
  destruct (Ref.take_sign s) as [neg s1]. simpl in Hs.
  pose proof (has_comma_take_digits s1 0 0) as Hd.
  destruct (Ref.take_digits s1 0 0) as [[x n] s2]. simpl in Hd.
  destruct (n =? 0)%nat; [reflexivity|]. simpl.
  rewrite Hd, Hs. apply orb_true_iff in He.
  destruct He as [He|He]; apply Ascii.eqb_eq in He; subst c; reflexivity.
Qed.

Lemma eqb_plain_word (s word : string) :
  Text.has_comma s = true -> Text.has_comma word = false -> String.eqb s word = false.
Proof.
  intros Hs Hw. apply String.eqb_neq. intros ->. congruence.
Qed.

Lemma ref_float_rejects_comma (t : string) :
  Text.has_comma t = true -> Ref.float_of_str t = None.
Proof.
  intros Ht. unfold Ref.float_of_str.
  pose proof (has_comma_take_sign (Text.strip t)) as Hsign.
  rewrite has_comma_strip, Ht in Hsign.
  destruct (Ref.take_sign (Text.strip t)) as [neg s]. simpl in Hsign.
  assert (Hlow : Text.has_comma (Text.lower s) = true) by (rewrite has_comma_lower; exact Hsign).
  rewrite !(eqb_plain_word (Text.lower s)) by (exact Hlow || reflexivity). simpl.
  pose proof (has_comma_take_digits s 0 0) as Hi.
  destruct (Ref.take_digits s 0 0) as [[i ni] s1]. simpl in Hi. rewrite Hsign in Hi.
  assert (Hfrac : forall r : Z * nat * string,
             r = match s1 with
                 | String "."%char s1' =>
                     let '(f, n, s2) := Ref.take_digits s1' i 0 in (f, n, s2)
                 | _ => (i, O, s1)
                 end ->
             Text.has_comma (snd r) = true).
  { intros r ->. destruct s1 as [|c s1']; [discriminate Hi|].
    destruct (Ascii.ascii_dec c "."%char) as [->|Hne].
    - pose proof (has_comma_take_digits s1' i 0) as Hf.
      destruct (Ref.take_digits s1' i 0) as [[f n] s2]. simpl in Hf |- *.
      rewrite Hf. exact Hi.
    - assert (Hsame : match String c s1' with
                      | String "."%char s1'' =>
                          let '(f, n, s2) := Ref.take_digits s1'' i 0 in (f, n, s2)
                      | _ => (i, O, String c s1')
                      end = (i, O, String c s1')).
      { destruct c as [[] [] [] [] [] [] [] []]; try reflexivity. contradiction Hne. reflexivity. }
      rewrite Hsame. exact Hi. }
  specialize (Hfrac _ eq_refl).
  destruct (match s1 with
            | String "."%char s1' =>
                let '(f, n, s2) := Ref.take_digits s1' i 0 in (f, n, s2)
            | _ => (i, O, s1)
            end) as [[f nf] s2].
  simpl in Hfrac. destruct (ni + nf =? 0)%nat; [reflexivity|].
  pose proof (has_comma_take_exponent s2) as He. rewrite Hfrac in He.
  destruct (Ref.take_exponent s2) as [x s3]. simpl in He.
  destruct s3; [discriminate He | reflexivity].
Qed.

(** ** The claim about amounts *)

(** C7: an amount [x] whose plain decimal text [float] reads back as [x]
    is parsed back as [x] from any text that is the plain text with
    commas put in, the comma grouping of thousands among them, [float]
    reading no text with a comma.  The direct reading is tried first:
    when it gives a value, that is the amount; when it fails, the amount
    is read from the text with every comma taken out, and the failure of
    that reading is the failure of the call. *)
Theorem comma_grouped_amount_round_trip {L : PyLib} (x : float) (plain : string) :
  float_of_str plain = Some x ->
  Text.has_comma plain = false ->
  (forall t, Text.has_comma t = true -> float_of_str t = None) ->
  parse_amount (group_thousands plain) = Return x
  /\ (forall grouped, Text.replace_comma grouped = plain -> parse_amount grouped = Return x)
  /\ (forall t v, float_of_str t = Some v -> parse_amount t = Return v)
  /\ (forall t, float_of_str t = None ->
        parse_amount t
        = match float_of_str (Text.replace_comma t) with
          | Some v => Return v
          | None => Raise (float_error (Text.replace_comma t))
          end).
Proof.
  intros Hplain Hno Hrej.
  assert (Hany : forall grouped,
             Text.replace_comma grouped = plain -> parse_amount grouped = Return x).
  { intros grouped Hg. unfold parse_amount.
    destruct (Text.has_comma grouped) eqn:Hc.
    - rewrite (Hrej grouped Hc), Hg, Hplain. reflexivity.
    - rewrite (replace_comma_plain grouped Hc) in Hg. rewrite Hg, Hplain. reflexivity. }
  split; [|split; [|split]].
  - apply Hany. apply replace_comma_group_thousands. exact Hno.
  - exact Hany.
  - intros t v Hv. unfold parse_amount. rewrite Hv. reflexivity.
  - intros t Hnone. unfold parse_amount. rewrite Hnone. reflexivity.
Qed.

Lemma comma_grouped_amount_round_trip_witness :
  group_thousands "1234567.5" = "1,234,567.5"
  /\ parse_amount (L := Ref.lib) "1,234,567.5" = Return 1234567.5%float.
Proof.
  split; [reflexivity|].
  refine (proj1 (comma_grouped_amount_round_trip (L := Ref.lib)
                   1234567.5%float "1234567.5" _ _ _)).
  - vm_compute. reflexivity.
  - reflexivity.
  - exact ref_float_rejects_comma.
Defined.

(* ================================================================== *)
(** * Part 8: further properties *)
(* ================================================================== *)

(** ** The parser: missing cells *)

Lemma cell_or_blank (a b : option string) : blank a -> cell_or a b = b.
Proof. intros [-> | ->]; reflexivity. Qed.

Lemma cell_or_text_blank (a : option string) (default : string) :
  blank a -> cell_or_text a default = default.
Proof. intros [-> | ->]; reflexivity. Qed.

(** X4: a row whose description and amount cells are missing or empty,
    under both spellings of the columns, is read as a transaction with
    the description [""] stripped and the amount [float("0")]. *)
Theorem parse_row_defaults {L : PyLib} (r : row) (d : date) (z : float) :
  parse_date (raw_date_of r) = Return d ->
  blank (row_get r "description") -> blank (row_get r "Description") ->
  blank (row_get r "amount") -> blank (row_get r "Amount") ->
  float_of_str "0" = Some z ->
  parse_row r = Return (mktxn (Some d) (Some (str_strip "")) (Some z) None).
Proof.
  intros Hd Hd1 Hd2 Ha1 Ha2 Hz. unfold parse_row, desc_of, amt_raw_of.
  rewrite Hd. simpl bind.
  rewrite (cell_or_blank _ _ Hd1), (cell_or_text_blank _ _ Hd2).
  rewrite (cell_or_blank _ _ Ha1), (cell_or_text_blank _ _ Ha2).
  unfold parse_amount. rewrite Hz. reflexivity.
Qed.

Lemma parse_row_defaults_witness :
  parse_row (L := Ref.lib) date_only_row
  = Return (mktxn (Some (mkdate 2025 1 5)) (Some "") (Some 0%float) None).
Proof.
  apply (parse_row_defaults (L := Ref.lib) date_only_row (mkdate 2025 1 5) 0%float).
  - vm_compute. reflexivity.
  - left. reflexivity.
  - left. reflexivity.
  - left. reflexivity.
  - left. reflexivity.
  - vm_compute. reflexivity.
Defined.

(** ** The categorizer: rules that cannot match, a rule that always does *)

Lemma first_match_app (a b : dict string) (desc : string) :
  first_match (a ++ b) desc
  = match first_match a desc with
    | Some c => Some c
    | None => first_match b desc
    end.
Proof.
  induction a as [|[kw c] a IH]; simpl; [reflexivity|].
  destruct (Text.contains kw desc); [reflexivity | exact IH].
Qed.

Lemma has_upper_app (a b : string) : has_upper (a ++ b) = has_upper a || has_upper b.
Proof.
  induction a as [|c a IH]; simpl; [reflexivity|]. rewrite IH. apply orb_assoc.
Qed.

Lemma occurs_in_upper (kw s : string) :
  occurs_in kw s -> has_upper kw = true -> has_upper s = true.
Proof.
  intros [a [b ->]] Hkw. rewrite !has_upper_app, Hkw.
  rewrite orb_true_r. reflexivity.
Qed.

Lemma lower_char_not_upper (c : ascii) : is_upper (Text.lower_char c) = false.
Proof. destruct c as [[] [] [] [] [] [] [] []]; vm_compute; reflexivity. Qed.

Lemma ref_lower_no_upper (s : string) : has_upper (Text.lower s) = false.
Proof.
  induction s as [|c s IH]; simpl; [reflexivity|].
  rewrite lower_char_not_upper, IH. reflexivity.
Qed.

(** X5: the description is lowercased and the keywords are not: when
    lowercased text has no capital letter, a rule whose keyword has one
    never matches, and the transactions are categorized as if the rule
    were not there. *)
Theorem capital_keyword_never_matches
  {L : PyLib} (transactions : list txn) (pre post : dict string) (kw c : string) :
  (forall s, has_upper (str_lower s) = false) ->
  has_upper kw = true ->
  categorize_transactions transactions (Some (pre ++ (kw, c) :: post))
  = categorize_transactions transactions (Some (pre ++ post)).
Proof.
  intros Hlow Hkw. unfold categorize_transactions. apply map_ext. intros t.
  unfold category_for. rewrite !first_match_app. simpl.
  assert (Hno : Text.contains kw (lowered_description t) = false).
  { apply contains_false_iff. intros Hocc.
    pose proof (occurs_in_upper _ _ Hocc Hkw) as Hup.
    unfold lowered_description in Hup. rewrite Hlow in Hup. discriminate Hup. }
  rewrite Hno. reflexivity.
Qed.

Lemma capital_keyword_never_matches_witness :
  categorize_transactions (L := Ref.lib) test_transactions
    (Some ([("coffee", "Coffee")] ++ ("Starbucks", "Cafe") :: [("uber", "Transport")]))
  = categorize_transactions (L := Ref.lib) test_transactions
      (Some ([("coffee", "Coffee")] ++ [("uber", "Transport")])).
Proof.
  apply (capital_keyword_never_matches (L := Ref.lib) test_transactions
           [("coffee", "Coffee")] [("uber", "Transport")] "Starbucks" "Cafe").
  - exact ref_lower_no_upper.
  - reflexivity.
Defined.

Lemma contains_empty (s : string) : Text.contains "" s = true.
Proof. destruct s; reflexivity. Qed.

(** X6: a rule whose keyword is empty matches every description: no
    transaction is left to the default, the rules after it are never
    reached, and each transaction gets the category of the first rule
    before it that matches, or else the category of that rule. *)
Theorem empty_keyword_matches_all
  {L : PyLib} (transactions : list txn) (pre post : dict string) (c : string) :
  categorize_transactions transactions (Some (pre ++ ("", c) :: post))
  = map (fun t =>
           mktxn (t_date t) (t_description t) (t_amount t)
                 (Some match first_match pre (lowered_description t) with
                       | Some c' => c'
                       | None => c
                       end))
        transactions.
Proof.
  unfold categorize_transactions. apply map_ext. intros t.
  unfold category_for. rewrite first_match_app. simpl. rewrite contains_empty.
  destruct (first_match pre (lowered_description t)); reflexivity.
Qed.

Lemma first_match_in (rules : dict string) (desc c : string) :
  first_match rules desc = Some c -> In c (map snd rules).
Proof.
  induction rules as [|[kw c0] rules IH]; simpl; [discriminate|].
  destruct (Text.contains kw desc).
  - intros H. injection H as <-. left. reflexivity.
  - intros H. right. apply IH. exact H.
Qed.

(** X7: the result has one transaction per input transaction, and the
    category of each is a category of the rules in force or
    ["Uncategorized"]; in particular a category the input carried is
    replaced. *)
Theorem categorize_output_categories
  {L : PyLib} (transactions : list txn) (rules : option (dict string)) :
  List.length (categorize_transactions transactions rules) = List.length transactions
  /\ Forall (fun t' => exists c, t_category t' = Some c
                                 /\ (c = "Uncategorized"
                                     \/ In c (map snd (rules_in_force rules))))
            (categorize_transactions transactions rules).
Proof.
  unfold categorize_transactions. fold (rules_in_force rules). split.
  - apply length_map.
  - apply Forall_forall. intros t' Hin. apply in_map_iff in Hin.
    destruct Hin as [t [<- _]]. simpl. eexists. split; [reflexivity|].
    unfold category_for.
    destruct (first_match (rules_in_force rules) (lowered_description t)) eqn:Hm.
    + right. eapply first_match_in. exact Hm.
    + left. reflexivity.
Qed.

(** ** The aggregator: every transaction counted once, months in the
    order they are met *)

Lemma counted_update (d : dict summary) (t : txn) :
  counted (dict_update (month_key t) (summary_step t) new_summary d) = S (counted d).
Proof.
  unfold counted. induction d as [|[k v] d IH]; simpl; [reflexivity|].
  destruct (String.eqb (month_key t) k); simpl.
  - reflexivity.
  - rewrite IH. lia.
Qed.

Lemma counted_loop (ts : list txn) (d : dict summary) :
  counted (fold_left (dict_add month_key summary_step new_summary) ts d)
  = counted d + List.length ts.
Proof.
  revert d. induction ts as [|t ts IH]; intros d; simpl; [lia|].
  rewrite IH. unfold dict_add. rewrite counted_update. lia.
Qed.

(** X8: every transaction is counted in exactly one entry: the counts of
    the summary add up to the number of transactions. *)
Theorem monthly_summary_counts_every_transaction (transactions : list txn) :
  counted (monthly_summary transactions) = List.length transactions.
Proof. rewrite monthly_summary_loop, counted_loop. reflexivity. Qed.

(** X9: the entries of the summary come in the order in which the input
    first meets their months, and within an entry the categories come in
    the order in which the month's transactions first meet them. *)
Theorem monthly_summary_keeps_first_seen_order (transactions : list txn) :
  keys (monthly_summary transactions) = first_occurrences (map month_key transactions)
  /\ (forall k v, dict_get (monthly_summary transactions) k = Some v ->
        keys (by_category v)
        = first_occurrences (map category_of (in_month k transactions))).
Proof.
  split.
  - apply monthly_summary_keys_first.
  - intros k v. apply entry_category_keys.
Qed.

(** ** The aggregator: what a month key stands for *)

Lemma reads4_below : forallb reads4 (below (100 * 100)) = true.
Proof. vm_compute. reflexivity. Qed.

Lemma reads2_below : forallb reads2 (below 100) = true.
Proof. vm_compute. reflexivity. Qed.

Lemma below_in (n : nat) (z : Z) : (0 <= z < Z.of_nat n)%Z -> In z (below n).
Proof.
  intros Hz. unfold below. apply in_map_iff. exists (Z.to_nat z). split; [lia|].
  apply in_seq. lia.
Qed.

Lemma reads4_year (y : Z) : (0 <= y < 10000)%Z -> reads4 y = true.
Proof.
  intros Hy. pose proof reads4_below as H. rewrite forallb_forall in H.
  apply H. apply below_in. simpl. lia.
Qed.

Lemma reads2_month (m : Z) : (0 <= m < 100)%Z -> reads2 m = true.
Proof.
  intros Hm. pose proof reads2_below as H. rewrite forallb_forall in H.
  apply H. apply below_in. simpl. lia.
Qed.

(** The key of a calendar month tells its year and its month. *)
Lemma key_of_injective (y1 m1 y2 m2 : Z) :
  (0 <= y1 < 10000)%Z -> (0 <= m1 < 100)%Z ->
  (0 <= y2 < 10000)%Z -> (0 <= m2 < 100)%Z ->
  key_of y1 m1 = key_of y2 m2 -> y1 = y2 /\ m1 = m2.
Proof.
  intros Hy1 Hm1 Hy2 Hm2. unfold key_of.
  pose proof (reads4_year y1 Hy1) as R1. pose proof (reads4_year y2 Hy2) as R2.
  pose proof (reads2_month m1 Hm1) as S1. pose proof (reads2_month m2 Hm2) as S2.
  unfold reads4 in R1, R2. unfold reads2 in S1, S2.
  destruct (Text.pad 4 y1) as [|a1 [|a2 [|a3 [|a4 [|? ?]]]]]; try discriminate R1.
  destruct (Text.pad 4 y2) as [|b1 [|b2 [|b3 [|b4 [|? ?]]]]]; try discriminate R2.
  destruct (Text.pad 2 m1) as [|c1 [|c2 [|? ?]]]; try discriminate S1.
  destruct (Text.pad 2 m2) as [|d1 [|d2 [|? ?]]]; try discriminate S2.
  simpl. intros Heq. injection Heq as -> -> -> -> -> ->.
  apply Z.eqb_eq in R1, R2, S1, S2. split; congruence.
Qed.

Lemma key_of_length (y m : Z) :
  (0 <= y < 10000)%Z -> (0 <= m < 100)%Z -> String.length (key_of y m) = 7.
Proof.
  intros Hy Hm. unfold key_of.
  pose proof (reads4_year y Hy) as R. pose proof (reads2_month m Hm) as S.
  unfold reads4 in R. unfold reads2 in S.
  destruct (Text.pad 4 y) as [|a1 [|a2 [|a3 [|a4 [|? ?]]]]]; try discriminate R.
  destruct (Text.pad 2 m) as [|c1 [|c2 [|? ?]]]; try discriminate S.
  reflexivity.
Qed.

(** X10: transactions are grouped by calendar month: two transactions
    with calendar dates have the same month key exactly when their dates
    have the same year and the same month, and the key has seven
    characters; a transaction has the key ["unknown"] exactly when it
    has no date. *)
Theorem month_key_groups_by_calendar_month (t1 t2 : txn) (d1 d2 : date) :
  t_date t1 = Some d1 -> t_date t2 = Some d2 ->
  calendar_date d1 -> calendar_date d2 ->
  (month_key t1 = month_key t2 <-> year d1 = year d2 /\ month d1 = month d2)
  /\ String.length (month_key t1) = 7
  /\ (forall t, month_key t = "unknown" <-> t_date t = None).
Proof.
  intros H1 H2 [Hy1 Hm1] [Hy2 Hm2]. split; [|split].
  - unfold month_key. rewrite H1, H2.
    change (key_of (year d1) (month d1) = key_of (year d2) (month d2)
            <-> year d1 = year d2 /\ month d1 = month d2).
    split.
    + apply key_of_injective; lia.
    + intros [-> ->]. reflexivity.
  - unfold month_key. rewrite H1.
    change (String.length (key_of (year d1) (month d1)) = 7).
    apply key_of_length; lia.
  - intros t. split.
    + destruct (t_date t) as [d|] eqn:Hd; [|reflexivity].
      intros Hk. exfalso. apply (month_key_dated t d Hd Hk).
    + intros Hd. unfold month_key. rewrite Hd. reflexivity.
Qed.

Lemma month_key_groups_by_calendar_month_witness :
  (month_key (mktxn (Some (mkdate 2025 1 1)) (Some "A") (Some (-10)%float) (Some "X"))
   = month_key (mktxn (Some (mkdate 2025 1 5)) (Some "B") (Some (-5)%float) (Some "Y"))
   <-> 2025%Z = 2025%Z /\ 1%Z = 1%Z)
  /\ String.length
       (month_key (mktxn (Some (mkdate 2025 1 1)) (Some "A") (Some (-10)%float) (Some "X")))
     = 7
  /\ (forall t, month_key t = "unknown" <-> t_date t = None).
Proof.
  apply (month_key_groups_by_calendar_month
           (mktxn (Some (mkdate 2025 1 1)) (Some "A") (Some (-10)%float) (Some "X"))
           (mktxn (Some (mkdate 2025 1 5)) (Some "B") (Some (-5)%float) (Some "Y"))
           (mkdate 2025 1 1) (mkdate 2025 1 5)).
  - reflexivity.
  - reflexivity.
  - unfold calendar_date. simpl. lia.
  - unfold calendar_date. simpl. lia.
Defined.

(** ** The advisor: how many lines, which subtotals, which savings line *)

Lemma abs_opp (x : float) : PrimFloat.abs (PrimFloat.opp x) = PrimFloat.abs x.
Proof.
  apply Prim2SF_inj. rewrite !abs_spec, opp_spec.
  destruct (Prim2SF x); reflexivity.
Qed.

Lemma sub_zero (x : float) : PrimFloat.sub x PrimFloat.zero = x.
Proof.
  apply Prim2SF_inj. rewrite sub_spec.
  change (Prim2SF PrimFloat.zero) with (S754_zero false).
  destruct (Prim2SF x) as [[|]|[|]| |s m e]; reflexivity.
Qed.

Lemma savings_suggestions_length (data : summary) (target_savings : float) :
  List.length (savings_suggestions data target_savings) <= 1.
Proof.
  unfold savings_suggestions.
  destruct (PrimFloat.ltb PrimFloat.zero target_savings); [|simpl; lia].
  match goal with |- context [if ?c then [_] else [_]] => destruct c end; simpl; lia.
Qed.

Lemma spending_suggestions_length (data : summary) :
  List.length (spending_suggestions data) <= 3.
Proof.
  unfold spending_suggestions.
  destruct (PrimFloat.ltb (total data) PyFloat.minus_500); [|simpl; lia].
  rewrite length_map, top_spend_length. lia.
Qed.

Lemma spending_suggestions_not_empty (data : summary) :
  by_category data <> [] -> 1 <= List.length (spending_suggestions data).
Proof.
  intros Hne. unfold spending_suggestions.
  destruct (PrimFloat.ltb (total data) PyFloat.minus_500); [|simpl; lia].
  rewrite length_map, top_spend_length.
  destruct (by_category data); [contradiction | simpl; lia].
Qed.

(** An entry of the summary has a category for each of its months'
    transactions, so at least one, and no label twice. *)
Lemma monthly_summary_entry_categories (ts : list txn) (k : string) (v : summary) :
  dict_get (monthly_summary ts) k = Some v ->
  by_category v <> [] /\ NoDup (keys (by_category v)).
Proof.
  intros Hv.
  pose proof (entry_category_keys ts k v Hv) as Hkeys.
  apply monthly_summary_entry in Hv. destruct Hv as [Hne _]. split.
  - intros Hnil. rewrite Hnil in Hkeys. simpl in Hkeys.
    destruct (in_month k ts) as [|t m]; [contradiction | discriminate Hkeys].
  - rewrite Hkeys. apply first_occurrences_nodup.
Qed.

(** X11: the advice has at most four lines, whatever the summaries; and
    on the summaries [monthly_summary] builds, of any transactions, the
    call returns at least one line, every entry having a category with no
    label twice. *)
Theorem recommend_budget_advice_size
  (transactions : list txn) (target_savings : float) :
  (forall monthly out,
     recommend_budget monthly target_savings = Return out -> List.length out <= 4)
  /\ (exists out,
        recommend_budget (monthly_summary transactions) target_savings = Return out
        /\ 1 <= List.length out)
  /\ (forall k v, dict_get (monthly_summary transactions) k = Some v ->
        by_category v <> [] /\ NoDup (keys (by_category v))).
Proof.
  split; [|split].
  - intros monthly out Hout. destruct monthly as [|kv m].
    + injection Hout as <-. simpl. lia.
    + destruct (recommend_budget_target (kv :: m) target_savings) as (k & data & _ & _ & Hr);
        [discriminate|].
      rewrite Hr in Hout. injection Hout as <-. rewrite length_app.
      pose proof (spending_suggestions_length data).
      pose proof (savings_suggestions_length data target_savings). lia.
  - destruct (monthly_summary transactions) as [|kv m] eqn:Hm.
    + eexists. split; [reflexivity | simpl; lia].
    + destruct (recommend_budget_target (kv :: m) target_savings) as (k & data & _ & Hd & Hr);
        [discriminate|].
      eexists. split; [exact Hr|]. rewrite length_app.
      rewrite <- Hm in Hd. apply monthly_summary_entry_categories in Hd.
      pose proof (spending_suggestions_not_empty data (proj1 Hd)). lia.
  - intros k v. apply monthly_summary_entry_categories.
Qed.

(** Summaries by hand, with an entry that has no category: the advice
    can be empty. *)
Example recommend_budget_empty_advice :
  recommend_budget [("2025-05", mksummary (-600)%float 0 [])] 0%float = Return [].
Proof. vm_compute. reflexivity. Qed.

Lemma abs_items_negated (by_cat : dict float) : abs_items (negated by_cat) = abs_items by_cat.
Proof.
  unfold abs_items, negated. rewrite map_map. apply map_ext.
  intros [k v]. simpl. rewrite abs_opp. reflexivity.
Qed.

(** X12: the suggestions about spending read the subtotals through their
    absolute values only: changing the signs of the subtotals of a month
    leaves them as they are, so a category of income is ranked, and
    named, as a category of spending of the same size. *)
Theorem spending_suggestions_ignore_signs (data : summary) :
  spending_suggestions (mksummary (total data) (count data) (negated (by_category data)))
  = spending_suggestions data.
Proof.
  unfold spending_suggestions, top_spend. simpl. rewrite abs_items_negated. reflexivity.
Qed.

Example income_named_as_spending :
  recommend_budget
    [("2025-06", mksummary (-600)%float 2 [("Salary", 2000%float); ("Rent", (-2600)%float)])]
    0%float
  = Return [ "Consider reducing spending on Rent by about $520.00 per month.";
             "Consider reducing spending on Salary by about $400.00 per month." ].
Proof. vm_compute. reflexivity. Qed.

(** X13: with a target of savings above zero and a month whose total is
    not above zero, the advice ends with the line that asks for the
    whole target: the shortfall is the target itself. *)
Theorem savings_shortfall_is_whole_target
  (monthly : dict summary) (target_savings : float) (k : string) (data : summary) :
  latest_key monthly = Some k ->
  dict_get monthly k = Some data ->
  PrimFloat.ltb PrimFloat.zero target_savings = true ->
  PrimFloat.ltb PrimFloat.zero (total data) = false ->
  recommend_budget monthly target_savings
  = Return (spending_suggestions data
              ++ [ ("To reach a target savings of $" ++ PyFloat.format_2f target_savings
                      ++ ", increase monthly savings by $"
                      ++ PyFloat.format_2f target_savings ++ ".")%string ]).
Proof.
  intros Hk Hd Hts Htot.
  unfold recommend_budget. destruct monthly as [|kv m]; [discriminate Hk|].
  rewrite Hk. cbv beta iota delta [bind]. rewrite Hd.
  unfold savings_suggestions. rewrite Hts, Htot, sub_zero.
  unfold PyFloat.max_zero. rewrite Hts, Hts. reflexivity.
Qed.

Lemma savings_shortfall_is_whole_target_witness :
  recommend_budget overspent_month 2000%float
  = Return (spending_suggestions
              (mksummary (-600)%float 2 [("Dining", (-400)%float); ("Fun", (-200)%float)])
              ++ [ ("To reach a target savings of $" ++ PyFloat.format_2f 2000%float
                      ++ ", increase monthly savings by $"
                      ++ PyFloat.format_2f 2000%float ++ ".")%string ]).
Proof.
  apply (savings_shortfall_is_whole_target overspent_month 2000%float "2025-03"
           (mksummary (-600)%float 2 [("Dining", (-400)%float); ("Fun", (-200)%float)])).
  - reflexivity.
  - reflexivity.
  - vm_compute. reflexivity.
  - vm_compute. reflexivity.
Defined.

(** ** The driver *)

Lemma recommend_budget_returns (monthly : dict summary) (target_savings : float) :
  exists out, recommend_budget monthly target_savings = Return out.
Proof.
  destruct monthly as [|kv m].
  - eexists. reflexivity.
  - destruct (recommend_budget_target (kv :: m) target_savings) as (k & data & _ & _ & Hr);
      [discriminate|].
    eexists. exact Hr.
Qed.

Lemma ascending_strictly {V : Type} (items : list (string * V)) :
  NoDup (keys items) -> ascending item_lt items -> strictly_ascending items.
Proof.
  intros Hnd Hs. unfold strictly_ascending.
  induction Hs as [|x l Hs IH Hx]; [constructor|].
  simpl in Hnd. inversion Hnd as [|? ? Hnotin Hnd']; subst.
  constructor; [apply IH; exact Hnd'|].
  rewrite Forall_forall in Hx |- *. intros y Hy.
  apply string_ltb_total; [apply (Hx y Hy)|].
  intros Heq. apply Hnotin. unfold keys. rewrite <- Heq. apply in_map. exact Hy.
Qed.

Lemma sorted_items_strictly {V : Type} (items : dict V) :
  NoDup (keys items) -> strictly_ascending (sorted item_lt items).
Proof.
  intros Hnd. apply ascending_strictly.
  - apply (Permutation_NoDup (l := keys items)); [|exact Hnd].
    unfold keys. apply Permutation_map. apply Permutation_sym. apply sorted_perm.
  - apply (sorted_ascending item_lt (fun _ => True)).
    + intros x y _ _. apply string_ltb_asym.
    + intros x y z _ _ _. apply string_ltb_cotrans.
    + rewrite Forall_forall. intros x _. exact I.
Qed.

Lemma main_with_argument {L : PyLib} (argv : list string) (w : world) :
  2 <= List.length argv ->
  main argv w
  = match parse_transactions (Path "sample.csv") w with
    | (Return tx, w1) =>
        match recommend_budget (monthly_summary (categorize_transactions tx None))
                               2000%float with
        | Return suggestions =>
            (report suggestions (monthly_summary (categorize_transactions tx None)), w1)
        | Raise e => ([error_line e], release w w1)
        end
    | (Raise e, w1) => ([error_line e], release w w1)
    end.
Proof.
  intros Hlen. unfold main.
  assert (Hlt : (List.length argv <? 2)%nat = false) by (apply Nat.ltb_ge; exact Hlen).
  rewrite Hlt. reflexivity.
Qed.

Lemma set_closed_beyond (hs : list bool) : set_closed (List.length hs) hs = hs.
Proof.
  induction hs as [|h hs IH]; simpl; [reflexivity|]. rewrite IH. reflexivity.
Qed.

(** X14: what [main] does when there is nothing to report.  Without an
    argument it prints the two lines of usage and opens no file.  With
    one, whatever it is, the file it reads is ["sample.csv"]: when there
    is no such file it prints the one line of that error and no handle
    is opened; when a row of the file makes the parser raise, it prints
    the one line of that error, and the handle of the file, open when
    the parser raises, is closed when [main] returns. *)
Theorem main_prints_usage_or_error {L : PyLib} (argv : list string) (w : world) :
  (List.length argv < 2 -> main argv w = (usage, w))
  /\ (2 <= List.length argv -> lookup_file (files w) "sample.csv" = None ->
        main argv w
        = ([("Error: [Errno 2] No such file or directory: " ++ str_repr "sample.csv")%string],
           w))
  /\ (forall rows e,
        2 <= List.length argv -> lookup_file (files w) "sample.csv" = Some rows ->
        parse_rows rows [] = Raise e ->
        is_open (List.length (handles w)) (snd (parse_transactions (Path "sample.csv") w))
        = true
        /\ main argv w = (["Error: " ++ str_of_exn e]%string,
                          mkworld (files w) (handles w ++ [false]))).
Proof.
  split; [|split].
  - intros Hlen. unfold main.
    assert (Hlt : (List.length argv <? 2)%nat = true) by (apply Nat.ltb_lt; exact Hlen).
    rewrite Hlt. reflexivity.
  - intros Hlen Hnone. rewrite (main_with_argument argv w Hlen).
    unfold parse_transactions, open. rewrite Hnone.
    unfold release, close. rewrite set_closed_beyond. destruct w; reflexivity.
  - intros rows e Hlen Hrows Hraise. split.
    + unfold parse_transactions, open, is_open. rewrite Hrows, Hraise. simpl.
      rewrite app_nth2, Nat.sub_diag by lia. reflexivity.
    + rewrite (main_with_argument argv w Hlen).
      unfold parse_transactions, open. rewrite Hrows, Hraise.
      unfold release, close. simpl. rewrite set_closed_last. reflexivity.
Qed.

Lemma main_prints_usage_or_error_witness :
  main (L := Ref.lib) ["project.py"] (sample_world bad_date_rows)
  = (usage, sample_world bad_date_rows)
  /\ main (L := Ref.lib) ["project.py"; "january.csv"] bad_date_world
     = (["Error: [Errno 2] No such file or directory: 'sample.csv'"], bad_date_world)
  /\ is_open 0 (snd (parse_transactions (L := Ref.lib) (Path "sample.csv")
                       (sample_world bad_date_rows))) = true
  /\ main (L := Ref.lib) ["project.py"; "january.csv"] (sample_world bad_date_rows)
     = (["Error: Unrecognized date format: not-a-date"],
        mkworld [("sample.csv", bad_date_rows)] [false]).
Proof.
  split; [|split].
  - apply (proj1 (main_prints_usage_or_error (L := Ref.lib) ["project.py"]
                    (sample_world bad_date_rows))).
    simpl. lia.
  - apply (proj1 (proj2 (main_prints_usage_or_error (L := Ref.lib)
                           ["project.py"; "january.csv"] bad_date_world))).
    + simpl. lia.
    + reflexivity.
  - apply (proj2 (proj2 (main_prints_usage_or_error (L := Ref.lib)
                           ["project.py"; "january.csv"] (sample_world bad_date_rows)))
                 bad_date_rows (ValueError "Unrecognized date format: not-a-date")).
    + simpl. lia.
    + reflexivity.
    + vm_compute. reflexivity.
Defined.

(** X15: what [main] prints when the rows of ["sample.csv"] are all
    read: the suggestions for a target of 2000 on the summary of the
    categorized transactions, then the heading, then one line per month
    of the summary, each month once, in the strictly growing order of
    the month keys; and the file is closed. *)
Theorem main_prints_report
  {L : PyLib} (argv : list string) (w : world) (rows : list row) (tx : list txn) :
  2 <= List.length argv ->
  lookup_file (files w) "sample.csv" = Some rows ->
  parse_rows rows [] = Return tx ->
  exists suggestions months,
    recommend_budget (monthly_summary (categorize_transactions tx None)) 2000%float
    = Return suggestions
    /\ main argv w
       = (suggestions ++ summary_heading :: map summary_line months,
          mkworld (files w) (handles w ++ [false]))
    /\ Permutation months (monthly_summary (categorize_transactions tx None))
    /\ strictly_ascending months.
Proof.
  intros Hlen Hrows Htx.
  destruct (recommend_budget_returns (monthly_summary (categorize_transactions tx None))
              2000%float) as [suggestions Hs].
  exists suggestions, (sorted item_lt (monthly_summary (categorize_transactions tx None))).
  split; [exact Hs|]. split; [|split].
  - rewrite (main_with_argument argv w Hlen).
    unfold parse_transactions, open. rewrite Hrows, Htx, Hs.
    unfold report, close. simpl. rewrite set_closed_last. reflexivity.
  - apply sorted_perm.
  - apply sorted_items_strictly.
    apply monthly_summary_keys_nodup.
Qed.

Example main_on_sample_rows :
  main (L := Ref.lib) ["project.py"; "january.csv"] (sample_world sample_rows)
  = ([ "Spending looks reasonable this month.";
       "To reach a target savings of $2000.00, increase monthly savings by $3.50.";
       summary_heading;
       "2024-12: -12.00, 1 transactions";
       "2025-01: 1996.50, 2 transactions" ],
     mkworld [("sample.csv", sample_rows)] [false]).
Proof. vm_compute. reflexivity. Qed.

Lemma main_prints_report_witness :
  exists suggestions months,
    recommend_budget
      (monthly_summary
         (categorize_transactions (L := Ref.lib)
            [ mktxn (Some (mkdate 2025 1 5)) (Some "Coffee Shop") (Some (-3.5)%float) None;
              mktxn (Some (mkdate 2025 1 6)) (Some "Salary") (Some 2000%float) None;
              mktxn (Some (mkdate 2024 12 30)) (Some "Uber") (Some (-12)%float) None ]
            None))
      2000%float
    = Return suggestions
    /\ main (L := Ref.lib) ["project.py"; "january.csv"] (sample_world sample_rows)
       = (suggestions ++ summary_heading :: map summary_line months,
          mkworld (files (sample_world sample_rows))
                  (handles (sample_world sample_rows) ++ [false]))
    /\ Permutation months
         (monthly_summary
            (categorize_transactions (L := Ref.lib)
               [ mktxn (Some (mkdate 2025 1 5)) (Some "Coffee Shop") (Some (-3.5)%float) None;
                 mktxn (Some (mkdate 2025 1 6)) (Some "Salary") (Some 2000%float) None;
                 mktxn (Some (mkdate 2024 12 30)) (Some "Uber") (Some (-12)%float) None ]
               None))
    /\ strictly_ascending months.
Proof.
  apply (main_prints_report (L := Ref.lib) ["project.py"; "january.csv"]
           (sample_world sample_rows) sample_rows).
  - simpl. lia.
  - reflexivity.
  - vm_compute. reflexivity.
Defined.

(** ** The parser: amounts no reading accepts, capitalized columns *)

(** X16: a row whose date is read and whose amount text [float] reads
    neither as it is nor with its commas taken out makes the call raise:
    it never returns a list, and when the rows before it were read the
    call raises the error of [float] on the text without commas, whose
    message ends with the [repr] of that text. *)
Theorem unreadable_amount_aborts_parse
  {L : PyLib} (src : csv_source) (w : world) (pre post : list row) (r : row) (d : date) :
  source_rows src w = Some (pre ++ r :: post) ->
  r <> [] ->
  parse_date (raw_date_of r) = Return d ->
  float_of_str (amt_raw_of r) = None ->
  float_of_str (Text.replace_comma (amt_raw_of r)) = None ->
  returns (fst (parse_transactions src w)) = false
  /\ (forall out, parse_rows pre [] = Return out ->
        fst (parse_transactions src w)
        = Raise (ValueError ("could not convert string to float: "
                               ++ str_repr (Text.replace_comma (amt_raw_of r))))).
Proof.
  intros Hrows Hne Hd Ha Hb.
  rewrite (parse_transactions_outcome src w _ Hrows).
  apply parse_rows_abort; [exact Hne|].
  unfold parse_row. rewrite Hd. simpl bind. unfold parse_amount. rewrite Ha, Hb.
  reflexivity.
Qed.

(** The amount [12,5o] gives the message that ends with ['125o']; the
    amount [12'5], which has a single quote, the message that ends with
    the text between double quotes. *)
Lemma unreadable_amount_aborts_parse_witness :
  fst (parse_transactions (L := Ref.lib)
         (Stream ([good_row] ++ bad_amount_row :: [])) (mkworld [] []))
  = Raise (ValueError "could not convert string to float: '125o'")
  /\ fst (parse_transactions (L := Ref.lib)
            (Stream ([good_row] ++ quoted_amount_row :: [good_row])) (mkworld [] []))
     = Raise (ValueError ("could not convert string to float: "
                            ++ String "034"%char ("12'5" ++ String "034"%char EmptyString))).
Proof.
  split.
  - refine (proj2 (unreadable_amount_aborts_parse (L := Ref.lib)
                     (Stream ([good_row] ++ bad_amount_row :: [])) (mkworld [] [])
                     [good_row] [] bad_amount_row (mkdate 2025 1 7) _ _ _ _ _)
                  [mktxn (Some (mkdate 2025 1 5)) (Some "Coffee Shop") (Some (-3.5)%float) None]
                  _).
    + reflexivity.
    + discriminate.
    + vm_compute. reflexivity.
    + vm_compute. reflexivity.
    + vm_compute. reflexivity.
    + vm_compute. reflexivity.
  - refine (proj2 (unreadable_amount_aborts_parse (L := Ref.lib)
                     (Stream ([good_row] ++ quoted_amount_row :: [good_row])) (mkworld [] [])
                     [good_row] [good_row] quoted_amount_row (mkdate 2025 1 7) _ _ _ _ _)
                  [mktxn (Some (mkdate 2025 1 5)) (Some "Coffee Shop") (Some (-3.5)%float) None]
                  _).
    + reflexivity.
    + discriminate.
    + vm_compute. reflexivity.
    + vm_compute. reflexivity.
    + vm_compute. reflexivity.
    + vm_compute. reflexivity.
Defined.

(** X17: a row under the capitalized column names is read as the row of
    the same cells under the lowercase names, unless its date cell is
    empty text: then the lowercase row has no date at all and the
    capitalized one the empty date, and the two errors differ in the
    text they carry. *)
Theorem capitalized_columns_are_read
  {L : PyLib} (date_cell description_cell amount_cell : option string) :
  (date_cell <> Some "" ->
     parse_row [("Date", date_cell); ("Description", description_cell);
                ("Amount", amount_cell)]
     = parse_row [("date", date_cell); ("description", description_cell);
                  ("amount", amount_cell)])
  /\ raw_date_of [("date", Some ""); ("description", description_cell);
                  ("amount", amount_cell)] = None
  /\ raw_date_of [("Date", Some ""); ("Description", description_cell);
                  ("Amount", amount_cell)] = Some "".
Proof.
  split; [|split; reflexivity].
  intros Hdate. unfold parse_row, raw_date_of, desc_of, amt_raw_of. simpl.
  assert (Hd : cell_or date_cell None = date_cell).
  { destruct date_cell as [s|]; [|reflexivity]. simpl.
    destruct (String.eqb_spec s ""); [subst; contradiction | reflexivity]. }
  assert (He : cell_or_text (cell_or description_cell None) ""
               = cell_or_text description_cell "").
  { destruct description_cell as [s|]; [|reflexivity]. simpl.
    destruct (String.eqb s "") eqn:E; simpl; [reflexivity | rewrite E; reflexivity]. }
  assert (Ha : cell_or_text (cell_or amount_cell None) "0"
               = cell_or_text amount_cell "0").
  { destruct amount_cell as [s|]; [|reflexivity]. simpl.
    destruct (String.eqb s "") eqn:E; simpl; [reflexivity | rewrite E; reflexivity]. }
  rewrite Hd, He, Ha. reflexivity.
Qed.

Lemma capitalized_columns_are_read_witness :
  parse_row (L := Ref.lib)
    [("Date", Some "2025-01-05"); ("Description", Some "Coffee Shop"); ("Amount", Some "-3.50")]
  = parse_row (L := Ref.lib) good_row.
Proof.
  apply (proj1 (capitalized_columns_are_read (L := Ref.lib)
                  (Some "2025-01-05") (Some "Coffee Shop") (Some "-3.50"))).
  discriminate.
Defined.

(** ** The stages together *)

Lemma parse_rows_length {L : PyLib} (rows : list row) (acc out : list txn) :
  parse_rows rows acc = Return out ->
  List.length out = List.length acc + List.length (processed rows).
Proof.
  revert acc. induction rows as [|r rows IH]; intros acc; simpl.
  - intros H. injection H as <-. lia.
  - destruct r as [|c r'].
    + apply IH.
    + destruct (parse_row (c :: r')) as [t|]; [|discriminate].
      intros H. apply IH in H. rewrite length_app in H. simpl in *. lia.
Qed.

Lemma categorize_keeps_dates {L : PyLib} (ts : list txn) (rules : option (dict string)) :
  Forall (fun t => exists d, t_date t = Some d) ts ->
  Forall (fun t => exists d, t_date t = Some d) (categorize_transactions ts rules).
Proof.
  intros H. unfold categorize_transactions. apply Forall_map.
  eapply Forall_impl; [|exact H]. intros t Ht. exact Ht.
Qed.

(** X18: when a call of the parser returns, the summary of its
    transactions, categorized under any rules, counts each row the
    parser did not skip exactly once, and has no entry ["unknown"]. *)
Theorem parsed_rows_are_counted_once
  {L : PyLib} (src : csv_source) (w : world) (rows : list row) (tx : list txn)
  (rules : option (dict string)) :
  source_rows src w = Some rows ->
  fst (parse_transactions src w) = Return tx ->
  counted (monthly_summary (categorize_transactions tx rules))
  = List.length (processed rows)
  /\ ~ In "unknown" (keys (monthly_summary (categorize_transactions tx rules))).
Proof.
  intros Hrows Htx. rewrite (parse_transactions_outcome src w rows Hrows) in Htx. split.
  - rewrite monthly_summary_loop, counted_loop. simpl.
    unfold categorize_transactions. rewrite length_map.
    apply (parse_rows_length rows [] tx Htx).
  - intros Hin. rewrite monthly_summary_loop in Hin. apply keys_loop_in in Hin.
    destruct Hin as [[]|Hin]. apply in_map_iff in Hin. destruct Hin as [t [Hk Ht]].
    pose proof (categorize_keeps_dates tx rules
                  (parse_rows_dated rows [] tx (Forall_nil _) Htx)) as Hd.
    rewrite Forall_forall in Hd. destruct (Hd t Ht) as [d Hdate].
    exact (month_key_dated t d Hdate Hk).
Qed.

Lemma parsed_rows_are_counted_once_witness :
  counted (monthly_summary
             (categorize_transactions (L := Ref.lib)
                [ mktxn (Some (mkdate 2025 1 5)) (Some "Coffee Shop") (Some (-3.5)%float) None;
                  mktxn (Some (mkdate 2025 1 6)) (Some "Salary") (Some 2000%float) None;
                  mktxn (Some (mkdate 2024 12 30)) (Some "Uber") (Some (-12)%float) None ]
                None))
  = List.length (processed ([] :: sample_rows))
  /\ ~ In "unknown"
       (keys (monthly_summary
                (categorize_transactions (L := Ref.lib)
                   [ mktxn (Some (mkdate 2025 1 5)) (Some "Coffee Shop")
                           (Some (-3.5)%float) None;
                     mktxn (Some (mkdate 2025 1 6)) (Some "Salary") (Some 2000%float) None;
                     mktxn (Some (mkdate 2024 12 30)) (Some "Uber") (Some (-12)%float) None ]
                   None))).
Proof.
  apply (parsed_rows_are_counted_once (L := Ref.lib) (Stream ([] :: sample_rows))
           (mkworld [] []) ([] :: sample_rows)).
  - reflexivity.
  - vm_compute. reflexivity.
Defined.

Lemma with_key_map {T : Type} (key : T -> string) (f : T -> T) (k : string) (ts : list T) :
  (forall t, key (f t) = key t) ->
  with_key key k (map f ts) = map f (with_key key k ts).
Proof.
  intros Hf. unfold with_key. induction ts as [|t ts IH]; simpl; [reflexivity|].
  rewrite Hf. destruct (String.eqb (key t) k); simpl; rewrite IH; reflexivity.
Qed.

Lemma monthly_summary_get (ts : list txn) (k : string) :
  total_and_count (dict_get (monthly_summary ts) k)
  = match in_month k ts with
    | [] => None
    | _ :: _ => Some (fsum (map amount_of (in_month k ts)), List.length (in_month k ts))
    end.
Proof.
  rewrite monthly_summary_loop, dict_get_loop. fold (in_month k ts).
  destruct (in_month k ts) as [|t m]; simpl.
  - reflexivity.
  - rewrite summary_steps. reflexivity.
Qed.

(** X19: categorizing does not move money: the summary of the
    categorized transactions has the months of the summary of the
    transactions as they were, in the same order, each with the same
    total and the same count. *)
Theorem categorizing_keeps_totals
  {L : PyLib} (transactions : list txn) (rules : option (dict string)) :
  keys (monthly_summary (categorize_transactions transactions rules))
  = keys (monthly_summary transactions)
  /\ (forall k,
        total_and_count
          (dict_get (monthly_summary (categorize_transactions transactions rules)) k)
        = total_and_count (dict_get (monthly_summary transactions) k)).
Proof.
  unfold categorize_transactions.
  set (f := fun t => mktxn (t_date t) (t_description t) (t_amount t)
                           (Some (category_for (rules_in_force rules) t))).
  change (map _ transactions) with (map f transactions).
  assert (Hkey : forall t, month_key (f t) = month_key t) by reflexivity.
  assert (Hamt : forall l, map amount_of (map f l) = map amount_of l).
  { intros l. rewrite map_map. apply map_ext. reflexivity. }
  split.
  - rewrite !monthly_summary_keys_first, map_map. f_equal.
  - intros k. rewrite !monthly_summary_get. unfold in_month.
    rewrite (with_key_map month_key f k transactions Hkey).
    destruct (with_key month_key k transactions) as [|t m]; [reflexivity|].
    cbn [map]. change (f t :: map f m) with (map f (t :: m)).
    rewrite Hamt, length_map. reflexivity.
Qed.
